(** * Research assistant: aggregation and resilience core

    A shallow embedding of the search aggregator ([lib/search-service]),
    the provider normalizers ([lib/normalizers]) and clients
    ([lib/providers]), the bibliographic works routes and the research
    endpoint with its stages and retry wrappers, followed by the
    properties established about them.

    Conventions of the embedding:
    - A JavaScript string is the [string] of the bytes of its UTF-8
      encoding (a lone surrogate as the three bytes of its code point);
      [undefined] is [None] of an option.
    - A JavaScript exception is the [Throw] outcome of the [Exc] monad;
      [try ... catch] is [try_catch].
    - Scores are rationals ([Q]): the program's doubles are idealised, so
      the properties speak of bounds and order of scores, not of the
      digits of a computed score.
    - Counts and offsets are integers ([Z]), exact below 2 ^ 53; [NaN] is
      kept where a caller can pass it.
    - External services are oracles gathered in a [World] record. *)

From Stdlib Require Import String Ascii List ZArith QArith Lia Lqa Bool.
From Stdlib Require Import Permutation Sorted.
From Stdlib Require Import DecimalString DecimalNat DecimalFacts.
From stdpp Require Import gmap strings.

Set Warnings "-register-all,-clear-no-such-hyp".

Import ListNotations.
Local Open Scope string_scope.
Local Open Scope list_scope.

(** ** JavaScript runtime fragments *)

Module JS.

(** Outcome of an evaluation that may throw. *)
Inductive Exc (A : Type) : Type :=
| Return (a : A)
| Throw.
Arguments Return {A} a.
Arguments Throw {A}.

Definition bind {A B} (m : Exc A) (k : A -> Exc B) : Exc B :=
  match m with
  | Return a => k a
  | Throw => Throw
  end.

(** [try { body } catch { handler }] where the handler itself is total. *)
Definition try_catch {A} (body : Exc A) (handler : A) : A :=
  match body with
  | Return a => a
  | Throw => handler
  end.

(** [try { body } catch { handler }] where the handler may throw in its
    turn. *)
Definition try_catch_with {A} (body handler : Exc A) : Exc A :=
  match body with
  | Return a => Return a
  | Throw => handler
  end.

Fixpoint mapM {A B} (f : A -> Exc B) (l : list A) : Exc (list B) :=
  match l with
  | [] => Return []
  | x :: xs => bind (f x) (fun y => bind (mapM f xs) (fun ys => Return (y :: ys)))
  end.

(** [l.map((x, index) => f(index, x))] where [f] may throw. *)
Fixpoint mapMi_from {A B} (f : nat -> A -> Exc B) (i : nat) (l : list A)
  : Exc (list B) :=
  match l with
  | [] => Return []
  | x :: xs =>
      bind (f i x) (fun y =>
      bind (mapMi_from f (S i) xs) (fun ys => Return (y :: ys)))
  end.

Definition mapMi {A B} (f : nat -> A -> Exc B) (l : list A) : Exc (list B) :=
  mapMi_from f 0 l.

(** [Array.prototype.sort(cmp)]: the sort is stable, so for a comparator
    that is a total preorder its result is the one of a stable insertion
    sort; [le a b] stands for [cmp(a, b) <= 0]. *)
Fixpoint insert_sorted {A} (le : A -> A -> bool) (x : A) (l : list A)
  : list A :=
  match l with
  | [] => [x]
  | y :: ys => if le x y then x :: y :: ys else y :: insert_sorted le x ys
  end.

Fixpoint sort {A} (le : A -> A -> bool) (l : list A) : list A :=
  match l with
  | [] => []
  | x :: xs => insert_sorted le x (sort le xs)
  end.

(** Truthiness of a string value. *)
Definition truthy (s : string) : bool :=
  match s with
  | EmptyString => false
  | String _ _ => true
  end.

(** [a || b] on possibly-undefined strings, the right operand a string. *)
Definition or_str (a : option string) (b : string) : string :=
  match a with
  | Some s => if truthy s then s else b
  | None => b
  end.

(** [a || b] on possibly-undefined strings, the right operand possibly
    undefined too. *)
Definition or_opt (a b : option string) : option string :=
  match a with
  | Some s => if truthy s then Some s else b
  | None => b
  end.

(** [a || undefined]. *)
Definition or_undefined (a : option string) : option string :=
  or_opt a None.

(** [Array.prototype.slice(0, n)]: a negative [n] counts from the end. *)
Definition slice0 {A} (n : Z) (l : list A) : list A :=
  if (0 <=? n)%Z then firstn (Z.to_nat n) l
  else firstn (Z.to_nat (Z.of_nat (length l) + n)) l.

(** [Number.prototype.toString] on a non-negative integer. *)
Definition toString (n : nat) : string :=
  NilEmpty.string_of_uint (Nat.to_uint n).

(** [Array.prototype.join]. *)
Fixpoint join (sep : string) (l : list string) : string :=
  match l with
  | [] => ""
  | [x] => x
  | x :: xs => x +:+ sep +:+ join sep xs
  end.

(** [s.split(sep)[0]] for a non-empty separator: the text before the first
    occurrence of [sep]. *)
Fixpoint before_first (sep s : string) : string :=
  match s with
  | EmptyString => EmptyString
  | String c s' => if String.prefix sep s then EmptyString
                   else String c (before_first sep s')
  end.

(** [s.includes(sub)]. *)
Fixpoint includes (sub s : string) : bool :=
  if String.prefix sub s then true
  else match s with
       | EmptyString => false
       | String _ s' => includes sub s'
       end.

(** [Number.prototype.toString] on an integer. *)
Definition toStringZ (z : Z) : string :=
  if (z <? 0)%Z then "-" +:+ toString (Z.to_nat (- z))
  else toString (Z.to_nat z).

Definition dquote : string := String (ascii_of_nat 34) EmptyString.
Definition newline : string := String (ascii_of_nat 10) EmptyString.

(** *** Text

    ASCII characters, which all the patterns and separators of the program
    are, are single bytes that occur nowhere else in an encoded text, so
    searching, splitting and comparing act on the bytes as they act on the
    text.  Lengths are counted in UTF-16 code units, as [String.length]
    counts them. *)

Definition bytes (codes : list nat) : string :=
  string_of_list_ascii (map ascii_of_nat codes).

Definition reverse (s : string) : string :=
  string_of_list_ascii (rev (list_ascii_of_string s)).

(** Reading the encoding byte by byte: [pending] is the number of
    continuation bytes that the code point being read still expects.  The
    result is the number of code units that the byte adds and the new
    [pending]: a continuation byte that is expected adds none; an ASCII
    byte and the lead byte of a code point below U+10000 add one; the lead
    byte of a code point from U+10000 on adds two (a surrogate pair); a
    byte that is out of place adds one. *)
Definition read_byte (pending : nat) (c : ascii) : nat * nat :=
  let n := nat_of_ascii c in
  if (128 <=? n)%nat && (n <? 192)%nat then
    match pending with
    | S pending' => (0%nat, pending')
    | O => (1%nat, 0%nat)
    end
  else if (n <? 128)%nat then (1%nat, 0%nat)
  else if (n <? 224)%nat then (1%nat, 1%nat)
  else if (n <? 240)%nat then (1%nat, 2%nat)
  else (2%nat, 3%nat).

Fixpoint code_units_from (pending : nat) (s : string) : nat :=
  match s with
  | EmptyString => 0%nat
  | String c s' =>
      let '(units, pending') := read_byte pending c in
      (units + code_units_from pending' s')%nat
  end.

(** [s.length]. *)
Definition code_units (s : string) : nat := code_units_from 0 s.

(** The high surrogate of the code point whose encoding starts with the
    lead byte [c] followed by [rest], as a lone surrogate. *)
Definition high_surrogate (c : ascii) (rest : string) : string :=
  match rest with
  | String b2 (String b3 _) =>
      let upper :=
        (((N_of_ascii c mod 8) * 64 + N_of_ascii b2 mod 64) * 64
         + N_of_ascii b3 mod 64)%N in
      let unit := (55296 + (upper - 1024) / 16)%N in
      String (ascii_of_N 237)
        (String (ascii_of_N (128 + (unit / 64) mod 64))
           (String (ascii_of_N (128 + unit mod 64)) EmptyString))
  | _ => EmptyString
  end.

(** [s.substring(0, n)]: the first [n] code units; the cut may fall
    between the two surrogates of a pair. *)
Fixpoint substring0_from (pending n : nat) (s : string) : string :=
  match s with
  | EmptyString => EmptyString
  | String c s' =>
      let '(units, pending') := read_byte pending c in
      if (units <=? n)%nat
      then String c (substring0_from pending' (n - units) s')
      else if (n =? 1)%nat then high_surrogate c s'
      else EmptyString
  end.

Definition substring0 (n : nat) (s : string) : string :=
  substring0_from 0 n s.

(** The WhiteSpace and LineTerminator code points, which
    [String.prototype.trim] and [parseInt] strip: U+0009 to U+000D,
    U+0020, U+00A0, U+1680, U+2000 to U+200A, U+2028, U+2029, U+202F,
    U+205F, U+3000 and U+FEFF. *)
Definition white_space : list string :=
  map bytes
    [ [9]; [10]; [11]; [12]; [13]; [32];
      [194; 160];
      [225; 154; 128];
      [226; 128; 128]; [226; 128; 129]; [226; 128; 130]; [226; 128; 131];
      [226; 128; 132]; [226; 128; 133]; [226; 128; 134]; [226; 128; 135];
      [226; 128; 136]; [226; 128; 137]; [226; 128; 138];
      [226; 128; 168]; [226; 128; 169];
      [226; 128; 175];
      [226; 129; 159];
      [227; 128; 128];
      [239; 187; 191] ]%nat.

(** The rest of [s] behind the prefix [p]. *)
Fixpoint strip_prefix (p s : string) : option string :=
  match p, s with
  | EmptyString, _ => Some s
  | String a p', String b s' =>
      if Ascii.eqb a b then strip_prefix p' s' else None
  | String _ _, EmptyString => None
  end.

(** The rest of [s] behind the first entry of [table] that it starts
    with. *)
Fixpoint drop_first (table : list string) (s : string) : option string :=
  match table with
  | [] => None
  | p :: others =>
      match strip_prefix p s with
      | Some rest => Some rest
      | None => drop_first others s
      end
  end.

(** Entries of [table] are dropped from the front of [s] as long as there
    is one; every entry being non-empty, the length of [s] bounds the
    number of rounds. *)
Fixpoint strip_leading_from (table : list string) (rounds : nat) (s : string)
  : string :=
  match rounds with
  | O => s
  | S rounds' =>
      match drop_first table s with
      | Some rest => strip_leading_from table rounds' rest
      | None => s
      end
  end.

Definition strip_leading (table : list string) (s : string) : string :=
  strip_leading_from table (String.length s) s.

Definition skip_white_space (s : string) : string :=
  strip_leading white_space s.

(** [String.prototype.trim]. *)
Definition trim (s : string) : string :=
  reverse (strip_leading (map reverse white_space)
             (reverse (skip_white_space s))).

(** *** [encodeURIComponent]

    The letters, the digits and [- _ . ! ~ * ' ( )] are kept; every other
    byte of the UTF-8 encoding is written as [%XX].  A surrogate pair is
    held as the four bytes of its code point, so the three bytes
    [ED A0..BF xx] stand for a lone surrogate, on which the function throws
    a [URIError]. *)
Definition is_unreserved (c : ascii) : bool :=
  let n := nat_of_ascii c in
  ((65 <=? n) && (n <=? 90) || (97 <=? n) && (n <=? 122)
   || (48 <=? n) && (n <=? 57)
   || existsb (Nat.eqb n) [45; 95; 46; 33; 126; 42; 39; 40; 41])%nat.

Definition hex_digit (d : nat) : ascii :=
  ascii_of_nat (if (d <? 10)%nat then 48 + d else 55 + d).

Definition percent_encoded (c : ascii) : string :=
  let n := nat_of_ascii c in
  String "%" (String (hex_digit (n / 16))
                (String (hex_digit (n mod 16)) EmptyString)).

Fixpoint escape_bytes (s : string) : string :=
  match s with
  | EmptyString => EmptyString
  | String c s' =>
      (if is_unreserved c then String c EmptyString else percent_encoded c)
      +:+ escape_bytes s'
  end.

Fixpoint has_lone_surrogate_from (after_ED : bool) (s : string) : bool :=
  match s with
  | EmptyString => false
  | String c s' =>
      if after_ED && (160 <=? nat_of_ascii c)%nat then true
      else has_lone_surrogate_from (nat_of_ascii c =? 237)%nat s'
  end.

Definition has_lone_surrogate (s : string) : bool :=
  has_lone_surrogate_from false s.

Definition encodeURIComponent (s : string) : Exc string :=
  if has_lone_surrogate s then Throw else Return (escape_bytes s).

(** *** Numbers

    A [number] that a caller passes for a count or an offset: an integer,
    or [NaN]. *)
Inductive Number : Type :=
| Int (z : Z)
| NaN.

(** [String(n)]. *)
Definition numberToString (n : Number) : string :=
  match n with
  | Int z => toStringZ z
  | NaN => "NaN"
  end.

(** [a + b] and [a < b]. *)
Definition plus (a b : Number) : Number :=
  match a, b with
  | Int x, Int y => Int (x + y)
  | _, _ => NaN
  end.

Definition less (a b : Number) : bool :=
  match a, b with
  | Int x, Int y => (x <? y)%Z
  | _, _ => false
  end.

(** [Math.max(lo, n)] and [Math.min(n, hi)] for a finite bound. *)
Definition atLeast (lo : Z) (n : Number) : Number :=
  match n with
  | Int z => Int (Z.max lo z)
  | NaN => NaN
  end.

Definition atMost (hi : Z) (n : Number) : Number :=
  match n with
  | Int z => Int (Z.min z hi)
  | NaN => NaN
  end.

(** *** [parseInt] *)

(** Sign prefix: the sign and the rest of the string. *)
Definition strip_sign (s : string) : Z * string :=
  match s with
  | String "-" s' => ((-1)%Z, s')
  | String "+" s' => (1%Z, s')
  | _ => (1%Z, s)
  end.

(** Value of a character as a digit of the given radix. *)
Definition digit_value (radix : nat) (c : ascii) : option nat :=
  let n := nat_of_ascii c in
  let v := if (48 <=? n)%nat && (n <=? 57)%nat then Some (n - 48)%nat
           else if (97 <=? n)%nat && (n <=? 122)%nat then Some (n - 87)%nat
           else if (65 <=? n)%nat && (n <=? 90)%nat then Some (n - 55)%nat
           else None in
  match v with
  | Some d => if (d <? radix)%nat then Some d else None
  | None => None
  end.

(** Longest prefix of digits, accumulated left to right; [seen] records
    whether at least one digit was read. *)
Fixpoint read_digits (radix : nat) (s : string) (acc : nat) (seen : bool)
  : option nat :=
  match s with
  | EmptyString => if seen then Some acc else None
  | String c s' =>
      match digit_value radix c with
      | Some d => read_digits radix s' (acc * radix + d)%nat true
      | None => if seen then Some acc else None
      end
  end.

(** [s.split(/[.!?]+/)]: the pieces between maximal runs of separators;
    [current] holds the piece being read, reversed. *)
Definition is_sentence_end (c : ascii) : bool :=
  let n := nat_of_ascii c in
  (n =? 46)%nat || (n =? 33)%nat || (n =? 63)%nat.

Fixpoint split_sentences_from (s : string) (current : list ascii)
  (in_run : bool) : list string :=
  match s with
  | EmptyString => [string_of_list_ascii (rev current)]
  | String c s' =>
      if is_sentence_end c then
        if in_run then split_sentences_from s' current true
        else string_of_list_ascii (rev current)
             :: split_sentences_from s' [] true
      else split_sentences_from s' (c :: current) false
  end.

Definition split_sentences (s : string) : list string :=
  split_sentences_from s [] false.

(** [parseInt(s, 10)]; [None] is [NaN]. *)
Definition parseInt10 (s : string) : option Z :=
  let (sign, body) := strip_sign (skip_white_space s) in
  match read_digits 10 body 0 false with
  | Some v => Some (sign * Z.of_nat v)%Z
  | None => None
  end.

(** Without a radix argument a [0x] / [0X] prefix selects radix 16. *)
Definition radix_prefix (body : string) : nat * string :=
  match body with
  | String "0" (String "x" r) => (16%nat, r)
  | String "0" (String "X" r) => (16%nat, r)
  | _ => (10%nat, body)
  end.

(** [Number.parseInt(s)] without a radix: decimal, or hexadecimal after a
    [0x] / [0X] prefix; [None] is [NaN]. *)
Definition parseInt (s : string) : option Z :=
  let (sign, body) := strip_sign (skip_white_space s) in
  let (radix, digits) := radix_prefix body in
  match read_digits radix digits 0 false with
  | Some v => Some (sign * Z.of_nat v)%Z
  | None => None
  end.

End JS.

(** ** The search aggregator ([lib/search-service]) *)

Module SearchService.
Import JS.

Record SearchResult : Type := mkSearchResult {
  title : string;
  url : string;
  snippet : string;
  domain : string;
  score : Q;
  published_date : option string;
  author : option string
}.

Record SearchOptions : Type := mkSearchOptions {
  query : string;
  numResults : Z;
  freshness : string;
  summary : bool
}.

Record RerankDocument : Type := mkRerankDocument {
  id : string;
  text : string;
  metadata : string * string * Q
}.

(** *** External payloads *)

(** Outcome of one request: building its url, the [fetch] and the
    decoding of the body. *)
Inductive Fetch (A : Type) : Type :=
| Rejected                (* a query that cannot be encoded, a network
                             failure or an undecodable body: throws *)
| NotOk                   (* [response.ok] is false *)
| Ok (data : A).
Arguments Rejected {A}.
Arguments NotOk {A}.
Arguments Ok {A} data.

Record LangSearchRaw : Type := mkLangSearchRaw {
  ls_name : option string;
  ls_title : option string;
  ls_url : option string;
  ls_snippet : option string;
  ls_content : option string;
  ls_datePublished : option string;
  ls_published_date : option string
}.

Record LangSearchData : Type := mkLangSearchData {
  ls_code : option Z;
  ls_webPages_value : option (list LangSearchRaw);
  ls_results : option (list LangSearchRaw)
}.

Record BraveRaw : Type := mkBraveRaw {
  br_title : string;
  br_url : string;
  br_description : option string;
  br_age : option string
}.

Record DuckTopic : Type := mkDuckTopic {
  FirstURL : option string;
  Text : option string
}.

Record DuckData : Type := mkDuckData {
  AbstractText : option string;
  Heading : option string;
  AbstractURL : option string;
  AbstractSource : option string;
  RelatedTopics : option (list DuckTopic)
}.

Record WikiData : Type := mkWikiData {
  wk_title : option string;
  wk_desktop_page : option string;
  wk_extract : option string
}.

(** One [<entry>] of the arXiv feed, after the adapter's pattern matching. *)
Record ArxivEntry : Type := mkArxivEntry {
  ax_title : option string;
  ax_summary : option string;
  ax_id : option string;
  ax_published : option string;
  ax_names : option (list string)
}.

Record PubMedArticle : Type := mkPubMedArticle {
  pm_title : option string;
  pm_abstract : option string;
  pm_pubdate : option string;
  pm_authors : option (list string)
}.

Record Scraped : Type := mkScraped {
  sc_title : string;
  sc_content : string;
  sc_snippet : string
}.

Record RerankItem : Type := mkRerankItem {
  document_id : option string;
  relevance_score : option Q
}.

Record RerankData : Type := mkRerankData {
  rr_code : option Z;
  (* [None]: [results] missing or not an array; a [None] element is a
     [null] entry of the array *)
  rr_results : option (list (option RerankItem))
}.

(** Everything outside the process. *)
Record World : Type := mkWorld {
  langSearchApiKey : option string;
  braveApiKey : option string;
  hostname : string -> Exc string;          (* [new URL(u).hostname] *)
  now : string;                             (* [new Date().toISOString()] *)
  currentYear : nat;                        (* [new Date().getFullYear()] *)
  fetch_langsearch : string -> Z -> string -> bool -> Fetch LangSearchData;
  fetch_brave : string -> Z -> Fetch (option (list BraveRaw));
  fetch_duckduckgo : string -> Fetch DuckData;
  fetch_wikipedia : string -> Fetch WikiData;
  fetch_arxiv : string -> Fetch (list ArxivEntry);
  fetch_pubmed_ids : string -> Fetch (option (list string));
  fetch_pubmed_summary : string -> Fetch (option PubMedArticle);
  scrapeWebContent : string -> option Scraped;
  fetch_rerank : string -> list RerankDocument -> Z -> Fetch RerankData
}.

Definition has_key (k : option string) : bool :=
  match k with
  | Some s => truthy s
  | None => false
  end.

(** The numeric literal [base - index * step]. *)
Definition ranked (base step : Q) (index : nat) : Q :=
  base - inject_Z (Z.of_nat index) * step.

(** *** Deduplication and the synthetic results *)

(** The key [`${result.title}-${result.url}`]. *)
Definition dedupKey (result : SearchResult) : string :=
  title result +:+ "-" +:+ url result.

Fixpoint removeDuplicates_from (seen : gset string)
  (results : list SearchResult) : list SearchResult :=
  match results with
  | [] => []
  | result :: rest =>
      let key := dedupKey result in
      if decide (key ∈ seen) then removeDuplicates_from seen rest
      else result :: removeDuplicates_from ({[ key ]} ∪ seen) rest
  end.

Definition removeDuplicates (results : list SearchResult)
  : list SearchResult :=
  removeDuplicates_from ∅ results.

Definition getEnhancedFallbackResults (w : World) (query : string)
  : Exc (list SearchResult) :=
  let currentYear := toString (currentYear w) in
  bind (encodeURIComponent query) (fun scholar =>
  bind (encodeURIComponent query) (fun arxiv =>
  bind (encodeURIComponent query) (fun github =>
  Return
  [ {| title := "Comprehensive Research on " +:+ query;
       url := "https://scholar.google.com/scholar?q=" +:+ scholar;
       snippet := "Academic research and scholarly articles about "
                  +:+ query +:+ ", including peer-reviewed papers, theses, books, conference papers, and other scholarly literature.";
       domain := "scholar.google.com";
       score := 0.95;
       published_date := Some (currentYear +:+ "-01-01T00:00:00Z");
       author := Some "Academic Community" |};
    {| title := query +:+ ": Latest Research and Developments";
       url := "https://arxiv.org/search/?query=" +:+ arxiv;
       snippet := "Recent preprints and research papers on " +:+ query
                  +:+ " from arXiv, covering the latest developments and findings in the field.";
       domain := "arxiv.org";
       score := 0.9;
       published_date := Some (currentYear +:+ "-02-01T00:00:00Z");
       author := Some "Research Community" |};
    {| title := query +:+ ": Technical Documentation and Resources";
       url := "https://github.com/search?q=" +:+ github;
       snippet := "Open source projects, documentation, and technical resources related to "
                  +:+ query +:+ " from the developer community.";
       domain := "github.com";
       score := 0.85;
       published_date := Some (currentYear +:+ "-03-01T00:00:00Z");
       author := Some "Developer Community" |} ]))).

(** *** Provider adapters *)

(** [data.code && data.code !== 200]. *)
Definition code_is_error (code : option Z) : bool :=
  match code with
  | Some c => negb (c =? 0)%Z && negb (c =? 200)%Z
  | None => false
  end.

Definition langSearchItem (w : World) (index : nat) (result : LangSearchRaw)
  : Exc SearchResult :=
  let content_part :=
    match ls_content result with
    | Some c => substring0 200 c +:+ "..."
    | None => "undefined..."
    end in
  bind (if truthy (or_str (ls_url result) "")
        then hostname w (or_str (ls_url result) "")
        else Return "")
    (fun host => Return
      {| title := or_str (or_opt (ls_name result) (ls_title result)) "Untitled";
         url := or_str (ls_url result) "";
         snippet := or_str (ls_snippet result) content_part;
         domain := host;
         score := ranked 1 0.05 index;
         published_date :=
           Some (or_str (or_opt (ls_datePublished result)
                                (ls_published_date result)) (now w));
         author := Some "Unknown" |}).

Definition searchWithLangSearch (w : World) (query : string) (count : Z)
  (freshness : string) (summary : bool) : Exc (list SearchResult) :=
  Return (try_catch
    match fetch_langsearch w query count freshness summary with
    | Rejected => Throw
    | NotOk => Return []
    | Ok data =>
        if code_is_error (ls_code data) then Return []
        else
          let results :=
            match ls_webPages_value data with
            | Some l => l
            | None => match ls_results data with
                      | Some l => l
                      | None => []
                      end
            end in
          mapMi (langSearchItem w) results
    end
    []).

Definition braveItem (w : World) (index : nat) (result : BraveRaw)
  : Exc SearchResult :=
  bind (hostname w (br_url result))
    (fun host => Return
      {| title := br_title result;
         url := br_url result;
         snippet := or_str (br_description result) "";
         domain := host;
         score := ranked 0.8 0.05 index;
         published_date := Some (or_str (br_age result) (now w));
         author := Some "Unknown" |}).

Definition searchWithBrave (w : World) (query : string) (count : Z)
  : Exc (list SearchResult) :=
  Return (try_catch
    match fetch_brave w query count with
    | Rejected => Throw
    | NotOk => Return []
    | Ok data =>
        mapMi (braveItem w) match data with Some l => l | None => [] end
    end
    []).

(** [given || `${prefix}${encodeURIComponent(query)}`]: the query is
    encoded only when no url is given. *)
Definition url_or_search (w : World) (given : option string)
  (prefix query : string) : Exc string :=
  match or_undefined given with
  | Some u => Return u
  | None => bind (encodeURIComponent query)
              (fun encoded => Return (prefix +:+ encoded))
  end.

Definition duckAbstract (w : World) (query : string) (data : DuckData)
  : Exc (list SearchResult) :=
  if truthy (or_str (AbstractText data) "") then
    bind (url_or_search w (AbstractURL data) "https://duckduckgo.com/?q=" query)
      (fun abstractURL => Return
    [ {| title := or_str (Heading data) query;
         url := abstractURL;
         snippet := or_str (AbstractText data) "";
         domain := or_str (AbstractSource data) "duckduckgo.com";
         score := 0.9;
         published_date := Some (now w);
         author := Some (or_str (AbstractSource data) "DuckDuckGo") |} ])
  else Return [].

Definition duckTopic (w : World) (query : string) (index : nat)
  (topic : DuckTopic) : Exc (option SearchResult) :=
  let FirstURL := or_str (FirstURL topic) "" in
  let Text := or_str (Text topic) "" in
  if truthy FirstURL && truthy Text then
    bind (hostname w FirstURL)
      (fun host => Return (Some
        {| title := or_str (Some (before_first " - " Text)) query;
           url := FirstURL;
           snippet := Text;
           domain := host;
           score := ranked 0.8 0.1 index;
           published_date := Some (now w);
           author := Some "DuckDuckGo" |}))
  else Return None.

Definition searchWithDuckDuckGo (w : World) (query : string)
  : Exc (list SearchResult) :=
  Return (try_catch
    match fetch_duckduckgo w query with
    | Rejected => Throw
    | NotOk => Return []
    | Ok data =>
        let topics :=
          match RelatedTopics data with
          | Some l => firstn 3 l
          | None => []
          end in
        bind (duckAbstract w query data) (fun abstract =>
        bind (mapMi (duckTopic w query) topics)
          (fun pushed => Return (abstract ++ omap (fun o => o) pushed)))
    end
    []).

Definition searchWithWikipedia (w : World) (query : string)
  : Exc (list SearchResult) :=
  Return (try_catch
    match fetch_wikipedia w query with
    | Rejected => Throw
    | NotOk => Return []
    | Ok data =>
        bind (url_or_search w (wk_desktop_page data)
                "https://en.wikipedia.org/wiki/" query)
          (fun page => Return
        [ {| title := or_str (wk_title data) query;
             url := page;
             snippet := or_str (wk_extract data)
                          ("Wikipedia article about " +:+ query);
             domain := "wikipedia.org";
             score := 0.95;
             published_date := Some (now w);
             author := Some "Wikipedia" |} ])
    end
    []).

Definition arxivItem (w : World) (query : string) (index : nat)
  (entry : ArxivEntry) : SearchResult :=
  {| title := match ax_title entry with Some t => t | None => query end;
     url := match ax_id entry with Some i => i | None => "" end;
     snippet := match ax_summary entry with Some s => s | None => "" end;
     domain := "arxiv.org";
     score := ranked 0.9 0.1 index;
     published_date :=
       Some match ax_published entry with Some p => p | None => now w end;
     author :=
       Some match ax_names entry with
            | Some names => join ", " names
            | None => "arXiv Authors"
            end |}.

Definition searchWithArXiv (w : World) (query : string)
  : Exc (list SearchResult) :=
  Return (try_catch
    match fetch_arxiv w query with
    | Rejected => Throw
    | NotOk => Return []
    | Ok entries => Return (imap (arxivItem w query) (firstn 3 entries))
    end
    []).

Definition pubMedItem (w : World) (query id : string)
  : Exc (list SearchResult) :=
  match fetch_pubmed_summary w id with
  | Rejected => Throw
  | NotOk => Return []
  | Ok None => Return []
  | Ok (Some article) => Return
      [ {| title := or_str (pm_title article) ("PubMed Article " +:+ id);
           url := "https://pubmed.ncbi.nlm.nih.gov/" +:+ id +:+ "/";
           snippet := or_str (pm_abstract article)
                        ("Research article about " +:+ query);
           domain := "pubmed.ncbi.nlm.nih.gov";
           score := 0.85;
           published_date := Some (or_str (pm_pubdate article) (now w));
           author := Some (or_str (option_map (join ", ") (pm_authors article))
                                  "PubMed Authors") |} ]
  end.

Definition searchWithPubMed (w : World) (query : string)
  : Exc (list SearchResult) :=
  Return (try_catch
    match fetch_pubmed_ids w query with
    | Rejected => Throw
    | NotOk => Return []
    | Ok None => Return []
    | Ok (Some idlist) =>
        bind (mapM (pubMedItem w query) (firstn 3 idlist))
          (fun pushed => Return (concat pushed))
    end
    []).

(** *** The aggregation pipeline *)

(** [Promise.allSettled] followed by the [forEach] that keeps the
    fulfilled, non-empty values. *)
Definition collect_settled (settled : list (Exc (list SearchResult)))
  : list SearchResult :=
  concat (map (fun r => match r with
                        | Return value => value
                        | Throw => []
                        end) settled).

(** Comparator [(a, b) => b.score - a.score]. *)
Definition by_score_desc (a b : SearchResult) : bool :=
  Qle_bool (score b - score a) 0.

Definition getRealSearchResults (w : World) (query : string)
  : Exc (list SearchResult) :=
  try_catch_with
    (let promises :=
       [ searchWithDuckDuckGo w query;
         searchWithWikipedia w query;
         searchWithArXiv w query;
         searchWithPubMed w query ] in
     let results := collect_settled promises in
     let uniqueResults := removeDuplicates results in
     Return (sort by_score_desc uniqueResults))
    (getEnhancedFallbackResults w query).

Definition enhanceOne (w : World) (result : SearchResult) : SearchResult :=
  match scrapeWebContent w (url result) with
  | Some scrapedContent =>
      {| title := or_str (Some (sc_title scrapedContent)) (title result);
         url := url result;
         snippet := or_str (Some (sc_snippet scrapedContent)) (snippet result);
         domain := domain result;
         score := score result + 0.1;
         published_date := published_date result;
         author := author result |}
  | None => result
  end.

Definition enhanceSearchResults (w : World) (results : list SearchResult)
  : Exc (list SearchResult) :=
  Return (map (enhanceOne w) results).

Definition search (w : World) (options : SearchOptions)
  : Exc (list SearchResult) :=
  let query := query options in
  let numResults := numResults options in
  (* LangSearch first *)
  let results1 :=
    if has_key (langSearchApiKey w) then
      try_catch
        (bind (searchWithLangSearch w query numResults (freshness options)
                 (summary options))
           (fun langSearchResults => Return langSearchResults))
        []
    else [] in
  (* Brave as backup *)
  let results2 :=
    if has_key (braveApiKey w) && (length results1 <? 5)%nat then
      try_catch
        (bind (searchWithBrave w query
                 (numResults - Z.of_nat (length results1))%Z)
           (fun braveResults => Return (results1 ++ braveResults)))
        results1
    else results1 in
  bind (if (0 <? length results2)%nat then Return results2
        else getRealSearchResults w query)
    (fun finalResults =>
  bind (enhanceSearchResults w finalResults)
    (fun enhancedResults =>
  Return (slice0 numResults enhancedResults))).

(** *** Reranking *)

Definition rerankDocuments (results : list SearchResult)
  : list RerankDocument :=
  imap (fun index result =>
          {| id := toString index;
             text := title result +:+ " " +:+ snippet result;
             metadata := (url result, domain result, score result) |})
       results.

(** [results[i]] for a parsed index; [None] is [undefined]. *)
Definition at_index {A} (l : list A) (i : option Z) : option A :=
  match i with
  | Some z => if (0 <=? z)%Z then nth_error l (Z.to_nat z) else None
  | None => None
  end.

Definition rerankItem (results : list SearchResult) (first : SearchResult)
  (index : nat) (item : option RerankItem) : Exc SearchResult :=
  match item with
  | None => Throw
  | Some result =>
      let originalIndex := parseInt (or_str (document_id result) "0") in
      let originalResult :=
        match at_index results originalIndex with
        | Some r => r
        | None => first
        end in
      Return
        {| title := title originalResult;
           url := url originalResult;
           snippet := snippet originalResult;
           domain := domain originalResult;
           score := match relevance_score result with
                    | Some q => if Qeq_bool q 0 then ranked 1 0.1 index else q
                    | None => ranked 1 0.1 index
                    end;
           published_date := published_date originalResult;
           author := author originalResult |}
  end.

Definition rerankResults (w : World) (query : string)
  (results : list SearchResult) (topN : Z) : Exc (list SearchResult) :=
  match results with
  | [] => Return (slice0 topN results)
  | first :: _ =>
      if negb (has_key (langSearchApiKey w)) then Return (slice0 topN results)
      else
        Return (try_catch
          (let documents := rerankDocuments results in
           match fetch_rerank w query documents topN with
           | Rejected => Throw
           | NotOk => Return (slice0 topN results)
           | Ok data =>
               if code_is_error (rr_code data)
               then Return (slice0 topN results)
               else match rr_results data with
                    | None => Return (slice0 topN results)
                    | Some items => mapMi (rerankItem results first) items
                    end
           end)
          (slice0 topN results))
  end.

End SearchService.

(** ** Provider normalizers ([lib/normalizers]) *)

Module Normalizers.
Import JS.

Inductive ProviderId : Type := openalex | crossref | arxiv | europepmc.

(** The fields of [Paper] that the identity and abstract rules determine;
    the remaining fields of the interface (year, dates, venue, pdfUrl,
    counters, concepts, authors) are copied from the payload and are not
    part of this embedding. *)
Record Paper : Type := mkPaper {
  id : option string;
  doi : option string;
  title : option string;
  abstract : option string;
  url : option string;
  source : ProviderId
}.

Record Position : Type := mkPosition {
  pos : Z;
  word : string
}.

(** Comparator [(a, b) => a.pos - b.pos]. *)
Definition by_pos (a b : Position) : bool := (pos a - pos b <=? 0)%Z.

(** The inverted index is given by its [Object.entries]. *)
Definition collect_positions (entries : list (string * list Z))
  : list Position :=
  flat_map (fun entry => map (fun p => {| pos := p; word := fst entry |})
                             (snd entry))
           entries.

Definition reconstructAbstractFromInvertedIndex
  (index : option (list (string * list Z))) : option string :=
  match index with
  | None => None
  | Some entries =>
      let positions := sort by_pos (collect_positions entries) in
      Some (join " " (map word positions))
  end.

(** [s.replace(/^https?:\/\/doi\.org\//, '')]. *)
Definition strip_doi_resolver (s : string) : string :=
  if String.prefix "https://doi.org/" s then substring 16 (String.length s - 16) s
  else if String.prefix "http://doi.org/" s then substring 15 (String.length s - 15) s
  else s.

Record OpenAlexWork : Type := mkOpenAlexWork {
  oa_id : option string;
  oa_doi : option string;
  oa_display_name : option string;
  oa_title : option string;
  oa_abstract : option string;
  oa_abstract_inverted_index : option (list (string * list Z));
  oa_landing_page_url : option string;
  oa_oa_url : option string
}.

Definition normalizeOpenAlexWork (work : OpenAlexWork) : Paper :=
  let doi := or_undefined (option_map strip_doi_resolver (oa_doi work)) in
  let landing :=
    or_opt (oa_landing_page_url work)
      (or_opt (oa_oa_url work)
         match doi with
         | Some d => Some ("https://doi.org/" +:+ d)
         | None => None
         end) in
  let abstract :=
    or_opt (oa_abstract work)
      (reconstructAbstractFromInvertedIndex (oa_abstract_inverted_index work)) in
  {| id := oa_id work;
     doi := doi;
     title := Some (or_str (or_opt (oa_display_name work) (oa_title work))
                           "Untitled");
     abstract := abstract;
     url := landing;
     source := openalex |}.

(** [item.title] of a Crossref record: absent, a string, or an array. *)
Inductive CrossrefTitle : Type :=
| TitleAbsent
| TitleString (s : string)
| TitleArray (l : list string).

Record CrossrefItem : Type := mkCrossrefItem {
  cr_DOI : option string;
  cr_URL : option string;
  cr_title : CrossrefTitle;
  cr_abstract : option string
}.

Definition normalizeCrossrefItem (item : CrossrefItem) : Paper :=
  let doi := or_undefined (cr_DOI item) in
  let title :=
    match cr_title item with
    | TitleArray l => nth_error l 0
    | TitleString s => Some (or_str (Some s) "Untitled")
    | TitleAbsent => Some "Untitled"
    end in
  let url :=
    or_opt (cr_URL item)
      match doi with
      | Some d => Some ("https://doi.org/" +:+ d)
      | None => None
      end in
  {| id := match doi with
           | Some d => Some ("https://doi.org/" +:+ d)
           | None => match or_undefined url with
                     | Some u => Some u
                     | None => title
                     end
           end;
     doi := doi;
     title := title;
     abstract := None;  (* tag stripping of [item.abstract] is not modelled *)
     url := url;
     source := crossref |}.

Record ArxivEntry : Type := mkArxivEntry {
  ax_id : string;
  ax_title : string;
  ax_summary : option string
}.

Definition normalizeArxivEntry (entry : ArxivEntry) : Paper :=
  {| id := Some (ax_id entry);
     doi := None;
     title := Some (or_str (Some (ax_title entry)) "Untitled");
     abstract := ax_summary entry;
     url := Some (ax_id entry);
     source := arxiv |}.

Record EuropePmcItem : Type := mkEuropePmcItem {
  ep_id : option string;
  ep_doi : option string;
  ep_title : option string;
  ep_source : option string;
  ep_pageInfo : option string;
  ep_abstractText : option string
}.

Definition normalizeEuropePmcItem (item : EuropePmcItem) : Paper :=
  let doi := or_undefined (ep_doi item) in
  let landing :=
    match or_undefined (ep_id item), or_undefined (ep_source item) with
    | Some i, Some s => Some ("https://europepmc.org/abstract/" +:+ s +:+ "/" +:+ i)
    | _, _ => or_undefined (ep_pageInfo item)
    end in
  {| id := match doi with
           | Some d => Some ("https://doi.org/" +:+ d)
           | None => match or_undefined (ep_id item) with
                     | Some i => Some ("europepmc:" +:+ i)
                     | None => Some (or_str (ep_title item) "unknown")
                     end
           end;
     doi := doi;
     title := Some (or_str (ep_title item) "Untitled");
     abstract := or_undefined (ep_abstractText item);
     url := landing;
     source := europepmc |}.

End Normalizers.

(** ** The research route ([app/api/research/route]) *)

Module ResearchRoute.
Import JS.
Import SearchService.

(** Values produced by [JSON.parse], and [undefined]. *)
Inductive JSValue : Type :=
| JUndefined
| JNull
| JBool (b : bool)
| JNum (q : Q)
| JStr (s : string)
| JArr (items : list JSValue)
| JObj (fields : list (string * JSValue)).

Definition js_truthy (v : JSValue) : bool :=
  match v with
  | JUndefined | JNull => false
  | JBool b => b
  | JNum q => negb (Qeq_bool q 0)
  | JStr s => truthy s
  | JArr _ | JObj _ => true
  end.

(** [a || b]. *)
Definition js_or (a b : JSValue) : JSValue :=
  if js_truthy a then a else b.

Fixpoint assoc (name : string) (fields : list (string * JSValue)) : JSValue :=
  match fields with
  | [] => JUndefined
  | (k, v) :: rest => if String.eqb k name then v else assoc name rest
  end.

(** [v.name] for a data property name that no prototype defines: throws
    on [null] and [undefined], is [undefined] on other primitives and on
    arrays. *)
Definition prop (v : JSValue) (name : string) : Exc JSValue :=
  match v with
  | JUndefined | JNull => Throw
  | JObj fields => Return (assoc name fields)
  | _ => Return JUndefined
  end.

Record Citation : Type := mkCitation {
  id : JSValue;
  formatted : JSValue;
  inText : JSValue;
  type : JSValue;
  year : JSValue;
  authors : JSValue
}.

(** The platform functions and the clock the route relies on. *)
Record Env : Type := mkEnv {
  world : World;
  dateFullYear : string -> option Z;   (* [new Date(s).getFullYear()] *)
  JSON_parse : string -> Exc JSValue
}.

(** *** Local fallback producers *)

Definition getEnhancedFallbackResults (w : World) (query : string)
  : Exc (list SearchResult) :=
  let currentYear := toString (currentYear w) in
  bind (encodeURIComponent query) (fun scholar =>
  bind (encodeURIComponent query) (fun pubmed =>
  bind (encodeURIComponent query) (fun arxiv =>
  Return
  [ {| title := "Comprehensive Analysis of " +:+ query
                +:+ ": Current Research and Applications";
       url := "https://scholar.google.com/scholar?q=" +:+ scholar;
       snippet := "This comprehensive analysis examines the current state of "
                  +:+ query +:+ ", including recent developments, methodologies, and practical applications. The research covers theoretical foundations, empirical studies, and emerging trends in the field.";
       domain := "scholar.google.com";
       score := 0.95;
       published_date := Some (currentYear +:+ "-01-15T00:00:00Z");
       author := Some "Academic Research Team" |};
    {| title := query +:+ ": Systematic Review and Meta-Analysis";
       url := "https://pubmed.ncbi.nlm.nih.gov/?term=" +:+ pubmed;
       snippet := "A systematic review examining " +:+ query
                  +:+ " through multiple research studies and meta-analytical approaches. This study synthesizes findings from peer-reviewed literature to provide evidence-based insights.";
       domain := "pubmed.ncbi.nlm.nih.gov";
       score := 0.92;
       published_date := Some (currentYear +:+ "-02-20T00:00:00Z");
       author := Some "Research Consortium" |};
    {| title := "Recent Advances in " +:+ query +:+ ": A Technical Perspective";
       url := "https://arxiv.org/search/?query=" +:+ arxiv;
       snippet := "This technical paper discusses recent advances in "
                  +:+ query +:+ ", focusing on innovative methodologies, computational approaches, and future research directions. The work presents both theoretical contributions and practical implementations.";
       domain := "arxiv.org";
       score := 0.88;
       published_date := Some (currentYear +:+ "-03-10T00:00:00Z");
       author := Some "Dr. Research Specialist" |} ]))).

Definition generateFallbackSummary (query : string)
  (searchResults : list SearchResult) : string :=
  "# Research Summary: " +:+ query +:+ newline +:+ newline
  +:+ "Based on the available sources, here is a comprehensive overview of "
  +:+ query +:+ ":" +:+ newline +:+ newline
  +:+ "## Introduction" +:+ newline
  +:+ query +:+ " is an important topic that has gained significant attention in recent research and applications."
  +:+ newline +:+ newline
  +:+ "## Key Findings" +:+ newline
  +:+ join newline
        (imap (fun i source => "- **[" +:+ toString (i + 1) +:+ "]** "
                               +:+ title source +:+ ": " +:+ snippet source)
              searchResults)
  +:+ newline +:+ newline
  +:+ "## Conclusion" +:+ newline
  +:+ "The research on " +:+ query +:+ " continues to evolve, with new developments and applications emerging regularly. Further investigation is recommended to stay current with the latest findings."
  +:+ newline +:+ newline
  +:+ "## Sources" +:+ newline
  +:+ join newline
        (imap (fun i source => "[" +:+ toString (i + 1) +:+ "] "
                               +:+ title source +:+ " - " +:+ url source)
              searchResults).

Definition determineSourceType (domain : string) : string :=
  if includes "edu" domain || includes "arxiv" domain
     || includes "scholar" domain then "academic"
  else if includes "gov" domain || includes "org" domain then "institutional"
  else if includes "news" domain || includes "reuters" domain
          || includes "bbc" domain then "news"
  else "web".

Definition extractYear (env : Env) (publishedDate : option string) : string :=
  match or_undefined publishedDate with
  | None => toString (currentYear (world env))
  | Some d =>
      match dateFullYear env d with
      | None => toString (currentYear (world env))
      | Some y => toStringZ y
      end
  end.

Definition fallbackCitation (env : Env) (style : string) (i : nat)
  (source : SearchResult) : Citation :=
  let year := extractYear env (published_date source) in
  let author := or_str (SearchService.author source) "Unknown" in
  let first_name := before_first " " author in
  let number := toString (i + 1) in
  let '(formatted, inText) :=
    if String.eqb style "apa" then
      (author +:+ " (" +:+ year +:+ "). " +:+ title source
       +:+ ". Retrieved from " +:+ url source,
       "(" +:+ first_name +:+ ", " +:+ year +:+ ")")
    else if String.eqb style "mla" then
      (author +:+ ". " +:+ dquote +:+ title source +:+ "." +:+ dquote
       +:+ " " +:+ domain source +:+ ", " +:+ year +:+ ". Web. <"
       +:+ url source +:+ ">.",
       "(" +:+ first_name +:+ ")")
    else if String.eqb style "ieee" then
      ("[" +:+ number +:+ "] " +:+ author +:+ ", " +:+ dquote
       +:+ title source +:+ "," +:+ dquote +:+ " " +:+ domain source
       +:+ ", " +:+ year +:+ ". [Online]. Available: " +:+ url source,
       "[" +:+ number +:+ "]")
    else
      (author +:+ " (" +:+ year +:+ "). " +:+ title source +:+ ". "
       +:+ url source,
       "(" +:+ first_name +:+ ", " +:+ year +:+ ")") in
  {| id := JStr ("cite-" +:+ number);
     formatted := JStr formatted;
     inText := JStr inText;
     type := JStr (determineSourceType (domain source));
     year := JStr year;
     authors := JArr [JStr author] |}.

Definition generateFallbackCitations (env : Env)
  (sources : list SearchResult) (style : string) : list Citation :=
  imap (fallbackCitation env style) sources.

Definition extractInsightsFromSummary (summary : string) : list string :=
  let sentences :=
    List.filter (fun s => (20 <? code_units (trim s))%nat)
                (split_sentences summary) in
  map trim (firstn 6 sentences).

Definition generateFallbackRelatedTopics (query : string) : list string :=
  [ "Advanced " +:+ query +:+ " techniques";
    "Emerging trends in " +:+ query;
    "Applications of " +:+ query;
    "Future directions in " +:+ query;
    "Methodologies for " +:+ query;
    "Comparative studies on " +:+ query;
    "Theoretical foundations of " +:+ query;
    "Case studies in " +:+ query ].

(** *** Web search stage *)

Definition performWebSearch (w : World) (query : string)
  : Exc (list SearchResult) :=
  try_catch_with
    (bind (search w {| query := query; numResults := 15;
                       freshness := "month"; summary := true |})
       (fun initialResults =>
          if has_key (langSearchApiKey w)
             && (0 <? length initialResults)%nat
          then
            Return (try_catch (rerankResults w query initialResults 10)
                              (slice0 10 initialResults))
          else Return (slice0 10 initialResults)))
    (getEnhancedFallbackResults w query).

(** *** Generation stages

    The reply of the text-generation provider to the stage's prompt is an
    argument ([Throw] when the call fails); the prompt texts are not part
    of the embedding. *)

Definition generateSummary (reply : Exc string) (query : string)
  (searchResults : list SearchResult) : Exc string :=
  Return (try_catch reply (generateFallbackSummary query searchResults)).

(** [text.match(/\[[\s\S]*\]/)]: the leftmost match starts at the first
    opening bracket and, the star being greedy, ends at the last closing
    bracket after it. *)
Fixpoint after_first_open (s : string) : option string :=
  match s with
  | EmptyString => None
  | String c s' => if Ascii.eqb c "[" then Some s' else after_first_open s'
  end.

Fixpoint through_last_close (s : string) : option string :=
  match s with
  | EmptyString => None
  | String c s' =>
      match through_last_close s' with
      | Some body => Some (String c body)
      | None => if Ascii.eqb c "]" then Some (String c EmptyString) else None
      end
  end.

Definition jsonMatch (text : string) : option string :=
  match after_first_open text with
  | None => None
  | Some rest =>
      match through_last_close rest with
      | Some body => Some (String "[" body)
      | None => None
      end
  end.

Definition citationOf (env : Env) (searchResults : list SearchResult)
  (index : nat) (citation : JSValue) : Exc Citation :=
  let source := nth_error searchResults index in
  let number := toString (index + 1) in
  bind (prop citation "id") (fun c_id =>
  bind (prop citation "formatted") (fun c_formatted =>
  bind (prop citation "citation") (fun c_citation =>
  bind (prop citation "inText") (fun c_inText =>
  bind (prop citation "in_text") (fun c_in_text =>
  bind (prop citation "type") (fun c_type =>
  bind (prop citation "year") (fun c_year =>
  bind (prop citation "authors") (fun c_authors =>
  Return
    {| id := js_or c_id (JStr ("cite-" +:+ number));
       formatted := js_or (js_or c_formatted c_citation) (JStr "");
       inText := js_or (js_or c_inText c_in_text)
                       (JStr ("(" +:+ number +:+ ")"));
       type := js_or c_type
                 (JStr (determineSourceType
                          (or_str (option_map domain source) "")));
       year := js_or c_year
                 (JStr (extractYear env
                          match source with
                          | Some r => published_date r
                          | None => None
                          end));
       authors := js_or c_authors
                    (JArr [JStr (or_str match source with
                                        | Some r => SearchService.author r
                                        | None => None
                                        end "Unknown")]) |})))))))).

Definition generateCitations (env : Env) (reply : Exc string)
  (searchResults : list SearchResult) (citationStyle : string)
  : Exc (list Citation) :=
  Return (try_catch
    (bind reply (fun text =>
       match jsonMatch text with
       | Some matched =>
           bind (JSON_parse env matched) (fun citations =>
             match citations with
             | JArr items => mapMi (citationOf env searchResults) items
             | _ => Throw
             end)
       | None =>
           Return (generateFallbackCitations env searchResults citationStyle)
       end))
    (generateFallbackCitations env searchResults citationStyle)).

(** Elements kept by [typeof x === 'string' && x.trim().length > bound]. *)
Definition long_strings (bound : nat) (items : list JSValue) : list string :=
  omap (fun v => match v with
                 | JStr s => if (bound <? code_units (trim s))%nat
                             then Some s else None
                 | _ => None
                 end) items.

Definition extractInsights (env : Env) (reply : Exc string)
  (summary : string) : Exc (list string) :=
  Return (try_catch
    (bind reply (fun text =>
       match jsonMatch text with
       | Some matched =>
           bind (JSON_parse env matched) (fun insights =>
             match insights with
             | JArr items => Return (long_strings 10 items)
             | _ => Throw
             end)
       | None => Return (extractInsightsFromSummary summary)
       end))
    (extractInsightsFromSummary summary)).

Definition generateRelatedTopics (env : Env) (reply : Exc string)
  (query : string) : Exc (list string) :=
  Return (try_catch
    (bind reply (fun text =>
       match jsonMatch text with
       | Some matched =>
           bind (JSON_parse env matched) (fun topics =>
             match topics with
             | JArr items => Return (long_strings 5 items)
             | _ => Throw
             end)
       | None => Return (generateFallbackRelatedTopics query)
       end))
    (generateFallbackRelatedTopics query)).

(** *** Retry wrappers

    A wrapper runs [for (attempt = 1; attempt <= maxRetries; attempt++)].
    [stage attempt] is the outcome of the stage call made in iteration
    [attempt], [fallback] the outcome of the local fallback producer, which
    is evaluated when the last attempt has failed; the run returns the
    wrapper's outcome together with the calls and the timer waits it
    performed, in order. *)

Inductive Event : Type :=
| Call (attempt : nat)
| Sleep (milliseconds : Z).

Fixpoint retryFrom {A} (stage : nat -> Exc A) (fallback : Exc A)
  (maxRetries attempt remaining : nat) : Exc A * list Event :=
  match remaining with
  | O => (fallback, [])
  | S remaining' =>
      match stage attempt with
      | Return value => (Return value, [Call attempt])
      | Throw =>
          if (attempt =? maxRetries)%nat then (fallback, [Call attempt])
          else
            let '(value, events) :=
              retryFrom stage fallback maxRetries (S attempt) remaining' in
            (value, Call attempt :: Sleep (2 ^ Z.of_nat attempt * 1000) :: events)
      end
  end.

Definition withRetry {A} (stage : nat -> Exc A) (fallback : Exc A)
  (maxRetries : nat) : Exc A * list Event :=
  retryFrom stage fallback maxRetries 1 maxRetries.

Definition maxRetries_default : nat := 3.

Definition performWebSearchWithRetry
  (performWebSearch : nat -> Exc (list SearchResult))
  (w : World) (query : string) : Exc (list SearchResult) * list Event :=
  withRetry performWebSearch (getEnhancedFallbackResults w query)
            maxRetries_default.

Definition generateSummaryWithRetry (generateSummary : nat -> Exc string)
  (query : string) (searchResults : list SearchResult)
  : Exc string * list Event :=
  withRetry generateSummary
            (Return (generateFallbackSummary query searchResults))
            maxRetries_default.

Definition generateCitationsWithRetry
  (generateCitations : nat -> Exc (list Citation)) (env : Env)
  (searchResults : list SearchResult) (citationStyle : string)
  : Exc (list Citation) * list Event :=
  withRetry generateCitations
            (Return (generateFallbackCitations env searchResults
                       citationStyle))
            maxRetries_default.

Definition extractInsightsWithRetry
  (extractInsights : nat -> Exc (list string)) (summary : string)
  : Exc (list string) * list Event :=
  withRetry extractInsights (Return (extractInsightsFromSummary summary))
            maxRetries_default.

Definition generateRelatedTopicsWithRetry
  (generateRelatedTopics : nat -> Exc (list string)) (query : string)
  : Exc (list string) * list Event :=
  withRetry generateRelatedTopics
            (Return (generateFallbackRelatedTopics query))
            maxRetries_default.

End ResearchRoute.

(** ** The bibliographic works routes ([app/api/*/works/route]) *)

Module WorksRoutes.
Import JS.

(** [searchParams.get]: [None] is [null]. *)
Definition SearchParams : Type := string -> option string.

(** [param ? Math.min(maximum, Math.max(1, parseInt(param, 10) || 25)) : 25]. *)
Definition pageSize (maximum : Z) (param : option string) : Z :=
  match or_undefined param with
  | Some p =>
      let parsed :=
        match parseInt10 p with
        | Some n => if (n =? 0)%Z then 25%Z else n
        | None => 25%Z
        end in
      Z.min maximum (Z.max 1 parsed)
  | None => 25%Z
  end.

(** [param ? Math.max(0, parseInt(param, 10) || 0) : 0]. *)
Definition startOffset (param : option string) : Z :=
  match or_undefined param with
  | Some p =>
      Z.max 0 match parseInt10 p with
              | Some n => n
              | None => 0%Z
              end
  | None => 0%Z
  end.

(** What a route hands to the search service. *)
Record WorksRequest : Type := mkWorksRequest {
  q : string;
  cursor : option string;
  start : Z;
  size : Z;
  filter : option string;
  sortBy : option string;
  sortOrder : option string
}.

(** The response of a handler: 400 with an error text, 200 with the
    service's result as JSON, or 500 when the service throws. *)
Inductive RouteResponse (A : Type) : Type :=
| BadRequest (error : string)
| Json (result : A)
| ServerError.
Arguments BadRequest {A} error.
Arguments Json {A} result.
Arguments ServerError {A}.

(** [try { return NextResponse.json(await service(...)) } catch { 500 }].
    The methods of the search service that the handlers call
    ([openAlexWorksSearch], [crossrefWorks], [arxivWorks],
    [europePmcWorks]) are arguments of the handlers. *)
Definition respond {A} (service : WorksRequest -> Exc A)
  (request : WorksRequest) : RouteResponse A :=
  match service request with
  | Return result => Json result
  | Throw => ServerError
  end.

Definition query_of (searchParams : SearchParams) : string :=
  or_str (or_opt (searchParams "q") (searchParams "query")) "".

Definition missing_query (q : string) : bool :=
  negb (truthy q) || (code_units (trim q) =? 0)%nat.

Definition openalex_GET {A} (openAlexWorksSearch : WorksRequest -> Exc A)
  (searchParams : SearchParams) : RouteResponse A :=
  let q := query_of searchParams in
  if missing_query q then BadRequest "Missing query parameter q"
  else
    let perPageParam :=
      or_opt (searchParams "perPage") (searchParams "per-page") in
    respond openAlexWorksSearch
      {| q := q;
         cursor := or_undefined (searchParams "cursor");
         start := 0;
         size := pageSize 200 perPageParam;
         filter := or_undefined (searchParams "filter");
         sortBy := None;
         sortOrder := None |}.

Definition crossref_GET {A} (crossrefWorks : WorksRequest -> Exc A)
  (searchParams : SearchParams) : RouteResponse A :=
  let q := query_of searchParams in
  if missing_query q then BadRequest "Missing query parameter q"
  else
    let rowsParam :=
      or_undefined (or_opt (searchParams "rows") (searchParams "perPage")) in
    respond crossrefWorks
      {| q := q;
         cursor := or_undefined (searchParams "cursor");
         start := 0;
         size := pageSize 200 rowsParam;
         filter := or_undefined (searchParams "filter");
         sortBy := None;
         sortOrder := None |}.

Definition arxiv_GET {A} (arxivWorks : WorksRequest -> Exc A)
  (searchParams : SearchParams) : RouteResponse A :=
  let q := query_of searchParams in
  if missing_query q then BadRequest "Missing query parameter q"
  else
    let startParam :=
      or_opt (searchParams "start") (searchParams "cursor") in
    let maxResultsParam :=
      or_opt (searchParams "maxResults") (searchParams "perPage") in
    respond arxivWorks
      {| q := q;
         cursor := None;
         start := startOffset startParam;
         size := pageSize 200 maxResultsParam;
         filter := None;
         sortBy := or_undefined (searchParams "sortBy");
         sortOrder := or_undefined (searchParams "sortOrder") |}.

Definition europepmc_GET {A} (europePmcWorks : WorksRequest -> Exc A)
  (searchParams : SearchParams) : RouteResponse A :=
  let q := query_of searchParams in
  if missing_query q then BadRequest "Missing query parameter q"
  else
    let pageSizeParam :=
      or_opt (searchParams "pageSize") (searchParams "perPage") in
    respond europePmcWorks
      {| q := q;
         cursor := or_undefined (searchParams "cursor");
         start := 0;
         size := pageSize 100 pageSizeParam;
         filter := None;
         sortBy := None;
         sortOrder := None |}.

(** The provider clients bound the size once more before building the
    upstream URL: [Math.max(1, Math.min(size, maximum))], which is [NaN]
    for a size that is [NaN]. *)
Definition client_size (maximum : Z) (size : Number) : Number :=
  atLeast 1 (atMost maximum size).

End WorksRoutes.

(** ** The properties as the specification words them *)

Module Spec.
Import JS.

(** Composite-key deduplication: of every distinct (title, url) pair the
    output holds exactly the first occurrence. *)
Definition same_pair (t u : string) (r : SearchService.SearchResult) : bool :=
  String.eqb (SearchService.title r) t && String.eqb (SearchService.url r) u.

Definition keeps_first_of_each_pair
  (input output : list SearchService.SearchResult) : Prop :=
  forall t u,
    List.filter (same_pair t u) output
    = firstn 1 (List.filter (same_pair t u) input).

(** Results whose deduplication key is [k]. *)
Definition has_dedupKey (k : string) (r : SearchService.SearchResult) : bool :=
  String.eqb (SearchService.dedupKey r) k.

(** No two results of different (title, url) pairs share a key. *)
Definition collision_free (results : list SearchService.SearchResult) : Prop :=
  forall r1 r2,
    In r1 results -> In r2 results ->
    SearchService.dedupKey r1 = SearchService.dedupKey r2 ->
    SearchService.title r1 = SearchService.title r2
    /\ SearchService.url r1 = SearchService.url r2.

(** Every provider adapter comes back empty-handed for the request: its
    call failed, or it found nothing. *)
Definition no_provider_results (w : SearchService.World)
  (options : SearchService.SearchOptions) : Prop :=
  let q := SearchService.query options in
  (forall count,
      SearchService.searchWithLangSearch w q count
        (SearchService.freshness options) (SearchService.summary options)
      = Return [])
  /\ (forall count, SearchService.searchWithBrave w q count = Return [])
  /\ SearchService.searchWithDuckDuckGo w q = Return []
  /\ SearchService.searchWithWikipedia w q = Return []
  /\ SearchService.searchWithArXiv w q = Return []
  /\ SearchService.searchWithPubMed w q = Return [].

(** A candidate with its score replaced. *)
Definition with_score (r : SearchService.SearchResult) (s : Q)
  : SearchService.SearchResult :=
  {| SearchService.title := SearchService.title r;
     SearchService.url := SearchService.url r;
     SearchService.snippet := SearchService.snippet r;
     SearchService.domain := SearchService.domain r;
     SearchService.score := s;
     SearchService.published_date := SearchService.published_date r;
     SearchService.author := SearchService.author r |}.

(** An original candidate, up to its score. *)
Definition is_candidate (results : list SearchService.SearchResult)
  (r' : SearchService.SearchResult) : Prop :=
  exists r s, In r results /\ r' = with_score r s.

(** Reranking was skipped, or the reranker call failed in transport or
    returned a malformed payload. *)
Definition rerank_failed (w : SearchService.World) (query : string)
  (results : list SearchService.SearchResult) (topN : Z) : Prop :=
  let reply :=
    SearchService.fetch_rerank w query
      (SearchService.rerankDocuments results) topN in
  SearchService.has_key (SearchService.langSearchApiKey w) = false
  \/ results = []
  \/ reply = SearchService.Rejected
  \/ reply = SearchService.NotOk
  \/ exists data,
      reply = SearchService.Ok data
      /\ (SearchService.code_is_error (SearchService.rr_code data) = true
          \/ SearchService.rr_results data = None
          \/ exists items,
              SearchService.rr_results data = Some items /\ In None items).



(** The first balanced bracketed substring: from the first opening
    bracket to the closing bracket that matches it. *)
Fixpoint balanced_from (s : string) (depth : nat) : option string :=
  match s with
  | EmptyString => None
  | String c s' =>
      if Ascii.eqb c "[" then
        option_map (String c) (balanced_from s' (S depth))
      else if Ascii.eqb c "]" then
        match depth with
        | O => Some (String c EmptyString)
        | S d => option_map (String c) (balanced_from s' d)
        end
      else option_map (String c) (balanced_from s' depth)
  end.

Definition first_balanced (text : string) : option string :=
  match ResearchRoute.after_first_open text with
  | Some rest => option_map (String "[") (balanced_from rest 0)
  | None => None
  end.

(** Positions equal to [k]: the ties of the abstract's sort. *)
Definition at_pos (k : Z) (p : Normalizers.Position) : bool :=
  (Normalizers.pos p =? k)%Z.

(** The character [c] occurs in [s]. *)
Fixpoint occurs (c : ascii) (s : string) : bool :=
  match s with
  | EmptyString => false
  | String c' s' => Ascii.eqb c' c || occurs c s'
  end.

(** The text runs from its first opening bracket to its last closing
    bracket as [matched], with [before] in front and [after] behind. *)
Definition spans_brackets (text matched : string) : Prop :=
  exists before inner after,
    text = before +:+ "[" +:+ inner +:+ "]" +:+ after
    /\ matched = "[" +:+ inner +:+ "]"
    /\ occurs "[" before = false
    /\ occurs "]" after = false.

(** A field that is present: neither [undefined] nor [null]. *)
Definition is_defined (v : ResearchRoute.JSValue) : bool :=
  match v with
  | ResearchRoute.JUndefined | ResearchRoute.JNull => false
  | _ => true
  end.

(** All six fields of a citation are present; all but [formatted], whose
    default is the empty string, are also non-empty. *)
Definition populated (c : ResearchRoute.Citation) : Prop :=
  ResearchRoute.js_truthy (ResearchRoute.id c) = true
  /\ is_defined (ResearchRoute.formatted c) = true
  /\ ResearchRoute.js_truthy (ResearchRoute.inText c) = true
  /\ ResearchRoute.js_truthy (ResearchRoute.type c) = true
  /\ ResearchRoute.js_truthy (ResearchRoute.year c) = true
  /\ ResearchRoute.js_truthy (ResearchRoute.authors c) = true.

(** Clamping a number into [lo, hi]. *)
Definition clamp (lo hi n : Z) : Z := Z.max lo (Z.min n hi).





(** The page size that the amended rule gives for the text of a
    page-size parameter: the default 25 when the parameter is missing,
    empty, not numeric or zero, and otherwise its value clamped into
    [1, maximum]. *)
Definition page_size_rule (maximum : Z) (param : option string) : Z :=
  match param with
  | None => 25
  | Some p =>
      match parseInt10 p with
      | None => 25
      | Some n => if (n =? 0)%Z then 25 else clamp 1 maximum n
      end
  end.

(** The shape shared by the four works handlers: a missing query is the
    only request that is answered without calling the service; otherwise
    the service is called with a request whose size follows the rule for
    [param] and lies in [1, maximum], and the handler answers with the
    service's result, or with 500 when the service throws. *)
Definition bounded_route
  (route : forall A, (WorksRoutes.WorksRequest -> Exc A) ->
                     WorksRoutes.SearchParams -> WorksRoutes.RouteResponse A)
  (maximum : Z) (param : WorksRoutes.SearchParams -> option string) : Prop :=
  forall searchParams,
    if WorksRoutes.missing_query (WorksRoutes.query_of searchParams)
    then forall A service,
        route A service searchParams
        = WorksRoutes.BadRequest "Missing query parameter q"
    else exists request,
        (forall A service (result : A),
            service request = Return result ->
            route A service searchParams = WorksRoutes.Json result)
        /\ (forall A (service : WorksRoutes.WorksRequest -> Exc A),
               service request = Throw ->
               route A service searchParams = WorksRoutes.ServerError)
        /\ WorksRoutes.size request
           = page_size_rule maximum (param searchParams)
        /\ (1 <= WorksRoutes.size request <= maximum)%Z.

(** A DOI-based identifier. *)
Definition doi_id (d : string) : string := "https://doi.org/" +:+ d.

End Spec.

(** ** Concrete inputs used by the witnesses and counterexamples *)

Module Examples.
Import JS SearchService.

Definition bare (t u : string) : SearchResult :=
  {| title := t; url := u; snippet := ""; domain := ""; score := 1;
     published_date := None; author := None |}.

(** No credential is configured and no remote service can be reached. *)
Definition unreachable : World :=
  {| langSearchApiKey := None;
     braveApiKey := None;
     hostname := fun _ => Throw;
     now := "2025-01-01T00:00:00.000Z";
     currentYear := 2025;
     fetch_langsearch := fun _ _ _ _ => Rejected;
     fetch_brave := fun _ _ => Rejected;
     fetch_duckduckgo := fun _ => Rejected;
     fetch_wikipedia := fun _ => Rejected;
     fetch_arxiv := fun _ => Rejected;
     fetch_pubmed_ids := fun _ => Rejected;
     fetch_pubmed_summary := fun _ => Rejected;
     scrapeWebContent := fun _ => None;
     fetch_rerank := fun _ _ _ => Rejected |}.

(** A query that is one lone high surrogate, U+D800. *)
Definition lone_surrogate : string := bytes [237; 160; 128].

(** Two results of different (title, url) pairs with the same key. *)
Definition colliding : list SearchResult :=
  [ bare "Graphene-https://b.org/" "https://c.org/";
    bare "Graphene" "https://b.org/-https://c.org/" ].

(** A list with a repeated pair and no collision. *)
Definition repeated : list SearchResult :=
  [ bare "Graphene" "https://a.org/1"; bare "Batteries" "https://a.org/2";
    bare "Graphene" "https://a.org/1" ].

(** The query string [q=quantum&pageSize=...&maxResults=...&rows=...&perPage=...]
    with one value for every page-size parameter. *)
Definition works_query (n : string) : WorksRoutes.SearchParams :=
  fun name =>
    if String.eqb name "q" then Some "quantum"
    else if String.eqb name "pageSize" then Some n
    else if String.eqb name "maxResults" then Some n
    else if String.eqb name "rows" then Some n
    else if String.eqb name "perPage" then Some n
    else None.

(** The same article as OpenAlex, Crossref and Europe PMC report it. *)
Definition openalex_work : Normalizers.OpenAlexWork :=
  {| Normalizers.oa_id := Some "https://openalex.org/W2741809807";
     Normalizers.oa_doi := Some "https://doi.org/10.7717/peerj.4375";
     Normalizers.oa_display_name := Some "The state of OA";
     Normalizers.oa_title := Some "The state of OA";
     Normalizers.oa_abstract := None;
     Normalizers.oa_abstract_inverted_index := None;
     Normalizers.oa_landing_page_url := None;
     Normalizers.oa_oa_url := None |}.

Definition crossref_item : Normalizers.CrossrefItem :=
  {| Normalizers.cr_DOI := Some "10.7717/peerj.4375";
     Normalizers.cr_URL := Some "https://doi.org/10.7717/peerj.4375";
     Normalizers.cr_title := Normalizers.TitleArray ["The state of OA"];
     Normalizers.cr_abstract := None |}.

(** A Crossref record without DOI and URL. *)
Definition crossref_untracked : Normalizers.CrossrefItem :=
  {| Normalizers.cr_DOI := None;
     Normalizers.cr_URL := None;
     Normalizers.cr_title := Normalizers.TitleString "On graphene";
     Normalizers.cr_abstract := None |}.

Definition europepmc_item : Normalizers.EuropePmcItem :=
  {| Normalizers.ep_id := Some "29456894";
     Normalizers.ep_doi := Some "10.7717/peerj.4375";
     Normalizers.ep_title := Some "The state of OA";
     Normalizers.ep_source := Some "MED";
     Normalizers.ep_pageInfo := None;
     Normalizers.ep_abstractText := None |}.

Definition graphene : SearchOptions :=
  {| query := "graphene batteries"; numResults := 10;
     freshness := "noLimit"; summary := true |}.

(** A world whose only configured service is LangSearch, and whose reranker
    answers with one known id, one unknown id and one missing id. *)
Definition reranking : World :=
  {| langSearchApiKey := Some "key";
     braveApiKey := None;
     hostname := fun _ => Throw;
     now := "2025-01-01T00:00:00.000Z";
     currentYear := 2025;
     fetch_langsearch := fun _ _ _ _ => Rejected;
     fetch_brave := fun _ _ => Rejected;
     fetch_duckduckgo := fun _ => Rejected;
     fetch_wikipedia := fun _ => Rejected;
     fetch_arxiv := fun _ => Rejected;
     fetch_pubmed_ids := fun _ => Rejected;
     fetch_pubmed_summary := fun _ => Rejected;
     scrapeWebContent := fun _ => None;
     fetch_rerank := fun _ _ _ =>
       Ok {| rr_code := Some 200%Z;
             rr_results :=
               Some [ Some {| document_id := Some "1";
                              relevance_score := Some 0.9%Q |};
                      Some {| document_id := Some "7";
                              relevance_score := Some 0.5%Q |};
                      Some {| document_id := None;
                              relevance_score := None |} ] |} |}.

Definition candidates : list SearchResult :=
  [ bare "Graphene" "https://a.org/1"; bare "Batteries" "https://a.org/2" ].

(** A LangSearch key is set, but no request gets through. *)
Definition keyed_unreachable : World :=
  {| langSearchApiKey := Some "key";
     braveApiKey := None;
     hostname := fun _ => Throw;
     now := "2025-01-01T00:00:00.000Z";
     currentYear := 2025;
     fetch_langsearch := fun _ _ _ _ => Rejected;
     fetch_brave := fun _ _ => Rejected;
     fetch_duckduckgo := fun _ => Rejected;
     fetch_wikipedia := fun _ => Rejected;
     fetch_arxiv := fun _ => Rejected;
     fetch_pubmed_ids := fun _ => Rejected;
     fetch_pubmed_summary := fun _ => Rejected;
     scrapeWebContent := fun _ => None;
     fetch_rerank := fun _ _ _ => Rejected |}.


(** LangSearch answers with one page. *)
Definition langsearch_only : World :=
  {| langSearchApiKey := Some "key";
     braveApiKey := None;
     hostname := fun u =>
       if String.eqb u "https://example.org/graphene"
       then Return "example.org" else Throw;
     now := "2025-01-01T00:00:00.000Z";
     currentYear := 2025;
     fetch_langsearch := fun _ _ _ _ =>
       Ok {| ls_code := Some 200%Z;
             ls_webPages_value :=
               Some [ {| ls_name := Some "Graphene";
                         ls_title := None;
                         ls_url := Some "https://example.org/graphene";
                         ls_snippet := Some "About graphene.";
                         ls_content := None;
                         ls_datePublished := None;
                         ls_published_date := None |} ];
             ls_results := None |};
     fetch_brave := fun _ _ => Rejected;
     fetch_duckduckgo := fun _ => Rejected;
     fetch_wikipedia := fun _ => Rejected;
     fetch_arxiv := fun _ => Rejected;
     fetch_pubmed_ids := fun _ => Rejected;
     fetch_pubmed_summary := fun _ => Rejected;
     scrapeWebContent := fun _ => None;
     fetch_rerank := fun _ _ _ => Rejected |}.



(** A provider reply with prose around the array, and one whose prose
    mentions a bracketed reference after the array. *)
Definition wrapped_reply : string :=
  "Here are the citations: [{}, {}] I hope this helps.".

Definition reply_with_reference : string :=
  "Sources: [1, 2] (see note [3])".

Definition plain_env : ResearchRoute.Env :=
  {| ResearchRoute.world := unreachable;
     ResearchRoute.dateFullYear := fun _ => None;
     ResearchRoute.JSON_parse := fun s =>
       if String.eqb s "[{}, {}]"
       then Return (ResearchRoute.JArr [ResearchRoute.JObj [];
                                        ResearchRoute.JObj []])
       else Throw |}.

(** A stage that fails twice and then succeeds. *)
Definition third_time_lucky (attempt : nat) : Exc string :=
  if (attempt =? 3)%nat then Return "summary" else Throw.

End Examples.

(** ** Paged responses and the provider clients ([lib/normalizers],
    [lib/providers]) *)

Module Paging.
Import JS Normalizers.

Record PagedPapers : Type := mkPagedPapers {
  papers : list Paper;
  nextCursor : option string;
  totalCount : option Number
}.

(** [n || undefined] on a count. *)
Definition or_undefined_count (n : option Z) : option Z :=
  match n with
  | Some z => if (z =? 0)%Z then None else Some z
  | None => None
  end.

Record OpenAlexData : Type := mkOpenAlexData {
  oa_results : option (list OpenAlexWork);
  oa_meta_next_cursor : option string;
  oa_meta_count : option Z
}.

Definition normalizeOpenAlexResponse (data : OpenAlexData) : PagedPapers :=
  let results := match oa_results data with Some l => l | None => [] end in
  {| papers := map normalizeOpenAlexWork results;
     nextCursor := oa_meta_next_cursor data;
     totalCount := option_map Int (oa_meta_count data) |}.

Record CrossrefData : Type := mkCrossrefData {
  cr_items : option (list CrossrefItem);
  cr_next_cursor : option string;
  cr_total_results : option Z
}.

Definition normalizeCrossrefResponse (data : CrossrefData) : PagedPapers :=
  let items := match cr_items data with Some l => l | None => [] end in
  {| papers := map normalizeCrossrefItem items;
     nextCursor := or_undefined (cr_next_cursor data);
     totalCount := option_map Int (or_undefined_count (cr_total_results data)) |}.

Record EuropePmcData : Type := mkEuropePmcData {
  ep_result : option (list EuropePmcItem);
  ep_nextCursorMark : option string;
  ep_hitCount : option Z
}.

Definition normalizeEuropePmcResponse (data : EuropePmcData) : PagedPapers :=
  let items := match ep_result data with Some l => l | None => [] end in
  {| papers := map normalizeEuropePmcItem items;
     nextCursor := or_undefined (ep_nextCursorMark data);
     totalCount := option_map Int (or_undefined_count (ep_hitCount data)) |}.

Definition normalizeArxivResponse (entries : list ArxivEntry)
  (total : option Number) (start perPage : Number) : PagedPapers :=
  let papers := map normalizeArxivEntry entries in
  let nextCursor :=
    match total with
    | Some t =>
        if less (plus start (Int (Z.of_nat (length entries)))) t
        then Some (numberToString (plus start perPage))
        else None
    | None => None
    end in
  {| papers := papers; nextCursor := nextCursor; totalCount := total |}.

(** *** Clients

    The query string of the upstream request is the list of the
    [searchParams.set] calls, in order; the keys set by one client are
    pairwise different.  A client throws when the fetch is rejected and
    when the response is not OK. *)

Definition Query : Type := list (string * string).

Fixpoint param (name : string) (query : Query) : option string :=
  match query with
  | [] => None
  | (k, v) :: rest => if String.eqb k name then Some v else param name rest
  end.

(** [if (value) url.searchParams.set(name, value)]. *)
Definition set_if (name : string) (value : option string) : Query :=
  match or_undefined value with
  | Some v => [(name, v)]
  | None => []
  end.

Definition default_size (size : option Number) : Number :=
  match size with Some n => n | None => Int 25 end.

Record OpenAlexParams : Type := mkOpenAlexParams {
  oq_query : string;
  oq_cursor : option string;
  oq_perPage : option Number;
  oq_filter : option string
}.

Definition openalexQuery (mailto : option string) (params : OpenAlexParams)
  : Query :=
  [ ("search", oq_query params);
    ("per-page",
     numberToString
       (WorksRoutes.client_size 200 (default_size (oq_perPage params))));
    ("sort", "relevance_score:desc") ]
  ++ set_if "filter" (oq_filter params)
  ++ set_if "cursor" (oq_cursor params)
  ++ set_if "mailto" mailto.

Definition openalexWorksSearch
  (fetch : Query -> SearchService.Fetch OpenAlexData)
  (mailto : option string) (params : OpenAlexParams) : Exc PagedPapers :=
  match fetch (openalexQuery mailto params) with
  | SearchService.Rejected => Throw
  | SearchService.NotOk => Throw
  | SearchService.Ok data => Return (normalizeOpenAlexResponse data)
  end.

Record CrossrefParams : Type := mkCrossrefParams {
  cq_query : string;
  cq_cursor : option string;
  cq_rows : option Number;
  cq_filter : option string
}.

Definition crossrefQuery (mailto : option string) (params : CrossrefParams)
  : Query :=
  [ ("query", cq_query params);
    ("rows",
     numberToString
       (WorksRoutes.client_size 200 (default_size (cq_rows params)))) ]
  ++ set_if "filter" (cq_filter params)
  ++ [ ("cursor", or_str (cq_cursor params) "*") ]
  ++ set_if "mailto" mailto.

Definition crossrefWorksSearch
  (fetch : Query -> SearchService.Fetch CrossrefData)
  (mailto : option string) (params : CrossrefParams) : Exc PagedPapers :=
  match fetch (crossrefQuery mailto params) with
  | SearchService.Rejected => Throw
  | SearchService.NotOk => Throw
  | SearchService.Ok data => Return (normalizeCrossrefResponse data)
  end.

Record EuropePmcParams : Type := mkEuropePmcParams {
  eq_query : string;
  eq_cursor : option string;
  eq_pageSize : option Number;
  eq_resultType : option string
}.

Definition europePmcQuery (params : EuropePmcParams) : Query :=
  [ ("query", eq_query params);
    ("format", "json");
    ("pageSize",
     numberToString
       (WorksRoutes.client_size 100 (default_size (eq_pageSize params))));
    ("resultType",
     match eq_resultType params with Some t => t | None => "core" end);
    ("cursorMark", or_str (eq_cursor params) "*") ].

Definition europePmcSearch
  (fetch : Query -> SearchService.Fetch EuropePmcData)
  (params : EuropePmcParams) : Exc PagedPapers :=
  match fetch (europePmcQuery params) with
  | SearchService.Rejected => Throw
  | SearchService.NotOk => Throw
  | SearchService.Ok data => Return (normalizeEuropePmcResponse data)
  end.

Record ArxivParams : Type := mkArxivParams {
  aq_query : string;
  aq_start : option Number;
  aq_maxResults : option Number;
  aq_sortBy : option string;
  aq_sortOrder : option string
}.

Definition arxivQuery (params : ArxivParams) : Query :=
  let start := match aq_start params with Some n => n | None => Int 0 end in
  [ ("search_query", aq_query params);
    ("start", numberToString (atLeast 0 start));
    ("max_results",
     numberToString (WorksRoutes.client_size 200
                       (default_size (aq_maxResults params)))) ]
  ++ set_if "sortBy" (aq_sortBy params)
  ++ set_if "sortOrder" (aq_sortOrder params).

(** The feed is given as [parseArxivAtom] reads it: the entries and the
    total count, when the feed states one. *)
Definition arxivSearch
  (fetch : Query -> SearchService.Fetch (list ArxivEntry * option Number))
  (params : ArxivParams) : Exc PagedPapers :=
  let start := match aq_start params with Some n => n | None => Int 0 end in
  let maxResults := default_size (aq_maxResults params) in
  match fetch (arxivQuery params) with
  | SearchService.Rejected => Throw
  | SearchService.NotOk => Throw
  | SearchService.Ok (entries, total) =>
      Return (normalizeArxivResponse entries total start maxResults)
  end.

End Paging.

(** ** The research endpoint ([app/api/research/route]: [APIChecker],
    [POST]) *)

Module ResearchApi.
Import JS SearchService ResearchRoute.

(** The credentials of the process environment that the search service
    does not read itself; [LANGSEARCH_API_KEY] and [BRAVE_API_KEY] are the
    keys of the [World]. *)
Record ProcessEnv : Type := mkProcessEnv {
  GROQ_API_KEY : option string;
  GOOGLE_GENERATIVE_AI_API_KEY : option string;
  GOOGLE_SEARCH_API_KEY : option string;
  GOOGLE_SEARCH_CSE_ID : option string;
  OPENALEX_MAILTO : option string;
  OPENALEX_API_KEY : option string
}.

Inductive Api : Type :=
| groq | gemini | langSearch | brave | googleSearch | openAlex.

Record AvailableAPIs : Type := mkAvailableAPIs {
  has_groq : bool;
  has_gemini : bool;
  has_langSearch : bool;
  has_brave : bool;
  has_googleSearch : bool;
  has_openAlex : bool
}.

Definition checkAPIs (penv : ProcessEnv) (w : World) : AvailableAPIs :=
  {| has_groq := has_key (GROQ_API_KEY penv);
     has_gemini := has_key (GOOGLE_GENERATIVE_AI_API_KEY penv);
     has_langSearch := has_key (langSearchApiKey w);
     has_brave := has_key (braveApiKey w);
     has_googleSearch := has_key (GOOGLE_SEARCH_API_KEY penv)
                         && has_key (GOOGLE_SEARCH_CSE_ID penv);
     has_openAlex := has_key (OPENALEX_MAILTO penv)
                     || has_key (OPENALEX_API_KEY penv) |}.

Definition isAvailable (apis : AvailableAPIs) (api : Api) : bool :=
  match api with
  | groq => has_groq apis
  | gemini => has_gemini apis
  | langSearch => has_langSearch apis
  | brave => has_brave apis
  | googleSearch => has_googleSearch apis
  | openAlex => has_openAlex apis
  end.

Definition getAvailableAI (apis : AvailableAPIs) : option Api :=
  if has_groq apis then Some groq
  else if has_gemini apis then Some gemini
  else None.

Definition getAvailableSearch (apis : AvailableAPIs) : option Api :=
  if has_langSearch apis then Some langSearch
  else if has_brave apis then Some brave
  else if has_googleSearch apis then Some googleSearch
  else if has_openAlex apis then Some openAlex
  else None.

Definition api_name (api : Api) : string :=
  match api with
  | groq => "groq"
  | gemini => "gemini"
  | langSearch => "langSearch"
  | brave => "brave"
  | googleSearch => "googleSearch"
  | openAlex => "openAlex"
  end.

Record ResearchRequest : Type := mkResearchRequest {
  query : string;
  citationStyle : string;
  tone : string;
  databases : list string
}.

Record Source : Type := mkSource {
  src_title : string;
  src_url : string;
  src_snippet : string;
  src_relevance : Q;
  src_type : string;
  src_year : string;
  src_authors : list string
}.

Record Metadata : Type := mkMetadata {
  generatedAt : string;
  meta_citationStyle : string;
  meta_tone : string;
  sourceCount : nat;
  usedAI : string;
  usedSearch : string
}.

Record ResearchResult : Type := mkResearchResult {
  summary : string;
  sources : list Source;
  citations : list Citation;
  keyInsights : list string;
  relatedTopics : list string;
  metadata : Metadata
}.

Inductive Body : Type :=
| ErrorBody (error : string)
| ResultBody (result : ResearchResult).

Record Response : Type := mkResponse {
  status : nat;
  body : Body
}.

(** The replies of the text-generation provider to the prompt of each
    stage, by attempt. *)
Record Generation : Type := mkGeneration {
  summary_reply : nat -> Exc string;
  citations_reply : nat -> Exc string;
  insights_reply : nat -> Exc string;
  topics_reply : nat -> Exc string
}.

Definition sourceOf (env : Env) (source : SearchResult) : Source :=
  {| src_title := title source;
     src_url := url source;
     src_snippet := snippet source;
     src_relevance := score source;
     src_type := determineSourceType (domain source);
     src_year := extractYear env (published_date source);
     src_authors :=
       match or_undefined (author source) with
       | Some a => [a]
       | None => ["Unknown"]
       end |}.

(** [request_json] is the outcome of [request.json()], [errorMessage] the
    message of the error it throws. *)
Definition POST (env : Env) (penv : ProcessEnv) (gen : Generation)
  (request_json : Exc ResearchRequest) (errorMessage : string) : Response :=
  let w := world env in
  try_catch
    (bind request_json (fun request =>
       let query := query request in
       let citationStyle := citationStyle request in
       let apiChecker := checkAPIs penv w in
       match getAvailableAI apiChecker with
       | None =>
           Return {| status := 500;
                     body := ErrorBody "No AI models available. Please configure GROQ_API_KEY or GOOGLE_GENERATIVE_AI_API_KEY" |}
       | Some availableAI =>
           bind (fst (performWebSearchWithRetry
                        (fun _ => performWebSearch w query) w query))
             (fun searchResults =>
           bind (fst (generateSummaryWithRetry
                        (fun attempt =>
                           generateSummary (summary_reply gen attempt)
                             query searchResults)
                        query searchResults))
             (fun summary =>
           bind (fst (generateCitationsWithRetry
                        (fun attempt =>
                           generateCitations env (citations_reply gen attempt)
                             searchResults citationStyle)
                        env searchResults citationStyle))
             (fun citations =>
           bind (fst (extractInsightsWithRetry
                        (fun attempt =>
                           extractInsights env (insights_reply gen attempt)
                             summary)
                        summary))
             (fun keyInsights =>
           bind (fst (generateRelatedTopicsWithRetry
                        (fun attempt =>
                           generateRelatedTopics env (topics_reply gen attempt)
                             query)
                        query))
             (fun relatedTopics =>
           Return
             {| status := 200;
                body := ResultBody
                  {| summary := summary;
                     sources := map (sourceOf env) searchResults;
                     citations := citations;
                     keyInsights := keyInsights;
                     relatedTopics := relatedTopics;
                     metadata :=
                       {| generatedAt := now w;
                          meta_citationStyle := citationStyle;
                          meta_tone := tone request;
                          sourceCount := length searchResults;
                          usedAI := api_name availableAI;
                          usedSearch :=
                            match getAvailableSearch apiChecker with
                            | Some api => api_name api
                            | None => "fallback"
                            end |} |} |})))))
       end))
    {| status := 500;
       body := ErrorBody ("Research failed: " +:+ errorMessage) |}.

End ResearchApi.

(** ** Author lists of the normalizers ([lib/normalizers])

    The [authors] field of a [Paper], as each normalizer computes it. *)

Module Authors.
Import JS.

(** [s.split(c)] for a one-character separator; [current] holds the piece
    being read, reversed. *)
Fixpoint split_on_from (c : ascii) (s : string) (current : list ascii)
  : list string :=
  match s with
  | EmptyString => [string_of_list_ascii (rev current)]
  | String c' s' =>
      if Ascii.eqb c' c
      then string_of_list_ascii (rev current) :: split_on_from c s' []
      else split_on_from c s' (c' :: current)
  end.

Definition split_on (c : ascii) (s : string) : list string :=
  split_on_from c s [].

(** [Array.prototype.filter(Boolean)] on strings. *)
Definition filter_truthy (l : list string) : list string :=
  List.filter truthy l.

(** OpenAlex: [authorships.map(a => a?.author?.display_name)
    .filter(Boolean)], the authorships given by their display names. *)
Definition openAlexAuthors (authorships : option (list (option string)))
  : list string :=
  match authorships with
  | Some l => omap or_undefined l
  | None => []
  end.

(** Crossref: [[a.given, a.family].filter(Boolean).join(' ').trim()] for
    every author, then [filter(Boolean)]. *)
Definition crossrefAuthorName (a : option string * option string) : string :=
  trim (join " " (omap or_undefined [fst a; snd a])).

Definition crossrefAuthors
  (author : option (list (option string * option string))) : list string :=
  match author with
  | Some l => filter_truthy (map crossrefAuthorName l)
  | None => []
  end.

(** Europe PMC: [String(item.authorString).split(',').map(s => s.trim())
    .filter(Boolean)]. *)
Definition europePmcAuthors (authorString : option string) : list string :=
  match or_undefined authorString with
  | Some s => filter_truthy (map trim (split_on "," s))
  | None => []
  end.

End Authors.

(** ** Further predicates used by the properties *)

Module Props.
Import JS.

(** A concatenation of entries of [table]. *)
Inductive made_of (table : list string) : string -> Prop :=
| made_of_nil : made_of table ""
| made_of_cons (p s : string) :
    In p table -> made_of table s -> made_of table (p +:+ s).

(** The table is a code: no entry is empty, and an entry at the front of
    a text is the one that is dropped. *)
Definition is_code (table : list string) : Prop :=
  (forall p, In p table -> p <> EmptyString)
  /\ (forall p r, In p table -> drop_first table (p +:+ r) = Some r).

(** White space only, the empty text included. *)
Definition blank (s : string) : Prop := made_of white_space s.

(** A works handler answers 400 to a blank query, whatever the service;
    for any other query it calls the service with the query as given and
    answers with the service's result, or with 500 when the service
    throws. *)
Definition rejects_blank_only
  (route : forall A, (WorksRoutes.WorksRequest -> Exc A) ->
                     WorksRoutes.SearchParams -> WorksRoutes.RouteResponse A)
  (searchParams : WorksRoutes.SearchParams) : Prop :=
  (blank (WorksRoutes.query_of searchParams) ->
   forall A service,
     route A service searchParams
     = WorksRoutes.BadRequest "Missing query parameter q")
  /\ (~ blank (WorksRoutes.query_of searchParams) ->
      exists request,
        WorksRoutes.q request = WorksRoutes.query_of searchParams
        /\ (forall A service (result : A),
               service request = Return result ->
               route A service searchParams = WorksRoutes.Json result)
        /\ (forall A (service : WorksRoutes.WorksRequest -> Exc A),
               service request = Throw ->
               route A service searchParams = WorksRoutes.ServerError)).

(** Every character of the string satisfies [P]. *)
Definition every (P : ascii -> bool) (s : string) : bool :=
  forallb P (list_ascii_of_string s).

(** No white-space character at either end. *)
Definition trimmed (s : string) : Prop :=
  forall w rest, In w white_space ->
                 s <> w +:+ rest /\ s <> rest +:+ w.

(** The score lies in the closed interval. *)
Definition score_within (lo hi : Q) (r : SearchService.SearchResult) : Prop :=
  (lo <= SearchService.score r)%Q /\ (SearchService.score r <= hi)%Q.

(** Best score first. *)
Definition best_first (l : list SearchService.SearchResult) : Prop :=
  StronglySorted
    (fun a b => (SearchService.score b <= SearchService.score a)%Q) l.

(** A character that does not end a sentence. *)
Definition is_sentence_text (c : ascii) : bool := negb (is_sentence_end c).

(** The summary request for a PubMed id delivers an article. *)
Definition summarised (w : SearchService.World) (id : string) : bool :=
  match SearchService.fetch_pubmed_summary w id with
  | SearchService.Ok (Some _) => true
  | _ => false
  end.

(** The caller passes an integer, or nothing. *)
Definition integer_or_missing (n : option Number) : Prop := n <> Some NaN.

(** The request carries, under [name], the decimal text of a number
    between 1 and [maximum]. *)
Definition size_param (name : string) (maximum : Z) (request : Paging.Query)
  : Prop :=
  exists value n,
    Paging.param name request = Some value
    /\ parseInt10 value = Some n /\ (1 <= n <= maximum)%Z.

(** The words of a text with their positions, counted from [k]. *)
Fixpoint numbered (k : Z) (words : list string) : list Normalizers.Position :=
  match words with
  | [] => []
  | w :: rest =>
      {| Normalizers.pos := k; Normalizers.word := w |}
      :: numbered (k + 1) rest
  end.

(** The entries of an inverted index hold exactly the words of a text,
    each at the positions where it occurs. *)
Definition indexes (entries : list (string * list Z)) (words : list string)
  : Prop :=
  Permutation (Normalizers.collect_positions entries) (numbered 0 words).

(** Total time spent in timer waits, in milliseconds. *)
Fixpoint waited (events : list ResearchRoute.Event) : Z :=
  match events with
  | [] => 0
  | ResearchRoute.Sleep ms :: rest => ms + waited rest
  | ResearchRoute.Call _ :: rest => waited rest
  end.

(** A character other than [c]. *)
Definition other_than (c : ascii) (c' : ascii) : bool :=
  negb (Ascii.eqb c' c).

End Props.

(** ** Further scenarios *)

Module Scenarios.
Import JS SearchService.

(** A host name is known for the urls under [https://example.org/] only. *)
Definition example_host (u : string) : Exc string :=
  if String.prefix "https://example.org/" u then Return "example.org"
  else Throw.

(** Brave is the only service that answers. *)
Definition brave_world (payload : list BraveRaw) : World :=
  {| langSearchApiKey := None;
     braveApiKey := Some "key";
     hostname := example_host;
     now := "2025-01-01T00:00:00.000Z";
     currentYear := 2025;
     fetch_langsearch := fun _ _ _ _ => Rejected;
     fetch_brave := fun _ _ => Ok (Some payload);
     fetch_duckduckgo := fun _ => Rejected;
     fetch_wikipedia := fun _ => Rejected;
     fetch_arxiv := fun _ => Rejected;
     fetch_pubmed_ids := fun _ => Rejected;
     fetch_pubmed_summary := fun _ => Rejected;
     scrapeWebContent := fun _ => None;
     fetch_rerank := fun _ _ _ => Rejected |}.

Definition brave_page : list BraveRaw :=
  [ {| br_title := "Graphene"; br_url := "https://example.org/graphene";
       br_description := Some "About graphene."; br_age := None |};
    {| br_title := "Batteries"; br_url := "https://example.org/batteries";
       br_description := None; br_age := Some "2 days ago" |} ].

(** The second entry carries a relative url. *)
Definition brave_page_bad_url : list BraveRaw :=
  [ {| br_title := "Graphene"; br_url := "https://example.org/graphene";
       br_description := Some "About graphene."; br_age := None |};
    {| br_title := "Batteries"; br_url := "/batteries";
       br_description := None; br_age := None |} ].




(** The open sources answer: DuckDuckGo with an abstract and one related
    topic, PubMed with two ids of which the second cannot be summarised. *)
Definition open_world (topic_url : string) (second_summary : Fetch (option PubMedArticle))
  : World :=
  {| langSearchApiKey := None;
     braveApiKey := None;
     hostname := example_host;
     now := "2025-01-01T00:00:00.000Z";
     currentYear := 2025;
     fetch_langsearch := fun _ _ _ _ => Rejected;
     fetch_brave := fun _ _ => Rejected;
     fetch_duckduckgo := fun _ =>
       Ok {| AbstractText := Some "Graphene is an allotrope of carbon.";
             Heading := Some "Graphene";
             AbstractURL := Some "https://example.org/wiki/Graphene";
             AbstractSource := Some "Wikipedia";
             RelatedTopics :=
               Some [ {| FirstURL := Some topic_url;
                         Text := Some "Graphite - a form of carbon" |} ] |};
     fetch_wikipedia := fun _ =>
       Ok {| wk_title := Some "Graphene";
             wk_desktop_page := Some "https://example.org/wiki/Graphene";
             wk_extract := Some "Graphene is an allotrope of carbon." |};
     fetch_arxiv := fun _ =>
       Ok [ {| ax_title := Some "Graphene batteries";
               ax_summary := Some "We study graphene.";
               ax_id := Some "http://arxiv.org/abs/2401.00001v1";
               ax_published := None;
               ax_names := Some ["A. Author"; "B. Author"] |} ];
     fetch_pubmed_ids := fun _ => Ok (Some ["101"; "102"]);
     fetch_pubmed_summary := fun id =>
       if String.eqb id "101"
       then Ok (Some {| pm_title := Some "Graphene in medicine";
                        pm_abstract := None;
                        pm_pubdate := Some "2024 Jan";
                        pm_authors := None |})
       else second_summary;
     scrapeWebContent := fun _ => None;
     fetch_rerank := fun _ _ _ => Rejected |}.

(** A reply that is a JSON array of mixed elements, and a parser that
    reads this text and rejects every other.  [padded] is the word
    "Anodes" between two NO-BREAK SPACEs, [cyrillic] a word of six
    two-byte letters. *)
Definition padded : string :=
  bytes [194; 160] +:+ "Anodes" +:+ bytes [194; 160].

Definition cyrillic : string :=
  bytes [208; 179; 209; 128; 208; 176; 209; 132; 208; 181; 208; 189].

Definition quoted (s : string) : string := dquote +:+ s +:+ dquote.

(** Three sentences: thirteen Cyrillic characters, 38 characters between
    two NO-BREAK SPACEs, and five characters. *)
Definition mixed_summary : string :=
  cyrillic +:+ " " +:+ cyrillic +:+ ". "
  +:+ bytes [194; 160] +:+ "Graphene conducts heat and electricity"
  +:+ bytes [194; 160] +:+ "! Short.".

Definition listing : string :=
  "[" +:+ quoted "Graphene conducts heat and electricity" +:+ ", "
  +:+ quoted padded +:+ ", 3, " +:+ quoted cyrillic +:+ ", "
  +:+ quoted "Anodes and cathodes" +:+ "]".

Definition listing_env : ResearchRoute.Env :=
  {| ResearchRoute.world := Examples.unreachable;
     ResearchRoute.dateFullYear := fun _ => None;
     ResearchRoute.JSON_parse := fun text =>
       if String.eqb text listing
       then Return (ResearchRoute.JArr
                      [ ResearchRoute.JStr "Graphene conducts heat and electricity";
                        ResearchRoute.JStr padded;
                        ResearchRoute.JNum 3;
                        ResearchRoute.JStr cyrillic;
                        ResearchRoute.JStr "Anodes and cathodes" ])
       else Throw |}.

(** The index of [quick brown fox], keyed by word in alphabetical
    order. *)
Definition quick_brown_fox : list (string * list Z) :=
  [ ("brown", [1%Z]); ("fox", [2%Z]); ("quick", [0%Z]) ].

(** Crossref answers every request with one page and a cursor. *)
Definition crossref_fetch (_ : Paging.Query)
  : Fetch Paging.CrossrefData :=
  Ok {| Paging.cr_items := Some [Examples.crossref_item];
        Paging.cr_next_cursor := Some "AoJ/next";
        Paging.cr_total_results := Some 2%Z |}.

Definition crossref_first_page : Paging.CrossrefParams :=
  {| Paging.cq_query := "open access"; Paging.cq_cursor := None;
     Paging.cq_rows := Some (Int 500);
     Paging.cq_filter := Some "type:journal-article" |}.

Definition crossref_next_page (c : string) : Paging.CrossrefParams :=
  {| Paging.cq_query := "open access"; Paging.cq_cursor := Some c;
     Paging.cq_rows := Some (Int 500);
     Paging.cq_filter := Some "type:journal-article" |}.

(** The request of the second arXiv page, as the client of the first one
    builds it from the cursor it was given. *)
Definition arxiv_follow_up (c : string) : WorksRoutes.SearchParams :=
  fun name =>
    if String.eqb name "q" then Some "quantum"
    else if String.eqb name "cursor" then Some c
    else None.

Definition arxiv_entry (i : string) : Normalizers.ArxivEntry :=
  {| Normalizers.ax_id := i; Normalizers.ax_title := "On graphene";
     Normalizers.ax_summary := None |}.

Definition work_with_index : Normalizers.OpenAlexWork :=
  {| Normalizers.oa_id := Some "https://openalex.org/W1";
     Normalizers.oa_doi := Some "http://doi.org/10.1000/182";
     Normalizers.oa_display_name := Some "Quick brown fox";
     Normalizers.oa_title := None;
     Normalizers.oa_abstract := None;
     Normalizers.oa_abstract_inverted_index := Some quick_brown_fox;
     Normalizers.oa_landing_page_url := None;
     Normalizers.oa_oa_url := None |}.

Definition crossref_same_doi : Normalizers.CrossrefItem :=
  {| Normalizers.cr_DOI := Some "10.1000/182";
     Normalizers.cr_URL := None;
     Normalizers.cr_title := Normalizers.TitleAbsent;
     Normalizers.cr_abstract := None |}.

(** Only the Gemini key is configured; the generation provider fails on
    every call. *)
Definition gemini_only : ResearchApi.ProcessEnv :=
  {| ResearchApi.GROQ_API_KEY := None;
     ResearchApi.GOOGLE_GENERATIVE_AI_API_KEY := Some "key";
     ResearchApi.GOOGLE_SEARCH_API_KEY := None;
     ResearchApi.GOOGLE_SEARCH_CSE_ID := None;
     ResearchApi.OPENALEX_MAILTO := None;
     ResearchApi.OPENALEX_API_KEY := None |}.

Definition provider_down : ResearchApi.Generation :=
  {| ResearchApi.summary_reply := fun _ => Throw;
     ResearchApi.citations_reply := fun _ => Throw;
     ResearchApi.insights_reply := fun _ => Throw;
     ResearchApi.topics_reply := fun _ => Throw |}.

Definition graphene_request : ResearchApi.ResearchRequest :=
  {| ResearchApi.query := "graphene batteries";
     ResearchApi.citationStyle := "apa";
     ResearchApi.tone := "academic";
     ResearchApi.databases := [] |}.

(** The query string [q=%C2%A0%20&query=graphene]: [q] is a NO-BREAK
    SPACE and a space. *)
Definition blank_q : WorksRoutes.SearchParams :=
  fun name =>
    if String.eqb name "q" then Some (bytes [194; 160; 32])
    else if String.eqb name "query" then Some "graphene"
    else None.

End Scenarios.

(** * Properties *)

(** ** Deduplication *)

Section Deduplication.
Import SearchService Spec.

Lemma has_dedupKey_cases (k : string) (r : SearchResult) :
  (has_dedupKey k r = true /\ dedupKey r = k)
  \/ (has_dedupKey k r = false /\ dedupKey r <> k).
Proof.
  unfold has_dedupKey.
  destruct (String.eqb_spec (dedupKey r) k); [left|right]; done.
Qed.

Lemma removeDuplicates_from_filter (l : list SearchResult) :
  forall (seen : gset string) (k : string),
    List.filter (has_dedupKey k) (removeDuplicates_from seen l)
    = if decide (k ∈ seen) then []
      else firstn 1 (List.filter (has_dedupKey k) l).
Proof.
  induction l as [|r l IH]; intros seen k; simpl.
  - by destruct (decide (k ∈ seen)).
  - destruct (decide (dedupKey r ∈ seen)) as [Hin|Hout]; simpl;
      rewrite IH;
      destruct (has_dedupKey_cases k r) as [[-> Hk]|[-> Hk]];
      repeat case_decide; try done; set_solver.
Qed.

Lemma removeDuplicates_from_sublist (l : list SearchResult) :
  forall seen, sublist (removeDuplicates_from seen l) l.
Proof.
  induction l as [|r l IH]; intros seen; simpl.
  - constructor.
  - destruct (decide (dedupKey r ∈ seen)).
    + apply sublist_cons, IH.
    + apply sublist_skip, IH.
Qed.

Lemma removeDuplicates_from_fresh (l : list SearchResult) :
  forall seen r,
    r ∈ removeDuplicates_from seen l -> (dedupKey r ∉ seen) /\ (r ∈ l).
Proof.
  induction l as [|x l IH]; intros seen r; simpl.
  - intros H. by apply elem_of_nil in H.
  - destruct (decide (dedupKey x ∈ seen)) as [Hin|Hout].
    + intros H. destruct (IH _ _ H) as [? ?].
      split; [done|by apply list_elem_of_further].
    + intros H. apply elem_of_cons in H as [->|H].
      * split; [done|apply list_elem_of_here].
      * destruct (IH _ _ H) as [Hk ?].
        split; [set_solver|by apply list_elem_of_further].
Qed.

Lemma removeDuplicates_from_NoDup (l : list SearchResult) :
  forall seen, NoDup (map dedupKey (removeDuplicates_from seen l)).
Proof.
  induction l as [|x l IH]; intros seen; simpl.
  - constructor.
  - destruct (decide (dedupKey x ∈ seen)); [apply IH|].
    simpl. apply NoDup_cons_2; [|apply IH].
    intros H. apply list_elem_of_fmap in H as (r & Hk & Hr).
    apply removeDuplicates_from_fresh in Hr as [Hfresh _].
    set_solver.
Qed.

Lemma removeDuplicates_from_fixed (l : list SearchResult) :
  forall seen,
    NoDup (map dedupKey l) ->
    (forall r, r ∈ l -> dedupKey r ∉ seen) ->
    removeDuplicates_from seen l = l.
Proof.
  induction l as [|x l IH]; intros seen Hnd Hfresh; simpl; [done|].
  simpl in Hnd. apply NoDup_cons in Hnd as [Hx Hnd].
  rewrite decide_False by (apply Hfresh, list_elem_of_here).
  f_equal. apply IH; [done|].
  intros r Hr.
  pose proof (Hfresh r (list_elem_of_further _ _ _ Hr)) as Hseen.
  assert (dedupKey r <> dedupKey x) as Hne.
  { intros Heq. apply Hx. rewrite <- Heq.
    by apply (list_elem_of_fmap_2 dedupKey). }
  set_solver.
Qed.

Lemma filter_none {A} (f : A -> bool) (l : list A) :
  (forall a, In a l -> f a = false) -> List.filter f l = [].
Proof.
  induction l as [|a l IH]; intros Hf; simpl; [done|].
  rewrite (Hf a) by (by left). apply IH. intros b Hb. apply Hf. by right.
Qed.

Lemma removeDuplicates_In (results : list SearchResult) (r : SearchResult) :
  In r (removeDuplicates results) -> In r results.
Proof.
  intros H. apply list_elem_of_In.
  apply list_elem_of_In in H.
  by apply removeDuplicates_from_fresh in H as [_ ?].
Qed.

(** C9 (as amended): deduplication keeps, in input order, exactly the first
    result of every distinct key string [title-url]; consequently no
    (title, url) pair survives twice, and on inputs where different pairs
    never concatenate to the same key it keeps exactly the first occurrence
    of every pair; it is idempotent. *)
Theorem C9_removeDuplicates_first_per_key (results : list SearchResult) :
  sublist (removeDuplicates results) results
  /\ (forall k,
        List.filter (has_dedupKey k) (removeDuplicates results)
        = firstn 1 (List.filter (has_dedupKey k) results))
  /\ NoDup (map (fun r => (title r, url r)) (removeDuplicates results))
  /\ (collision_free results ->
      keeps_first_of_each_pair results (removeDuplicates results))
  /\ removeDuplicates (removeDuplicates results) = removeDuplicates results.
Proof.
  unfold removeDuplicates. repeat split.
  - apply removeDuplicates_from_sublist.
  - intros k. rewrite removeDuplicates_from_filter.
    by rewrite decide_False by set_solver.
  - pose proof (removeDuplicates_from_NoDup results ∅) as Hnd.
    revert Hnd. generalize (removeDuplicates_from ∅ results) as out.
    induction out as [|x out IH]; simpl; intros Hnd; [constructor|].
    apply NoDup_cons in Hnd as [Hx Hnd].
    apply NoDup_cons_2; [|by apply IH].
    intros Hin. apply Hx.
    apply list_elem_of_fmap in Hin as (y & Heq & Hy).
    apply list_elem_of_fmap. exists y. split; [|done].
    injection Heq as Ht Hu. unfold dedupKey. by rewrite Ht, Hu.
  - intros Hfree t u.
    destruct (existsb (same_pair t u) results) eqn:Hex.
    + apply existsb_exists in Hex as (r0 & Hr0 & Hp0).
      unfold same_pair in Hp0. apply andb_true_iff in Hp0 as [Ht Hu].
      apply String.eqb_eq in Ht, Hu.
      assert (forall r, In r results ->
                same_pair t u r = has_dedupKey (dedupKey r0) r) as Hsame.
      { intros r Hr. unfold same_pair, has_dedupKey.
        destruct (String.eqb_spec (dedupKey r) (dedupKey r0)) as [Hk|Hk].
        - destruct (Hfree r r0 Hr Hr0 Hk) as [-> ->].
          rewrite Ht, Hu. by rewrite !String.eqb_refl.
        - destruct (String.eqb_spec (title r) t) as [Ht'|]; [|done].
          destruct (String.eqb_spec (url r) u) as [Hu'|]; [|done].
          exfalso. apply Hk. unfold dedupKey. congruence. }
      rewrite (filter_ext_in _ _ _ Hsame).
      rewrite (filter_ext_in (same_pair t u) (has_dedupKey (dedupKey r0))).
      * rewrite removeDuplicates_from_filter.
        by rewrite decide_False by set_solver.
      * intros r Hr. apply Hsame. by apply removeDuplicates_In.
    + assert (forall r, In r results -> same_pair t u r = false) as Hnone.
      { intros r Hr. destruct (same_pair t u r) eqn:E; [|done].
        assert (existsb (same_pair t u) results = true) as Habs
          by (apply existsb_exists; eauto).
        congruence. }
      rewrite !filter_none; try done.
      intros r Hr. apply Hnone. by apply removeDuplicates_In.
  - apply removeDuplicates_from_fixed.
    + apply removeDuplicates_from_NoDup.
    + intros r _. set_solver.
Qed.

(** A list with a repeated pair and no colliding keys. *)
Lemma C9_removeDuplicates_witness :
  collision_free Examples.repeated
  /\ keeps_first_of_each_pair Examples.repeated
       (removeDuplicates Examples.repeated).
Proof.
  assert (collision_free Examples.repeated) as Hfree.
  { intros r1 r2 H1 H2.
    simpl in H1, H2.
    destruct H1 as [<-|[<-|[<-|[]]]]; destruct H2 as [<-|[<-|[<-|[]]]];
      vm_compute; intros Hk; try discriminate Hk; split; reflexivity. }
  split; [exact Hfree|].
  exact (proj1 (proj2 (proj2 (proj2
           (C9_removeDuplicates_first_per_key Examples.repeated)))) Hfree).
Defined.

(** C9 (as stated) fails: two results of different (title, url) pairs whose
    concatenations coincide are merged, so the second pair loses its first
    occurrence. *)
Lemma C9_distinct_pairs_merged :
  ~ keeps_first_of_each_pair Examples.colliding
      (removeDuplicates Examples.colliding).
Proof.
  intros H. specialize (H "Graphene" "https://b.org/-https://c.org/").
  vm_compute in H. discriminate H.
Qed.

End Deduplication.

(** ** Sorting and abstract reconstruction *)

Section Sorting.
Import JS.
Context {A : Type} (le : A -> A -> bool).

Lemma insert_sorted_Permutation (x : A) (l : list A) :
  Permutation (insert_sorted le x l) (x :: l).
Proof.
  induction l as [|y ys IH]; simpl; [done|].
  destruct (le x y); [done|].
  rewrite IH. apply perm_swap.
Qed.

Lemma sort_Permutation (l : list A) : Permutation (sort le l) l.
Proof.
  induction l as [|x xs IH]; simpl; [done|].
  rewrite insert_sorted_Permutation. by constructor.
Qed.

Lemma sort_In (l : list A) (a : A) : In a (sort le l) <-> In a l.
Proof.
  split; apply Permutation_in;
    [apply sort_Permutation | symmetry; apply sort_Permutation].
Qed.

Hypothesis le_total : forall a b, le a b = true \/ le b a = true.
Hypothesis le_trans :
  forall a b c, le a b = true -> le b c = true -> le a c = true.

Lemma insert_sorted_StronglySorted (x : A) (l : list A) :
  StronglySorted (fun a b => le a b = true) l ->
  StronglySorted (fun a b => le a b = true) (insert_sorted le x l).
Proof.
  induction l as [|y ys IH]; simpl; intros Hs.
  - repeat constructor.
  - apply StronglySorted_inv in Hs as [Hys Hy].
    destruct (le x y) eqn:Hxy.
    + constructor; [by constructor|].
      constructor; [done|].
      eapply Forall_impl; [exact Hy|]. intros a Ha. by eapply le_trans.
    + constructor; [by apply IH|].
      assert (le y x = true) as Hyx
        by (destruct (le_total x y); [congruence|done]).
      rewrite List.Forall_forall. intros a Ha.
      apply (Permutation_in _ (insert_sorted_Permutation x ys)) in Ha.
      destruct Ha as [<-|Ha]; [done|].
      by apply (proj1 (List.Forall_forall _ _) Hy).
Qed.

Lemma sort_StronglySorted (l : list A) :
  StronglySorted (fun a b => le a b = true) (sort le l).
Proof.
  induction l as [|x xs IH]; simpl; [constructor|].
  by apply insert_sorted_StronglySorted.
Qed.

End Sorting.

Section Reconstruction.
Import JS Normalizers Spec.

Lemma StronglySorted_weaken {A} (R S : A -> A -> Prop) (l : list A) :
  (forall a b, R a b -> S a b) -> StronglySorted R l -> StronglySorted S l.
Proof.
  intros HRS. induction 1 as [|a l Hl IH Ha]; constructor; [done|].
  eapply Forall_impl; [exact Ha|]. intros b. apply HRS.
Qed.

Lemma by_pos_le (a b : Position) : by_pos a b = true <-> (pos a <= pos b)%Z.
Proof. unfold by_pos. rewrite Z.leb_le. lia. Qed.

Lemma insert_sorted_stable (k : Z) (x : Position) (l : list Position) :
  List.filter (at_pos k) (insert_sorted by_pos x l)
  = List.filter (at_pos k) (x :: l).
Proof.
  induction l as [|y ys IH]; [done|].
  cbn [insert_sorted].
  destruct (by_pos x y) eqn:Hxy; [done|].
  cbn [List.filter] in *. rewrite IH.
  assert (pos y < pos x)%Z as Hlt.
  { destruct (Z.lt_ge_cases (pos y) (pos x)) as [|Hge]; [done|].
    apply by_pos_le in Hge. congruence. }
  unfold at_pos.
  destruct (Z.eqb_spec (pos x) k), (Z.eqb_spec (pos y) k); try done; lia.
Qed.

Lemma sort_stable (k : Z) (l : list Position) :
  List.filter (at_pos k) (sort by_pos l) = List.filter (at_pos k) l.
Proof.
  induction l as [|x xs IH]; [done|].
  cbn [sort]. rewrite insert_sorted_stable.
  cbn [List.filter]. by rewrite IH.
Qed.

Lemma collect_positions_In (entries : list (string * list Z))
  (p : Z) (w : string) :
  In {| pos := p; word := w |} (collect_positions entries)
  <-> exists inds, In (w, inds) entries /\ In p inds.
Proof.
  unfold collect_positions. rewrite in_flat_map. split.
  - intros ([w' inds] & Hentry & Hin). simpl in Hin.
    apply in_map_iff in Hin as (p' & Heq & Hp').
    injection Heq as -> ->. eauto.
  - intros (inds & Hentry & Hp). exists (w, inds). split; [done|].
    simpl. apply in_map_iff. eauto.
Qed.

(** [Array.prototype.join] is the concatenation with a separator of the
    standard library: the words, in order, with one separator between two
    neighbours and none at the ends. *)
Lemma join_concat (sep : string) (l : list string) :
  join sep l = String.concat sep l.
Proof.
  induction l as [|x [|y l] IH]; [done|done|].
  change (join sep (x :: y :: l)) with (x +:+ sep +:+ join sep (y :: l)).
  by rewrite IH.
Qed.

(** C8: reconstruction collects every (position, word) pair of the index,
    orders the pairs by ascending position with a stable sort, and joins
    the words with single spaces: the result is the words of the ordered
    pairs, in that order, with one space between two neighbours and none
    before the first or behind the last.  The index of the specification's
    example reconstructs to "quick brown A". *)
Theorem C8_reconstructAbstract (entries : list (string * list Z)) :
  (exists positions,
      reconstructAbstractFromInvertedIndex (Some entries)
      = Some (String.concat " " (map word positions))
      /\ Permutation positions (collect_positions entries)
      /\ StronglySorted (fun a b => (pos a <= pos b)%Z) positions
      /\ (forall k, List.filter (at_pos k) positions
                    = List.filter (at_pos k) (collect_positions entries)))
  /\ (forall p w,
         In {| pos := p; word := w |} (collect_positions entries)
         <-> exists inds, In (w, inds) entries /\ In p inds)
  /\ (forall a b c,
         reconstructAbstractFromInvertedIndex
           (Some [(a, [0%Z]); (b, [1%Z]); (c, [2%Z])])
         = Some (a +:+ " " +:+ b +:+ " " +:+ c))
  /\ reconstructAbstractFromInvertedIndex (Some []) = Some ""
  /\ reconstructAbstractFromInvertedIndex
       (Some [("A", [2%Z]); ("quick", [0%Z]); ("brown", [1%Z])])
     = Some "quick brown A".
Proof.
  split_and!.
  - exists (sort by_pos (collect_positions entries)).
    split.
    { unfold reconstructAbstractFromInvertedIndex.
      by rewrite join_concat. }
    split; [apply sort_Permutation|]. split.
    + eapply StronglySorted_weaken; [|apply sort_StronglySorted].
      * intros a b H. apply by_pos_le. exact H.
      * intros a b. rewrite !by_pos_le. lia.
      * intros a b c. rewrite !by_pos_le. lia.
    + intros k. apply sort_stable.
  - apply collect_positions_In.
  - done.
  - done.
  - done.
Qed.

End Reconstruction.

(** ** Retry wrappers *)

Section Retry.
Import JS ResearchRoute Spec.
Context {A : Type} (stage : nat -> Exc A) (fallback : Exc A)
  (maxRetries : nat).





End Retry.

Section RetryWrappers.
Import JS ResearchRoute Spec.





(** The stage functions of the route absorb their own failures, so a
    wrapper around them returns after its first call. *)
Lemma generateSummary_first_attempt (reply : nat -> Exc string)
  (query : string) (searchResults : list SearchService.SearchResult) :
  generateSummaryWithRetry
    (fun attempt => generateSummary (reply attempt) query searchResults)
    query searchResults
  = (Return (try_catch (reply 1%nat)
               (generateFallbackSummary query searchResults)),
     [Call 1]).
Proof. reflexivity. Qed.


End RetryWrappers.

(** ** Indices as strings *)

Section IndexStrings.
Import JS.

Lemma to_uint_nonnil (n : nat) : Nat.to_uint n <> Decimal.Nil.
Proof.
  pose proof (Unsigned.to_of (Nat.to_uint n)) as H.
  rewrite Unsigned.of_to in H. rewrite H. apply unorm_nonnil.
Qed.

Lemma read_digits_step (c : ascii) (s : string) (k acc : nat) (seen : bool) :
  digit_value 10 c = Some k ->
  read_digits 10 (String c s) acc seen = read_digits 10 s (acc * 10 + k) true.
Proof. intros H. cbn [read_digits]. by rewrite H. Qed.

Lemma read_digits_uint (d : Decimal.uint) :
  forall acc seen,
    seen = true \/ d <> Decimal.Nil ->
    read_digits 10 (NilEmpty.string_of_uint d) acc seen
    = Some (Nat.of_uint_acc d acc).
Proof.
  induction d as [|d IH|d IH|d IH|d IH|d IH|d IH|d IH|d IH|d IH|d IH];
    intros acc seen Hseen;
    [ destruct Hseen as [->|Hnil]; [reflexivity|congruence]
    | cbn [NilEmpty.string_of_uint Nat.of_uint_acc];
      erewrite read_digits_step by reflexivity;
      rewrite IH by (by left); rewrite Nat.tail_mul_spec;
      do 2 f_equal;
      match goal with |- (_ + ?k)%nat = _ =>
        let k' := eval vm_compute in k in change k with k' end;
      lia .. ].
Qed.

Lemma uint_string_plain (d : Decimal.uint) :
  skip_white_space (NilEmpty.string_of_uint d) = NilEmpty.string_of_uint d
  /\ strip_sign (NilEmpty.string_of_uint d)
     = (1%Z, NilEmpty.string_of_uint d).
Proof. destruct d; split; reflexivity. Qed.

Lemma uint_string_not_hex (d : Decimal.uint) :
  radix_prefix (NilEmpty.string_of_uint d)
  = (10%nat, NilEmpty.string_of_uint d).
Proof.
  destruct d as [|d|d|d|d|d|d|d|d|d|d]; try reflexivity.
  destruct d; reflexivity.
Qed.

(** [parseInt] reads back the index that [toString] printed. *)
Lemma parseInt_toString (n : nat) : parseInt (toString n) = Some (Z.of_nat n).
Proof.
  unfold parseInt, toString.
  destruct (uint_string_plain (Nat.to_uint n)) as [-> ->].
  rewrite uint_string_not_hex.
  rewrite read_digits_uint by (right; apply to_uint_nonnil).
  change (Nat.of_uint_acc (Nat.to_uint n) 0) with (Nat.of_uint (Nat.to_uint n)).
  rewrite Unsigned.of_to. f_equal. lia.
Qed.

Lemma parseInt10_toString (n : nat) :
  parseInt10 (toString n) = Some (Z.of_nat n).
Proof.
  unfold parseInt10, toString.
  destruct (uint_string_plain (Nat.to_uint n)) as [-> ->].
  rewrite read_digits_uint by (right; apply to_uint_nonnil).
  change (Nat.of_uint_acc (Nat.to_uint n) 0) with (Nat.of_uint (Nat.to_uint n)).
  rewrite Unsigned.of_to. f_equal. lia.
Qed.

Lemma skip_white_space_minus (s : string) :
  skip_white_space (String "-" s) = String "-" s.
Proof. reflexivity. Qed.

(** [parseInt] reads back the integer that [String] printed. *)
Lemma parseInt10_toStringZ (z : Z) : parseInt10 (toStringZ z) = Some z.
Proof.
  unfold toStringZ. destruct (Z.ltb_spec z 0) as [Hneg|Hpos].
  - unfold parseInt10.
    change ("-" +:+ toString (Z.to_nat (- z)))
      with (String "-" (toString (Z.to_nat (- z)))).
    rewrite skip_white_space_minus. cbn [strip_sign]. unfold toString.
    rewrite read_digits_uint by (right; apply to_uint_nonnil).
    change (Nat.of_uint_acc (Nat.to_uint (Z.to_nat (- z))) 0)
      with (Nat.of_uint (Nat.to_uint (Z.to_nat (- z)))).
    rewrite Unsigned.of_to. f_equal. lia.
  - rewrite parseInt10_toString. f_equal. lia.
Qed.

End IndexStrings.

(** ** Page-size parameters of the works routes *)

Section PageSize.
Import JS WorksRoutes Spec.

Lemma parseInt10_truthy (p : string) (n : Z) :
  parseInt10 p = Some n -> or_undefined (Some p) = Some p.
Proof. destruct p; [discriminate|reflexivity]. Qed.

Lemma pageSize_rule (maximum : Z) (param : option string) :
  (25 <= maximum)%Z ->
  pageSize maximum param = page_size_rule maximum param.
Proof.
  intros Hmax. unfold pageSize, page_size_rule, clamp.
  destruct param as [[|c p]|]; [reflexivity| |reflexivity].
  cbn [or_undefined or_opt truthy].
  destruct (parseInt10 (String c p)) as [n|]; [|lia].
  destruct (n =? 0)%Z; lia.
Qed.

Lemma pageSize_range (maximum : Z) (param : option string) :
  (25 <= maximum)%Z -> (1 <= pageSize maximum param <= maximum)%Z.
Proof.
  intros Hmax. unfold pageSize.
  destruct (or_undefined param) as [p|]; [|lia].
  destruct (parseInt10 p) as [n|]; [destruct (n =? 0)%Z|]; lia.
Qed.

Lemma pageSize_numeric (maximum : Z) (p : string) (n : Z) :
  (1 <= maximum)%Z -> parseInt10 p = Some n -> n <> 0%Z ->
  pageSize maximum (Some p) = clamp 1 maximum n.
Proof.
  intros Hmax Hp Hn. unfold pageSize, clamp.
  rewrite (parseInt10_truthy p n Hp), Hp.
  destruct (Z.eqb_spec n 0); lia.
Qed.

Lemma pageSize_default (maximum : Z) (param : option string) :
  (25 <= maximum)%Z ->
  param = None
  \/ (exists p, param = Some p
                /\ (parseInt10 p = None \/ parseInt10 p = Some 0%Z)) ->
  pageSize maximum param = 25%Z.
Proof.
  intros Hmax Hparam. rewrite pageSize_rule by done. unfold page_size_rule.
  destruct Hparam as [->|(p & -> & [-> | ->])]; reflexivity.
Qed.

(** The second bound applied by the provider clients is the plain clamp
    and leaves a size forwarded by a route unchanged. *)
Lemma client_size_clamp (maximum size : Z) :
  client_size maximum (Int size) = Int (clamp 1 maximum size).
Proof. reflexivity. Qed.

Lemma client_size_of_pageSize (maximum : Z) (param : option string) :
  (25 <= maximum)%Z ->
  client_size maximum (Int (pageSize maximum param))
  = Int (pageSize maximum param).
Proof.
  intros Hmax. pose proof (pageSize_range maximum param Hmax).
  unfold client_size, atLeast, atMost. f_equal. lia.
Qed.

Lemma respond_Json {A} (service : WorksRequest -> Exc A)
  (request : WorksRequest) (result : A) :
  service request = Return result -> respond service request = Json result.
Proof. unfold respond. by intros ->. Qed.

Lemma respond_ServerError {A} (service : WorksRequest -> Exc A)
  (request : WorksRequest) :
  service request = Throw -> respond service request = ServerError.
Proof. unfold respond. by intros ->. Qed.

(** C10 (as amended): no works route rejects a page-size parameter: a
    request with a query is handed to the service whatever the parameter
    is, and the handler answers with the service's result, or with 500
    only when the service throws; the size handed over always lies in
    [1, maximum] (200 for OpenAlex, Crossref and arXiv, 100 for Europe
    PMC); a parameter that parses to a non-zero integer is clamped into
    that range, so 300 becomes the maximum and a negative value 1; a
    parameter that parses to 0, like a missing, empty or non-numeric one,
    selects the default 25. *)
Theorem C10_page_size_bounded :
  bounded_route (@openalex_GET) 200
    (fun sp => or_opt (sp "perPage") (sp "per-page"))
  /\ bounded_route (@crossref_GET) 200
       (fun sp => or_undefined (or_opt (sp "rows") (sp "perPage")))
  /\ bounded_route (@arxiv_GET) 200
       (fun sp => or_opt (sp "maxResults") (sp "perPage"))
  /\ bounded_route (@europepmc_GET) 100
       (fun sp => or_opt (sp "pageSize") (sp "perPage"))
  /\ (forall maximum n,
        (25 <= maximum)%Z -> n <> 0%Z ->
        pageSize maximum (Some (toStringZ n)) = clamp 1 maximum n)
  /\ (forall maximum p n,
        (25 <= maximum)%Z -> parseInt10 p = Some n -> n <> 0%Z ->
        pageSize maximum (Some p) = clamp 1 maximum n)
  /\ (forall maximum p,
        (25 <= maximum)%Z ->
        parseInt10 p = Some 0%Z \/ parseInt10 p = None ->
        pageSize maximum (Some p) = 25%Z)
  /\ (forall maximum, (25 <= maximum)%Z -> pageSize maximum None = 25%Z)
  /\ pageSize 200 (Some "300") = 200%Z
  /\ pageSize 100 (Some "300") = 100%Z
  /\ pageSize 200 (Some "-7") = 1%Z
  /\ clamp 1 200 300 = 200%Z /\ clamp 1 100 300 = 100%Z
  /\ clamp 1 200 (-7) = 1%Z.
Proof.
  split_and!; try reflexivity.
  1-4: intros sp;
    unfold openalex_GET, crossref_GET, arxiv_GET, europepmc_GET;
    (destruct (missing_query (query_of sp)); [reflexivity|]);
    eexists; (split; [intros A service result; apply respond_Json|]);
    (split; [intros A service; apply respond_ServerError|]);
    cbn [size]; (split; [apply pageSize_rule; lia|apply pageSize_range; lia]).
  - intros maximum n Hmax Hn.
    apply pageSize_numeric; [lia|apply parseInt10_toStringZ|done].
  - intros maximum p n Hmax Hp Hn. apply pageSize_numeric; [lia|done|done].
  - intros maximum p Hmax Hp. apply pageSize_default; [done|].
    right. exists p. split; [done|]. by destruct Hp; [right|left].
Qed.

(** Page size 300 on the Europe PMC route: the service is called with
    size 100 and its page is the answer. *)
Lemma C10_page_size_witness :
  exists request,
    (forall A service (result : A),
        service request = Return result ->
        europepmc_GET service (Examples.works_query "300") = Json result)
    /\ size request = 100%Z.
Proof.
  pose proof (proj1 (proj2 (proj2 (proj2 C10_page_size_bounded)))
                (Examples.works_query "300")) as Hroute.
  change (missing_query (query_of (Examples.works_query "300")))
    with false in Hroute.
  destruct Hroute as (request & Hjson & _ & Hsize & _).
  exists request. split; [exact Hjson|]. rewrite Hsize. reflexivity.
Defined.

(** C10 (as stated) fails: the numeric page size 0 is not clamped to the
    lower bound 1; the route hands the default 25 to the service.  And a
    request with page size 300 is answered with 500 when the service
    throws. *)
Lemma C10_zero_not_clamped :
  parseInt10 "0" = Some 0%Z
  /\ (forall A (service : WorksRequest -> Exc A) (result : A),
        service {| q := "quantum"; cursor := None; start := 0; size := 25;
                   filter := None; sortBy := None; sortOrder := None |}
        = Return result ->
        europepmc_GET service (Examples.works_query "0") = Json result)
  /\ 25%Z <> clamp 1 100 0
  /\ europepmc_GET (fun _ => @Throw unit) (Examples.works_query "300")
     = ServerError.
Proof.
  split; [reflexivity|]. split; [|split; [|reflexivity]].
  - intros A service result Hresult. by apply respond_Json.
  - vm_compute. discriminate.
Qed.

End PageSize.

(** ** Paper identifiers *)

Section PaperIds.
Import JS Normalizers Spec.

Lemma normalizeCrossrefItem_doi (item : CrossrefItem) (d : string) :
  doi (normalizeCrossrefItem item) = Some d ->
  id (normalizeCrossrefItem item) = Some (doi_id d).
Proof.
  unfold normalizeCrossrefItem. cbn [doi id]. by intros ->.
Qed.

Lemma normalizeEuropePmcItem_doi (item : EuropePmcItem) (d : string) :
  doi (normalizeEuropePmcItem item) = Some d ->
  id (normalizeEuropePmcItem item) = Some (doi_id d).
Proof.
  unfold normalizeEuropePmcItem. cbn [doi id]. by intros ->.
Qed.

(** C4 (as amended): the Crossref and Europe PMC normalizers give a record
    that carries a DOI the id [https://doi.org/<doi>], so the two agree on
    records sharing a DOI; without a DOI, Europe PMC falls back to
    [europepmc:<id>] and then to the title or [unknown], and Crossref to
    the record's URL and then its title, without a provider prefix; the
    OpenAlex and arXiv normalizers always use the provider's own id. *)
Theorem C4_paper_ids :
  (forall item d,
      or_undefined (cr_DOI item) = Some d ->
      doi (normalizeCrossrefItem item) = Some d
      /\ id (normalizeCrossrefItem item) = Some (doi_id d))
  /\ (forall item d,
        or_undefined (ep_doi item) = Some d ->
        doi (normalizeEuropePmcItem item) = Some d
        /\ id (normalizeEuropePmcItem item) = Some (doi_id d))
  /\ (forall c e d,
        doi (normalizeCrossrefItem c) = Some d ->
        doi (normalizeEuropePmcItem e) = Some d ->
        id (normalizeCrossrefItem c) = id (normalizeEuropePmcItem e))
  /\ (forall item i,
        or_undefined (ep_doi item) = None ->
        or_undefined (ep_id item) = Some i ->
        id (normalizeEuropePmcItem item) = Some ("europepmc:" +:+ i))
  /\ (forall item,
        or_undefined (ep_doi item) = None ->
        or_undefined (ep_id item) = None ->
        id (normalizeEuropePmcItem item)
        = Some (or_str (ep_title item) "unknown"))
  /\ (forall item,
        or_undefined (cr_DOI item) = None ->
        id (normalizeCrossrefItem item)
        = match or_undefined (cr_URL item) with
          | Some u => Some u
          | None => title (normalizeCrossrefItem item)
          end)
  /\ (forall work, id (normalizeOpenAlexWork work) = oa_id work)
  /\ (forall entry,
        id (normalizeArxivEntry entry) = Some (ax_id entry)
        /\ doi (normalizeArxivEntry entry) = None).
Proof.
  split; [|split; [|split; [|split; [|split; [|split; [|split]]]]]].
  - intros item d Hd. unfold normalizeCrossrefItem. cbn [doi id].
    by rewrite Hd.
  - intros item d Hd. unfold normalizeEuropePmcItem. cbn [doi id].
    by rewrite Hd.
  - intros c e d Hc He.
    by rewrite (normalizeCrossrefItem_doi c d Hc),
               (normalizeEuropePmcItem_doi e d He).
  - intros item i Hd Hi. unfold normalizeEuropePmcItem. cbn [id].
    by rewrite Hd, Hi.
  - intros item Hd Hi. unfold normalizeEuropePmcItem. cbn [id].
    by rewrite Hd, Hi.
  - intros item Hd. unfold normalizeCrossrefItem. cbn [id title].
    rewrite Hd. unfold or_undefined.
    destruct (cr_URL item) as [u|]; [|done].
    unfold or_opt. by destruct (truthy u) eqn:Hu; rewrite ?Hu.
  - done.
  - done.
Qed.

(** One article as Crossref and Europe PMC report it. *)
Lemma C4_paper_ids_witness :
  doi (normalizeCrossrefItem Examples.crossref_item)
  = Some "10.7717/peerj.4375"
  /\ doi (normalizeEuropePmcItem Examples.europepmc_item)
     = Some "10.7717/peerj.4375"
  /\ id (normalizeCrossrefItem Examples.crossref_item)
     = id (normalizeEuropePmcItem Examples.europepmc_item).
Proof.
  split; [reflexivity|]. split; [reflexivity|].
  apply (proj1 (proj2 (proj2 C4_paper_ids))
           Examples.crossref_item Examples.europepmc_item
           "10.7717/peerj.4375"); reflexivity.
Defined.

(** C4 (as stated) fails: OpenAlex and Crossref normalize two records of
    the same DOI to different ids, the OpenAlex one not being derived from
    the DOI; and a Crossref record without DOI and URL gets its bare title
    as id. *)
Lemma C4_openalex_id_not_doi_based :
  doi (normalizeOpenAlexWork Examples.openalex_work)
  = doi (normalizeCrossrefItem Examples.crossref_item)
  /\ doi (normalizeOpenAlexWork Examples.openalex_work)
     = Some "10.7717/peerj.4375"
  /\ id (normalizeOpenAlexWork Examples.openalex_work)
     = Some "https://openalex.org/W2741809807"
  /\ id (normalizeOpenAlexWork Examples.openalex_work)
     <> Some (doi_id "10.7717/peerj.4375")
  /\ id (normalizeOpenAlexWork Examples.openalex_work)
     <> id (normalizeCrossrefItem Examples.crossref_item)
  /\ id (normalizeCrossrefItem Examples.crossref_untracked)
     = Some "On graphene".
Proof.
  repeat split; try reflexivity; vm_compute; discriminate.
Qed.

End PaperIds.

(** ** The search pipeline *)

Section Search.
Import JS SearchService Spec.

Lemma slice0_nil {A} (n : Z) : slice0 n (@nil A) = [].
Proof. unfold slice0. destruct (0 <=? n)%Z; apply firstn_nil. Qed.

Lemma slice0_length {A} (n : Z) (l : list A) :
  (0 <= n)%Z -> (Z.of_nat (length (slice0 n l)) <= n)%Z.
Proof.
  intros Hn. unfold slice0. rewrite (proj2 (Z.leb_le 0 n) Hn).
  rewrite length_firstn. lia.
Qed.

(** No exception escapes [search]: every provider failure is absorbed by
    an adapter or by the pipeline. *)
Lemma search_never_throws (w : World) (options : SearchOptions) :
  exists results, search w options = Return results.
Proof.
  unfold search, getRealSearchResults, enhanceSearchResults.
  cbn [try_catch_with].
  match goal with |- context [if ?c then Return ?a else Return ?b] =>
    destruct c end; simpl; eexists; reflexivity.
Qed.

Lemma search_at_most_numResults (w : World) (options : SearchOptions)
  (results : list SearchResult) :
  (0 <= numResults options)%Z ->
  search w options = Return results ->
  (Z.of_nat (length results) <= numResults options)%Z.
Proof.
  intros Hn. unfold search, getRealSearchResults, enhanceSearchResults.
  cbn [try_catch_with].
  match goal with |- context [if ?c then Return ?a else Return ?b] =>
    destruct c end; simpl; intros [= <-]; by apply slice0_length.
Qed.

(** C1 (violated by the code): when every provider adapter returns no
    result for the request, [search] returns the empty list; the
    synthetic results are produced only by a [catch] clause that no
    provider failure reaches. *)
Theorem C1_search_empty_without_provider_results
  (w : World) (options : SearchOptions) :
  no_provider_results w options -> search w options = Return [].
Proof.
  intros (Hlang & Hbrave & Hduck & Hwiki & Harxiv & Hpubmed).
  unfold search, getRealSearchResults.
  rewrite Hlang, Hduck, Hwiki, Harxiv, Hpubmed.
  cbn [bind try_catch try_catch_with length].
  destruct (has_key (langSearchApiKey w)), (has_key (braveApiKey w));
    cbn [andb Nat.ltb Nat.leb]; rewrite ?Hbrave;
    cbn; by rewrite slice0_nil.
Qed.

(** No credential configured and no open source reachable. *)
Lemma C1_search_empty_witness :
  no_provider_results Examples.unreachable Examples.graphene
  /\ search Examples.unreachable Examples.graphene = Return [].
Proof.
  assert (no_provider_results Examples.unreachable Examples.graphene) as H
    by (repeat split).
  split; [exact H|].
  exact (C1_search_empty_without_provider_results _ _ H).
Defined.

(** The research route inherits the empty list: its web-search stage
    neither throws nor substitutes placeholders. *)
Lemma performWebSearch_unreachable :
  ResearchRoute.performWebSearch Examples.unreachable "graphene batteries"
  = Return [].
Proof. reflexivity. Qed.

End Search.

(** ** Synthetic results *)

Section FallbackResults.
Import JS SearchService Spec.

Lemma prefix_append (s t : string) : String.prefix s (s +:+ t) = true.
Proof.
  induction s as [|c s IH]; [by destruct t|].
  simpl. destruct (ascii_dec c c); [exact IH|done].
Qed.

Lemma includes_unfold (sub s : string) :
  includes sub s
  = if String.prefix sub s then true
    else match s with
         | EmptyString => false
         | String _ s' => includes sub s'
         end.
Proof. by destruct s. Qed.

Lemma includes_append (a q b : string) :
  includes q (a +:+ q +:+ b) = true.
Proof.
  induction a as [|c a IH].
  - change ("" +:+ q +:+ b) with (q +:+ b).
    rewrite includes_unfold. by rewrite prefix_append.
  - change (String c a +:+ q +:+ b) with (String c (a +:+ q +:+ b)).
    rewrite includes_unfold, IH. by destruct (String.prefix q _).
Qed.

Lemma includes_at_start (q b : string) : includes q (q +:+ b) = true.
Proof. apply (includes_append "" q b). Qed.

Lemma append_empty_r (s : string) : s +:+ "" = s.
Proof.
  induction s as [|c s IH]; [done|].
  change (String c s +:+ "") with (String c (s +:+ "")). by rewrite IH.
Qed.

Lemma includes_at_end (a q : string) : includes q (a +:+ q) = true.
Proof.
  rewrite <- (append_empty_r q) at 2. apply includes_append.
Qed.

(** C3 (as amended): for every query that [encodeURIComponent] accepts,
    each fallback producer yields exactly three placeholder results whose
    titles contain the query text; the route's producer points at Google
    Scholar, PubMed and arXiv with the scores 0.95, 0.92, 0.88, the
    aggregator's own producer at Google Scholar, arXiv and GitHub with the
    scores 0.95, 0.9, 0.85; both score sequences are strictly
    descending. *)
Theorem C3_fallback_results (w : World) (query : string) :
  (forall encoded,
      encodeURIComponent query = Return encoded ->
      exists route own,
        ResearchRoute.getEnhancedFallbackResults w query = Return route
        /\ SearchService.getEnhancedFallbackResults w query = Return own
        /\ length route = 3%nat
        /\ Forall (fun r => includes query (title r) = true) route
        /\ map domain route
           = ["scholar.google.com"; "pubmed.ncbi.nlm.nih.gov"; "arxiv.org"]
        /\ map url route
           = ["https://scholar.google.com/scholar?q=" +:+ encoded;
              "https://pubmed.ncbi.nlm.nih.gov/?term=" +:+ encoded;
              "https://arxiv.org/search/?query=" +:+ encoded]
        /\ map score route = [0.95; 0.92; 0.88]%Q
        /\ map title route
           = ["Comprehensive Analysis of " +:+ query
              +:+ ": Current Research and Applications";
              query +:+ ": Systematic Review and Meta-Analysis";
              "Recent Advances in " +:+ query
              +:+ ": A Technical Perspective"]
        /\ map title own
           = ["Comprehensive Research on " +:+ query;
              query +:+ ": Latest Research and Developments";
              query +:+ ": Technical Documentation and Resources"]
        /\ length own = 3%nat
        /\ Forall (fun r => includes query (title r) = true) own
        /\ map domain own = ["scholar.google.com"; "arxiv.org"; "github.com"]
        /\ map url own
           = ["https://scholar.google.com/scholar?q=" +:+ encoded;
              "https://arxiv.org/search/?query=" +:+ encoded;
              "https://github.com/search?q=" +:+ encoded]
        /\ map score own = [0.95; 0.9; 0.85]%Q)
  /\ (0.88 < 0.92 < 0.95)%Q /\ (0.85 < 0.9 < 0.95)%Q.
Proof.
  split_and!; try reflexivity.
  - intros encoded Henc.
    unfold ResearchRoute.getEnhancedFallbackResults,
      SearchService.getEnhancedFallbackResults.
    rewrite Henc. cbn [bind]. eexists _, _.
    split; [reflexivity|]. split; [reflexivity|].
    split_and!; try reflexivity.
    + repeat constructor; cbn [title].
      * apply includes_append.
      * apply includes_at_start.
      * apply includes_append.
    + repeat constructor; cbn [title].
      * apply includes_at_end.
      * apply includes_at_start.
      * apply includes_at_start.
Qed.

(** The query of the specification's scenario, which encodes. *)
Lemma C3_fallback_results_witness :
  exists route,
    ResearchRoute.getEnhancedFallbackResults Examples.unreachable
      "graphene batteries" = Return route
    /\ map score route = [0.95; 0.92; 0.88]%Q.
Proof.
  destruct (proj1 (C3_fallback_results Examples.unreachable
                     "graphene batteries") "graphene%20batteries" eq_refl)
    as (route & own & Hroute & _ & _ & _ & _ & _ & Hscore & _).
  by exists route.
Defined.

(** C3 (as stated) fails: with no provider reachable the aggregator
    returns no result at all; its own producer has the scores 0.95, 0.9
    and 0.85 and points its third placeholder at GitHub; and the synthesis
    fails on a query that cannot be encoded. *)
Lemma C3_aggregator_scores_differ :
  search Examples.unreachable Examples.graphene = Return []
  /\ (exists own,
        SearchService.getEnhancedFallbackResults
          Examples.unreachable "graphene batteries" = Return own
        /\ ~ Forall2 Qeq (map score own) [0.95; 0.92; 0.88]%Q
        /\ map score own = [0.95; 0.9; 0.85]%Q
        /\ map domain own
           = ["scholar.google.com"; "arxiv.org"; "github.com"])
  /\ encodeURIComponent Examples.lone_surrogate = Throw
  /\ ResearchRoute.getEnhancedFallbackResults
       Examples.unreachable Examples.lone_surrogate = Throw
  /\ SearchService.getEnhancedFallbackResults
       Examples.unreachable Examples.lone_surrogate = Throw.
Proof.
  split; [reflexivity|]. split; [|split_and!; reflexivity].
  eexists. split; [reflexivity|]. split; [|split; reflexivity].
  intros H. inversion H as [|? ? ? ? _ H1]; subst.
  inversion H1 as [|? ? ? ? Hq _]; subst.
  vm_compute in Hq. discriminate Hq.
Qed.

End FallbackResults.

(** ** Reranking *)

Section Rerank.
Import JS SearchService Spec.

Lemma mapMi_from_nth {A B} (f : nat -> A -> Exc B) (l : list A) :
  forall i out,
    mapMi_from f i l = Return out ->
    length out = length l
    /\ forall j x, nth_error l j = Some x ->
                   exists y, f (i + j)%nat x = Return y
                             /\ nth_error out j = Some y.
Proof.
  induction l as [|a l IH]; intros i out; cbn [mapMi_from].
  - intros [= <-]. split; [done|]. intros [|j] x; discriminate.
  - destruct (f i a) as [b|] eqn:Hb; [|discriminate]. cbn [bind].
    destruct (mapMi_from f (S i) l) as [bs|] eqn:Hbs; [|discriminate].
    cbn [bind]. intros [= <-].
    destruct (IH _ _ Hbs) as [Hlen Hnth]. split; [simpl; by rewrite Hlen|].
    intros [|j] x Hx.
    + injection Hx as <-. exists b. by rewrite Nat.add_0_r.
    + destruct (Hnth j x Hx) as (y & Hy & Hout).
      exists y. split; [|done]. by replace (i + S j)%nat with (S i + j)%nat by lia.
Qed.

Lemma mapMi_from_total {A B} (f : nat -> A -> Exc B) (l : list A) :
  forall i,
    (forall j x, nth_error l j = Some x -> exists y, f (i + j)%nat x = Return y) ->
    exists out, mapMi_from f i l = Return out.
Proof.
  induction l as [|a l IH]; intros i Hf; cbn [mapMi_from]; [by eexists|].
  destruct (Hf 0%nat a eq_refl) as (b & Hb).
  rewrite Nat.add_0_r in Hb. rewrite Hb. cbn [bind].
  destruct (IH (S i)) as (bs & Hbs).
  - intros j x Hx. destruct (Hf (S j) x Hx) as (y & Hy).
    exists y. by replace (S i + j)%nat with (i + S j)%nat by lia.
  - rewrite Hbs. by eexists.
Qed.

Lemma mapMi_from_throw {A B} (f : nat -> A -> Exc B) (l : list A) :
  forall i j x,
    nth_error l j = Some x -> f (i + j)%nat x = Throw ->
    mapMi_from f i l = Throw.
Proof.
  induction l as [|a l IH]; intros i [|j] x Hx Hf; try discriminate;
    cbn [mapMi_from].
  - injection Hx as ->. rewrite Nat.add_0_r in Hf. by rewrite Hf.
  - destruct (f i a); [|done]. cbn [bind].
    rewrite (IH (S i) j x Hx); [done|].
    by replace (S i + j)%nat with (i + S j)%nat by lia.
Qed.

Lemma nth_error_imap {A B} (f : nat -> A -> B) (l : list A) :
  forall i, nth_error (imap f l) i = option_map (f i) (nth_error l i).
Proof.
  revert f. induction l as [|a l IH]; intros f [|i]; try reflexivity.
  cbn [imap nth_error]. by rewrite IH.
Qed.

Lemma toString_truthy (n : nat) : truthy (toString n) = true.
Proof.
  unfold toString. pose proof (to_uint_nonnil n) as H.
  by destruct (Nat.to_uint n).
Qed.

Lemma with_score_same (r : SearchResult) : with_score r (score r) = r.
Proof. by destruct r. Qed.

Lemma rerankItem_candidate (results : list SearchResult)
  (first : SearchResult) (index : nat) (item : RerankItem) :
  exists c s,
    rerankItem results first index (Some item) = Return (with_score c s)
    /\ c = match at_index results
                   (parseInt (or_str (document_id item) "0")) with
           | Some r => r
           | None => first
           end.
Proof. unfold rerankItem. by eexists _, _. Qed.

Lemma at_index_In {A} (l : list A) (i : option Z) (a : A) :
  at_index l i = Some a -> In a l.
Proof.
  unfold at_index. destruct i as [z|]; [|discriminate].
  destruct (0 <=? z)%Z; [|discriminate]. apply nth_error_In.
Qed.

Lemma slice0_incl {A} (n : Z) (l : list A) (a : A) :
  In a (slice0 n l) -> In a l.
Proof.
  assert (forall k, In a (firstn k l) -> In a l) as Hk.
  { intros k H. rewrite <- (firstn_skipn k l). apply in_or_app. by left. }
  unfold slice0. destruct (0 <=? n)%Z; apply Hk.
Qed.

Lemma slice0_candidates (results : list SearchResult) (topN : Z) :
  Forall (is_candidate results) (slice0 topN results).
Proof.
  apply List.Forall_forall. intros r Hr. exists r, (score r).
  split; [by apply slice0_incl in Hr|]. by rewrite with_score_same.
Qed.

Lemma mapMi_from_Forall {A B} (f : nat -> A -> Exc B) (P : B -> Prop)
  (l : list A) :
  (forall j x y, f j x = Return y -> P y) ->
  forall i out, mapMi_from f i l = Return out -> Forall P out.
Proof.
  intros Hf. induction l as [|a l IH]; intros i out; cbn [mapMi_from].
  - intros [= <-]. constructor.
  - destruct (f i a) as [b|] eqn:Hb; [|discriminate]. cbn [bind].
    destruct (mapMi_from f (S i) l) as [bs|] eqn:Hbs; [|discriminate].
    cbn [bind]. intros [= <-]. constructor; eauto.
Qed.

Lemma rerankItem_is_candidate (results : list SearchResult)
  (first : SearchResult) (index : nat) (item : option RerankItem)
  (r' : SearchResult) :
  In first results ->
  rerankItem results first index item = Return r' ->
  is_candidate results r'.
Proof.
  intros Hfirst. destruct item as [item|]; [|discriminate].
  destruct (rerankItem_candidate results first index item)
    as (c & s & -> & Hc).
  intros [= <-]. exists c, s. split; [|done]. subst c.
  destruct (at_index results _) eqn:Hat; [|done].
  by apply at_index_In in Hat.
Qed.

Lemma rerankResults_candidates (w : World) (query : string)
  (results : list SearchResult) (topN : Z) (out : list SearchResult) :
  rerankResults w query results topN = Return out ->
  Forall (is_candidate results) out.
Proof.
  unfold rerankResults.
  destruct results as [|first rest];
    [intros [= <-]; apply slice0_candidates|].
  set (results := first :: rest).
  destruct (has_key (langSearchApiKey w)); cbn [negb];
    [|intros [= <-]; apply slice0_candidates].
  destruct (fetch_rerank w query (rerankDocuments results) topN)
    as [| |data]; cbn [try_catch];
    try (intros [= <-]; apply slice0_candidates).
  destruct (code_is_error (rr_code data));
    [intros [= <-]; apply slice0_candidates|].
  destruct (rr_results data) as [items|];
    [|intros [= <-]; apply slice0_candidates].
  destruct (mapMi (rerankItem results first) items) as [out'|] eqn:Hout;
    cbn [try_catch]; intros [= <-]; [|apply slice0_candidates].
  eapply mapMi_from_Forall; [|exact Hout].
  intros j x y. apply rerankItem_is_candidate. by left.
Qed.

Lemma slice0_firstn {A} (n : Z) (l : list A) :
  (exists rest, l = slice0 n l ++ rest)
  /\ ((0 <= n)%Z ->
      slice0 n l = firstn (Z.to_nat n) l
      /\ length (slice0 n l) = Nat.min (Z.to_nat n) (length l))
  /\ ((n < 0)%Z -> slice0 n l = firstn (length l - Z.to_nat (- n)) l).
Proof.
  unfold slice0. destruct (Z.leb_spec 0 n) as [Hn|Hn].
  - split; [eexists; symmetry; apply firstn_skipn|].
    split; [|lia]. intros _. split; [done|apply length_firstn].
  - split; [eexists; symmetry; apply firstn_skipn|].
    split; [lia|]. intros _. f_equal. lia.
Qed.

(** C6: the reranker adapter sends one document per candidate whose id is
    the candidate's index printed in decimal and whose text is the title,
    a space and the snippet; it never throws and returns only original
    candidates, possibly with a new score; a returned id that names an
    index resolves to that candidate and any other id resolves to the first
    candidate; whenever the call is skipped, fails in transport or returns
    a malformed payload, the result is the candidates in their original
    order cut to [topN]: the first [topN] of them (all of them when there
    are fewer), and for a negative [topN] all but the last [-topN]. *)
Theorem C6_rerank_adapter (w : World) (query : string)
  (results : list SearchResult) (topN : Z) :
  (length (rerankDocuments results) = length results
   /\ forall i r,
       nth_error results i = Some r ->
       nth_error (rerankDocuments results) i
       = Some {| id := toString i;
                 text := title r +:+ " " +:+ snippet r;
                 metadata := (url r, domain r, score r) |})
  /\ (exists out,
         rerankResults w query results topN = Return out
         /\ Forall (is_candidate results) out)
  /\ (forall data items out,
         results <> [] ->
         has_key (langSearchApiKey w) = true ->
         fetch_rerank w query (rerankDocuments results) topN = Ok data ->
         code_is_error (rr_code data) = false ->
         rr_results data = Some items ->
         ~ In None items ->
         rerankResults w query results topN = Return out ->
         length out = length items
         /\ forall j item,
             nth_error items j = Some (Some item) ->
             (forall i r,
                 document_id item = Some (toString i) ->
                 nth_error results i = Some r ->
                 exists s, nth_error out j = Some (with_score r s))
             /\ (at_index results
                   (parseInt (or_str (document_id item) "0")) = None ->
                 exists first s,
                   nth_error results 0 = Some first
                   /\ nth_error out j = Some (with_score first s)))
  /\ (rerank_failed w query results topN ->
      exists out,
        rerankResults w query results topN = Return out
        /\ (exists rest, results = out ++ rest)
        /\ ((0 <= topN)%Z ->
            out = firstn (Z.to_nat topN) results
            /\ length out = Nat.min (Z.to_nat topN) (length results))
        /\ ((topN < 0)%Z ->
            out = firstn (length results - Z.to_nat (- topN)) results)).
Proof.
  split; [|split; [|split]].
  - unfold rerankDocuments. split; [apply length_imap|].
    intros i r Hr. by rewrite nth_error_imap, Hr.
  - assert (exists out, rerankResults w query results topN = Return out)
      as (out & Hout).
    { unfold rerankResults. destruct results; [by eexists|].
      destruct (negb _); by eexists. }
    exists out. split; [exact Hout|].
    by apply (rerankResults_candidates w query results topN).
  - intros data items out Hne Hkey Hfetch Hcode Hitems Hnull.
    unfold rerankResults.
    destruct results as [|first rest]; [done|].
    set (results := first :: rest) in *.
    rewrite Hkey, Hfetch, Hcode, Hitems. cbn [negb].
    destruct (mapMi_from_total (rerankItem results first) items 0)
      as (out' & Hout').
    { intros j [item|] Hx.
      - destruct (rerankItem_candidate results first (0 + j) item)
          as (c & s & H & _). eauto.
      - exfalso. apply Hnull. by apply nth_error_In in Hx. }
    unfold mapMi. rewrite Hout'. cbn [try_catch]. intros [= <-].
    destruct (mapMi_from_nth _ _ _ _ Hout') as [Hlen Hnth].
    split; [done|]. intros j item Hj.
    destruct (Hnth j _ Hj) as (y & Hy & Hoy). cbn [Nat.add] in Hy.
    destruct (rerankItem_candidate results first j item)
      as (c & s & Hc & Hcdef).
    rewrite Hc in Hy. injection Hy as <-.
    split.
    + intros i r Hid Hr. exists s. rewrite Hoy. do 2 f_equal.
      rewrite Hcdef, Hid.
      unfold or_str. rewrite toString_truthy, parseInt_toString.
      unfold at_index.
      rewrite (proj2 (Z.leb_le 0 (Z.of_nat i))) by lia.
      by rewrite Nat2Z.id, Hr.
    + intros Hat. exists first, s. split; [done|].
      rewrite Hoy. do 2 f_equal. by rewrite Hcdef, Hat.
  - intros Hfail. exists (slice0 topN results).
    split; [|apply slice0_firstn].
    revert Hfail. unfold rerank_failed, rerankResults.
    destruct results as [|first rest]; [done|].
    set (results := first :: rest).
    intros [Hkey|[Hnil|[Hrej|[Hnot|(data & Hok & Hbad)]]]].
    + by rewrite Hkey.
    + discriminate Hnil.
    + rewrite Hrej. by destruct (has_key _).
    + rewrite Hnot. by destruct (has_key _).
    + rewrite Hok. destruct (has_key _); [|done]. cbn [negb].
      destruct Hbad as [Hcode|[Hnone|(items & Hitems & Hnull)]].
      * by rewrite Hcode.
      * rewrite Hnone. by destruct (code_is_error _).
      * rewrite Hitems. destruct (code_is_error _); [done|].
        apply In_nth_error in Hnull as (j & Hj).
        unfold mapMi.
        by rewrite (mapMi_from_throw _ _ 0 j None Hj eq_refl).
Qed.

(** A reranker reply naming candidate 1, then an index out of range; and
    two candidates cut to one when the reranker cannot be reached. *)
Lemma C6_rerank_adapter_witness :
  (exists out,
      rerankResults Examples.reranking "graphene" Examples.candidates 10
      = Return out
      /\ (exists s, nth_error out 0
                    = Some (with_score
                              (Examples.bare "Batteries" "https://a.org/2") s))
      /\ (exists first s,
            nth_error Examples.candidates 0 = Some first
            /\ nth_error out 1 = Some (with_score first s)))
  /\ rerankResults Examples.keyed_unreachable "graphene" Examples.candidates 1
     = Return [Examples.bare "Graphene" "https://a.org/1"].
Proof.
  split.
  - destruct (C6_rerank_adapter Examples.reranking "graphene"
                Examples.candidates 10) as (_ & (out & Hout & _) & Hok & _).
    exists out. split; [exact Hout|].
    destruct (Hok _ _ out ltac:(discriminate) eq_refl eq_refl eq_refl eq_refl
                ltac:(simpl; intuition discriminate) Hout) as [_ Hres].
    split.
    + destruct (Hres 0%nat _ eq_refl) as [Hid _].
      exact (Hid 1%nat _ eq_refl eq_refl).
    + destruct (Hres 1%nat _ eq_refl) as [_ Hfirst].
      exact (Hfirst eq_refl).
  - destruct (C6_rerank_adapter Examples.keyed_unreachable "graphene"
                Examples.candidates 1) as (_ & _ & _ & Hcut).
    destruct Hcut as (out & Hout & _ & Hfirst & _).
    { right. right. left. reflexivity. }
    destruct (Hfirst ltac:(lia)) as [-> _]. exact Hout.
Defined.

End Rerank.

(** ** Domains and scores *)

Section DomainsAndScores.
Import JS SearchService Spec.


Lemma ranked_le (base step : Q) (index : nat) :
  (0 <= step)%Q -> (ranked base step index <= base)%Q.
Proof.
  intros Hstep. unfold ranked.
  assert (0 <= inject_Z (Z.of_nat index) * step)%Q as Hprod.
  { apply Qmult_le_0_compat; [|done].
    change 0%Q with (inject_Z 0). rewrite <- Zle_Qle. lia. }
  apply Qle_minus_iff.
  setoid_replace (base + - (base - inject_Z (Z.of_nat index) * step))%Q
    with (inject_Z (Z.of_nat index) * step)%Q using relation Qeq by ring.
  exact Hprod.
Qed.





Lemma removeDuplicates_Forall (P : SearchResult -> Prop)
  (results : list SearchResult) :
  Forall P results -> Forall P (removeDuplicates results).
Proof.
  rewrite !List.Forall_forall. intros H r Hr.
  by apply H, removeDuplicates_In.
Qed.

Lemma sort_Forall {A} (le : A -> A -> bool) (P : A -> Prop) (l : list A) :
  Forall P l -> Forall P (sort le l).
Proof.
  rewrite !List.Forall_forall. intros H a Ha. by apply H, (sort_In le).
Qed.


Lemma ranked_mono (base step : Q) (i j : nat) :
  (0 <= step)%Q -> (i <= j)%nat ->
  (ranked base step j <= ranked base step i)%Q.
Proof.
  intros Hstep Hij. unfold ranked.
  assert (inject_Z (Z.of_nat i) * step <= inject_Z (Z.of_nat j) * step)%Q
    as Hprod.
  { apply Qmult_le_compat_r; [|done]. rewrite <- Zle_Qle. lia. }
  set (a := (inject_Z (Z.of_nat i) * step)%Q) in *.
  set (b := (inject_Z (Z.of_nat j) * step)%Q) in *.
  lra.
Qed.


Lemma ranked_best_first (base step : Q) (l : list SearchResult) :
  (0 <= step)%Q ->
  forall k,
    (forall i r, nth_error l i = Some r ->
                 score r = ranked base step (k + i)) ->
    Props.best_first l.
Proof.
  intros Hstep. unfold Props.best_first.
  induction l as [|a l IH]; intros k Hl; constructor.
  - apply (IH (S k)). intros i r Hr.
    rewrite (Hl (S i) r Hr). f_equal. lia.
  - apply List.Forall_forall. intros b Hb.
    apply In_nth_error in Hb as [j Hj].
    rewrite (Hl 0%nat a eq_refl), (Hl (S j) b Hj).
    apply ranked_mono; [done|lia].
Qed.

End DomainsAndScores.

(** ** Extraction of the JSON array and citation defaults *)

Section Citations.
Import JS SearchService ResearchRoute Spec.

Lemma append_String (c : ascii) (s t : string) :
  String c s +:+ t = String c (s +:+ t).
Proof. reflexivity. Qed.

Lemma through_last_close_None (s : string) :
  through_last_close s = None <-> occurs "]" s = false.
Proof.
  induction s as [|c s IH]; [done|].
  cbn [through_last_close occurs].
  destruct (through_last_close s) as [body|].
  - split; [discriminate|]. intros H.
    apply orb_false_iff in H as [_ H]. by apply IH in H.
  - rewrite (proj1 IH eq_refl), orb_false_r.
    destruct (Ascii.eqb c "]"); split; done.
Qed.

Lemma occurs_append (c : ascii) (s t : string) :
  occurs c (s +:+ t) = occurs c s || occurs c t.
Proof.
  induction s as [|c' s IH]; [done|].
  rewrite append_String. cbn [occurs]. by rewrite IH, orb_assoc.
Qed.

Lemma occurs_close (inner after : string) :
  occurs "]" (inner +:+ "]" +:+ after) = true.
Proof.
  rewrite occurs_append. change ("]" +:+ after) with (String "]" after).
  cbn [occurs]. by rewrite orb_true_r.
Qed.

Lemma through_last_close_Some (s body : string) :
  through_last_close s = Some body
  <-> exists inner after,
      s = inner +:+ "]" +:+ after /\ body = inner +:+ "]"
      /\ occurs "]" after = false.
Proof.
  revert body. induction s as [|c s IH]; intros body.
  - split; [discriminate|]. intros (inner & after & H & _).
    destruct inner; discriminate.
  - cbn [through_last_close].
    destruct (through_last_close s) as [body'|] eqn:Hs.
    + split.
      * intros [= <-].
        destruct (proj1 (IH body') eq_refl) as (inner & after & -> & -> & Ha).
        by exists (String c inner), after.
      * intros (inner & after & Heq & -> & Ha).
        destruct inner as [|c' inner].
        -- change (String c s = String "]" after) in Heq.
           injection Heq as -> ->.
           apply through_last_close_None in Ha. congruence.
        -- rewrite append_String in Heq. injection Heq as <- ->.
           rewrite append_String. do 2 f_equal.
           assert (Some body' = Some (inner +:+ "]")) as H'
             by (apply IH; eauto).
           congruence.
    + apply through_last_close_None in Hs.
      destruct (Ascii.eqb_spec c "]") as [->|Hc].
      * split.
        -- intros [= <-]. by exists "", s.
        -- intros (inner & after & Heq & -> & Ha).
           destruct inner as [|c' inner]; [done|].
           rewrite append_String in Heq. injection Heq as <- ->.
           by rewrite occurs_close in Hs.
      * split; [discriminate|].
        intros (inner & after & Heq & -> & Ha).
        destruct inner as [|c' inner].
        -- change (String c s = String "]" after) in Heq.
           injection Heq as -> ->. done.
        -- rewrite append_String in Heq. injection Heq as <- ->.
           by rewrite occurs_close in Hs.
Qed.

Lemma after_first_open_Some (text rest : string) :
  after_first_open text = Some rest
  <-> exists before,
      text = before +:+ "[" +:+ rest /\ occurs "[" before = false.
Proof.
  induction text as [|c text IH].
  - split; [discriminate|]. intros (before & H & _).
    destruct before; discriminate.
  - cbn [after_first_open].
    destruct (Ascii.eqb_spec c "[") as [->|Hc].
    + split.
      * intros [= <-]. by exists "".
      * intros (before & Heq & Hb).
        destruct before as [|c' before].
        -- change (String "[" text = String "[" rest) in Heq.
           by injection Heq as ->.
        -- rewrite append_String in Heq. injection Heq as <- _.
           cbn in Hb. discriminate.
    + rewrite IH. split.
      * intros (before & -> & Hb). exists (String c before).
        split; [done|]. cbn [occurs]. rewrite Hb, orb_false_r.
        by apply Ascii.eqb_neq.
      * intros (before & Heq & Hb).
        destruct before as [|c' before].
        -- change (String c text = String "[" rest) in Heq.
           by injection Heq as -> _.
        -- rewrite append_String in Heq. injection Heq as <- ->.
           exists before. split; [done|].
           cbn [occurs] in Hb. by apply orb_false_iff in Hb as [_ Hb].
Qed.

(** The match of the extraction pattern runs from the first opening
    bracket of the text to its last closing bracket. *)
Lemma jsonMatch_spans (text matched : string) :
  jsonMatch text = Some matched <-> spans_brackets text matched.
Proof.
  unfold jsonMatch, spans_brackets. split.
  - destruct (after_first_open text) as [rest|] eqn:Hopen; [|discriminate].
    destruct (through_last_close rest) as [body|] eqn:Hclose; [|discriminate].
    intros [= <-].
    apply after_first_open_Some in Hopen as (before & -> & Hb).
    apply through_last_close_Some in Hclose as (inner & after & -> & -> & Ha).
    by exists before, inner, after.
  - intros (before & inner & after & -> & -> & Hb & Ha).
    rewrite (proj2 (after_first_open_Some _ (inner +:+ "]" +:+ after)))
      by eauto.
    by rewrite (proj2 (through_last_close_Some _ (inner +:+ "]")))
      by eauto.
Qed.

Lemma js_truthy_defined (v : JSValue) :
  js_truthy v = true -> is_defined v = true.
Proof. by destruct v. Qed.

Lemma js_or_truthy (a b : JSValue) :
  js_truthy b = true -> js_truthy (js_or a b) = true.
Proof. unfold js_or. by destruct (js_truthy a) eqn:Ha. Qed.

Lemma js_or_defined (a b : JSValue) :
  is_defined b = true -> is_defined (js_or a b) = true.
Proof.
  unfold js_or. destruct (js_truthy a) eqn:Ha; [|done].
  intros _. by apply js_truthy_defined.
Qed.

Lemma js_or_kept (a b : JSValue) : js_truthy a = true -> js_or a b = a.
Proof. unfold js_or. by intros ->. Qed.

Lemma js_or_default (a b : JSValue) : js_truthy a = false -> js_or a b = b.
Proof. unfold js_or. by intros ->. Qed.

Lemma determineSourceType_truthy (d : string) :
  truthy (determineSourceType d) = true.
Proof.
  unfold determineSourceType.
  repeat match goal with |- context [if ?c then _ else _] =>
    destruct c end; reflexivity.
Qed.

Lemma extractYear_truthy (env : Env) (d : option string) :
  truthy (extractYear env d) = true.
Proof.
  unfold extractYear.
  destruct (or_undefined d); [|apply toString_truthy].
  destruct (dateFullYear env _) as [y|]; [|apply toString_truthy].
  unfold toStringZ. destruct (y <? 0)%Z; [reflexivity|apply toString_truthy].
Qed.

Lemma citationOf_populated (env : Env) (results : list SearchResult)
  (index : nat) (citation : JSValue) (c : Citation) :
  citationOf env results index citation = Return c -> populated c.
Proof.
  unfold citationOf.
  destruct (prop citation "id") as [c_id|] eqn:Hid; [|discriminate].
  assert (forall name, exists v, prop citation name = Return v) as Hprop.
  { intros name. destruct citation; try discriminate; by eexists. }
  destruct (Hprop "formatted") as (c_formatted & ->).
  destruct (Hprop "citation") as (c_citation & ->).
  destruct (Hprop "inText") as (c_inText & ->).
  destruct (Hprop "in_text") as (c_in_text & ->).
  destruct (Hprop "type") as (c_type & ->).
  destruct (Hprop "year") as (c_year & ->).
  destruct (Hprop "authors") as (c_authors & ->).
  cbn [bind]. intros [= <-]. unfold populated.
  cbn [id formatted inText type year authors].
  repeat split.
  - by apply js_or_truthy.
  - by apply js_or_defined.
  - by apply js_or_truthy.
  - apply js_or_truthy. apply determineSourceType_truthy.
  - apply js_or_truthy. apply extractYear_truthy.
  - by apply js_or_truthy.
Qed.

Lemma fallbackCitation_populated (env : Env) (style : string) (i : nat)
  (source : SearchResult) :
  populated (fallbackCitation env style i source).
Proof.
  unfold fallbackCitation, populated.
  destruct (String.eqb style "apa"); [|destruct (String.eqb style "mla");
    [|destruct (String.eqb style "ieee")]];
    cbn [id formatted inText type year authors js_truthy is_defined];
    repeat split;
    first [ apply determineSourceType_truthy | apply extractYear_truthy ].
Qed.

Lemma Forall_imap_all {A B} (P : B -> Prop) (l : list A) :
  forall f : nat -> A -> B, (forall i x, P (f i x)) -> Forall P (imap f l).
Proof.
  induction l as [|a l IH]; intros f Hf; cbn [imap]; constructor; [done|].
  apply IH. intros i x. apply Hf.
Qed.

Lemma generateCitations_populated (env : Env) (reply : Exc string)
  (searchResults : list SearchResult) (citationStyle : string)
  (out : list Citation) :
  generateCitations env reply searchResults citationStyle = Return out ->
  Forall populated out.
Proof.
  assert (Forall populated
            (generateFallbackCitations env searchResults citationStyle))
    as Hfallback
    by (apply Forall_imap_all; intros; apply fallbackCitation_populated).
  unfold generateCitations. intros [= <-].
  destruct reply as [text|]; cbn [bind try_catch]; [|done].
  destruct (jsonMatch text) as [matched|]; cbn [try_catch]; [|done].
  destruct (JSON_parse env matched) as [[| | | | |items|]|];
    cbn [bind try_catch]; try done.
  destruct (mapMi (citationOf env searchResults) items) as [cs|] eqn:Hcs;
    cbn [try_catch]; [|done].
  eapply mapMi_from_Forall; [|exact Hcs].
  intros j x y. apply citationOf_populated.
Qed.

(** C7 (as amended): each generation stage extracts the text from the
    first opening bracket of the reply to its last closing bracket, which
    tolerates surrounding prose that has no opening bracket before and no
    closing bracket after the array; every citation that the citations
    stage returns has its six fields present, a missing id or in-text mark
    being replaced by [cite-N] and [(N)], a missing type, year and author
    list by values derived from the source, and a missing formatted text
    by the empty string. *)
Theorem C7_extraction_and_citation_defaults (env : Env) :
  (forall text matched,
      jsonMatch text = Some matched <-> spans_brackets text matched)
  /\ (forall reply searchResults citationStyle out,
        generateCitations env reply searchResults citationStyle = Return out ->
        Forall populated out)
  /\ (forall text matched items searchResults citationStyle,
        jsonMatch text = Some matched ->
        JSON_parse env matched = Return (JArr items) ->
        ~ In JNull items -> ~ In JUndefined items ->
        exists out,
          generateCitations env (Return text) searchResults citationStyle
          = Return out
          /\ length out = length items)
  /\ (forall searchResults index fields c,
        citationOf env searchResults index (JObj fields) = Return c ->
        (js_truthy (assoc "id" fields) = true -> id c = assoc "id" fields)
        /\ (js_truthy (assoc "id" fields) = false ->
            id c = JStr ("cite-" +:+ toString (index + 1)))
        /\ (js_truthy (assoc "inText" fields) = false ->
            js_truthy (assoc "in_text" fields) = false ->
            inText c = JStr ("(" +:+ toString (index + 1) +:+ ")"))
        /\ (js_truthy (assoc "formatted" fields) = false ->
            js_truthy (assoc "citation" fields) = false ->
            formatted c = JStr "")
        /\ (js_truthy (assoc "type" fields) = false ->
            type c
            = JStr (determineSourceType
                      (or_str (option_map domain
                                 (nth_error searchResults index)) "")))
        /\ (js_truthy (assoc "year" fields) = false ->
            year c
            = JStr (extractYear env
                      match nth_error searchResults index with
                      | Some r => published_date r
                      | None => None
                      end))
        /\ (js_truthy (assoc "authors" fields) = false ->
            authors c
            = JArr [JStr (or_str match nth_error searchResults index with
                                 | Some r => SearchService.author r
                                 | None => None
                                 end "Unknown")])).
Proof.
  split; [|split; [|split]].
  - apply jsonMatch_spans.
  - apply generateCitations_populated.
  - intros text matched items searchResults citationStyle Hm Hp Hnull Hundef.
    unfold generateCitations. cbn [bind]. rewrite Hm, Hp. cbn [bind].
    destruct (mapMi_from_total (citationOf env searchResults) items 0)
      as (out & Hout).
    { intros j x Hx. apply nth_error_In in Hx.
      unfold citationOf.
      destruct x;
        [exfalso; by apply Hundef | exfalso; by apply Hnull
        | cbn [prop bind]; by eexists .. ]. }
    unfold mapMi. rewrite Hout. cbn [try_catch].
    exists out. split; [done|].
    by destruct (mapMi_from_nth _ _ _ _ Hout).
  - intros searchResults index fields c. unfold citationOf.
    cbn [prop bind]. intros [= <-].
    cbn [id inText formatted type year authors].
    repeat split.
    + apply js_or_kept.
    + apply js_or_default.
    + intros H1 H2. by rewrite (js_or_default _ _ H1), (js_or_default _ _ H2).
    + intros H1 H2. by rewrite (js_or_default _ _ H1), (js_or_default _ _ H2).
    + apply js_or_default.
    + apply js_or_default.
    + apply js_or_default.
Qed.

(** Two empty citation objects wrapped in prose. *)
Lemma C7_extraction_witness :
  jsonMatch Examples.wrapped_reply = Some "[{}, {}]"
  /\ exists out,
      generateCitations Examples.plain_env (Return Examples.wrapped_reply)
        [] "apa" = Return out
      /\ length out = 2%nat
      /\ Forall populated out.
Proof.
  split; [reflexivity|].
  destruct (proj1 (proj2 (proj2
              (C7_extraction_and_citation_defaults Examples.plain_env)))
              Examples.wrapped_reply "[{}, {}]"
              [JObj []; JObj []] [] "apa" eq_refl eq_refl)
    as (out & Hout & Hlen).
  - simpl. intuition discriminate.
  - simpl. intuition discriminate.
  - exists out. split; [exact Hout|]. split; [exact Hlen|].
    exact (proj1 (proj2
             (C7_extraction_and_citation_defaults Examples.plain_env))
             _ _ _ _ Hout).
Defined.

(** C7 (as stated) fails: on a reply whose prose contains a bracketed
    reference after the array, the pattern matches up to the last closing
    bracket, not the first balanced bracketed substring. *)
Lemma C7_match_is_not_first_balanced :
  jsonMatch Examples.reply_with_reference = Some "[1, 2] (see note [3]"
  /\ first_balanced Examples.reply_with_reference = Some "[1, 2]"
  /\ jsonMatch Examples.reply_with_reference
     <> first_balanced Examples.reply_with_reference.
Proof.
  split; [reflexivity|]. split; [reflexivity|]. vm_compute. discriminate.
Qed.

End Citations.

(** ** Trimming and splitting *)

Section Trimming.
Import JS Props.

Lemma list_ascii_append (s t : string) :
  list_ascii_of_string (s +:+ t)
  = list_ascii_of_string s ++ list_ascii_of_string t.
Proof.
  induction s as [|c s IH]; [done|].
  change (String c s +:+ t) with (String c (s +:+ t)).
  simpl. by rewrite IH.
Qed.

Lemma string_of_list_app (l1 l2 : list ascii) :
  string_of_list_ascii (l1 ++ l2)
  = string_of_list_ascii l1 +:+ string_of_list_ascii l2.
Proof.
  induction l1 as [|c l1 IH]; [done|].
  simpl. rewrite IH. reflexivity.
Qed.

Lemma reverse_involutive (s : string) : reverse (reverse s) = s.
Proof.
  unfold reverse.
  by rewrite list_ascii_of_string_of_list_ascii, rev_involutive,
    string_of_list_ascii_of_string.
Qed.

Lemma reverse_append (s t : string) :
  reverse (s +:+ t) = reverse t +:+ reverse s.
Proof.
  unfold reverse. by rewrite list_ascii_append, rev_app_distr,
    string_of_list_app.
Qed.

Lemma reverse_empty (s : string) : reverse s = "" -> s = "".
Proof.
  intros H. rewrite <- (reverse_involutive s). by rewrite H.
Qed.

Lemma append_assoc (a b c : string) : (a +:+ b) +:+ c = a +:+ b +:+ c.
Proof.
  induction a as [|x a IH]; [done|].
  rewrite !append_String. by rewrite IH.
Qed.

Lemma length_append (a b : string) :
  String.length (a +:+ b) = (String.length a + String.length b)%nat.
Proof.
  induction a as [|x a IH]; [done|].
  rewrite append_String. simpl. by rewrite IH.
Qed.

Lemma every_append (P : ascii -> bool) (s t : string) :
  every P (s +:+ t) = every P s && every P t.
Proof. unfold every. by rewrite list_ascii_append, forallb_app. Qed.

Lemma forallb_rev {A} (P : A -> bool) (l : list A) :
  forallb P (rev l) = forallb P l.
Proof.
  induction l as [|a l IH]; [done|].
  simpl. rewrite forallb_app, IH. simpl. by rewrite andb_true_r, andb_comm.
Qed.

Lemma every_reverse (P : ascii -> bool) (s : string) :
  every P (reverse s) = every P s.
Proof.
  unfold every, reverse.
  by rewrite list_ascii_of_string_of_list_ascii, forallb_rev.
Qed.

Lemma every_of_list (P : ascii -> bool) (l : list ascii) :
  every P (string_of_list_ascii (rev l)) = forallb P l.
Proof.
  unfold every. by rewrite list_ascii_of_string_of_list_ascii, forallb_rev.
Qed.

Lemma made_of_append (table : list string) (a b : string) :
  made_of table a -> made_of table b -> made_of table (a +:+ b).
Proof.
  induction 1 as [|p s Hp Hs IH]; intros Hb; [done|].
  rewrite append_assoc. constructor; auto.
Qed.

Lemma made_of_entry (table : list string) (p : string) :
  In p table -> made_of table p.
Proof.
  intros Hp. rewrite <- (append_empty_r p). constructor; [done|constructor].
Qed.

Lemma made_of_reverse (table : list string) (x : string) :
  made_of (map reverse table) x -> made_of table (reverse x).
Proof.
  induction 1 as [|p s Hp Hs IH]; [constructor|].
  apply in_map_iff in Hp as (p0 & <- & Hp0).
  rewrite reverse_append, reverse_involutive.
  apply made_of_append; [done|by apply made_of_entry].
Qed.

(** *** Dropping a prefix *)

Lemma strip_prefix_Some (p s r : string) :
  strip_prefix p s = Some r <-> s = p +:+ r.
Proof.
  revert s. induction p as [|a p IH]; intros s.
  - cbn [strip_prefix]. change ("" +:+ r) with r.
    split; [by intros [= ->]|by intros ->].
  - destruct s as [|b s]; cbn [strip_prefix]; rewrite append_String.
    + split; discriminate.
    + destruct (Ascii.eqb a b) eqn:Hab.
      * apply Ascii.eqb_eq in Hab as ->. rewrite IH.
        split; [by intros ->|by intros [= ->]].
      * apply Ascii.eqb_neq in Hab.
        split; [discriminate|]. intros [= -> _]. by destruct Hab.
Qed.

Lemma drop_first_Some (table : list string) (s r : string) :
  drop_first table s = Some r -> exists p, In p table /\ s = p +:+ r.
Proof.
  induction table as [|p table IH]; [discriminate|].
  cbn [drop_first]. destruct (strip_prefix p s) as [r'|] eqn:Hp.
  - intros [= ->]. exists p. split; [by left|by apply strip_prefix_Some].
  - intros (p' & Hin & Heq)%IH. exists p'. split; [by right|done].
Qed.

Lemma drop_first_None (table : list string) (s : string) :
  drop_first table s = None
  <-> forall p r, In p table -> s <> p +:+ r.
Proof.
  induction table as [|p table IH].
  - split; [intros _ p r []|done].
  - cbn [drop_first]. destruct (strip_prefix p s) as [r'|] eqn:Hp.
    + split; [discriminate|]. intros H. exfalso.
      apply (H p r'); [by left|by apply strip_prefix_Some].
    + rewrite IH. split.
      * intros H p' r [<-|Hin]; [|by apply H].
        intros Heq%strip_prefix_Some. congruence.
      * intros H p' r Hin. apply H. by right.
Qed.

(** *** Stripping the entries of a table *)

Lemma drop_first_shorter (table : list string) (s r : string) :
  is_code table ->
  drop_first table s = Some r ->
  (String.length r < String.length s)%nat.
Proof.
  intros [Hne _] (p & Hin & ->)%drop_first_Some.
  rewrite length_append. specialize (Hne p Hin).
  destruct p; [done|]. simpl. lia.
Qed.

Lemma drop_first_empty (table : list string) :
  is_code table -> drop_first table "" = None.
Proof.
  intros Hcode. destruct (drop_first table "") as [r|] eqn:H; [|done].
  apply (drop_first_shorter _ _ _ Hcode) in H. simpl in H. lia.
Qed.

Lemma strip_leading_from_enough (table : list string) (n m : nat)
    (s : string) :
  is_code table ->
  (String.length s <= n)%nat -> (String.length s <= m)%nat ->
  strip_leading_from table n s = strip_leading_from table m s.
Proof.
  intros Hcode. revert m s.
  induction n as [|n IH]; intros m s Hn Hm.
  - destruct s; [|simpl in Hn; lia].
    destruct m; [done|]. cbn [strip_leading_from].
    by rewrite drop_first_empty.
  - destruct m as [|m].
    + destruct s; [|simpl in Hm; lia]. cbn [strip_leading_from].
      by rewrite drop_first_empty.
    + cbn [strip_leading_from].
      destruct (drop_first table s) as [r|] eqn:Hr; [|done].
      apply (drop_first_shorter _ _ _ Hcode) in Hr.
      apply IH; lia.
Qed.

Lemma strip_leading_unfold (table : list string) (s : string) :
  is_code table ->
  strip_leading table s
  = match drop_first table s with
    | Some r => strip_leading table r
    | None => s
    end.
Proof.
  intros Hcode. unfold strip_leading at 1.
  destruct s as [|c s].
  - cbn [String.length strip_leading_from]. by rewrite drop_first_empty.
  - cbn [String.length strip_leading_from].
    destruct (drop_first table (String c s)) as [r|] eqn:Hr; [|done].
    apply (drop_first_shorter _ _ _ Hcode) in Hr. simpl in Hr.
    unfold strip_leading. apply strip_leading_from_enough; [done|lia|lia].
Qed.

Lemma strip_leading_fixed (table : list string) (s : string) :
  is_code table ->
  drop_first table s = None -> strip_leading table s = s.
Proof. intros Hcode H. by rewrite strip_leading_unfold, H. Qed.

(** What is stripped is made of entries of the table, and what is left
    starts with none. *)
Lemma strip_leading_spec (table : list string) (s : string) :
  is_code table ->
  exists a,
    made_of table a
    /\ s = a +:+ strip_leading table s
    /\ drop_first table (strip_leading table s) = None.
Proof.
  intros Hcode.
  remember (String.length s) as n eqn:Hn.
  assert (String.length s <= n)%nat as Hle by lia. clear Hn.
  revert s Hle. induction n as [|n IH]; intros s Hle.
  - destruct s; [|simpl in Hle; lia].
    exists "". rewrite strip_leading_unfold, drop_first_empty by done.
    split; [constructor|]. split; [done|by apply drop_first_empty].
  - rewrite strip_leading_unfold by done.
    destruct (drop_first table s) as [r|] eqn:Hr.
    + pose proof (drop_first_shorter _ _ _ Hcode Hr) as Hlt.
      apply drop_first_Some in Hr as (p & Hin & ->).
      destruct (IH r ltac:(lia)) as (a & Ha & Heq & Hnone).
      exists (p +:+ a). split; [by constructor|].
      split; [|done]. rewrite append_assoc. by rewrite <- Heq.
    + exists "". split; [constructor|]. by split.
Qed.

Lemma strip_leading_absorb (table : list string) (a s : string) :
  is_code table ->
  made_of table a ->
  strip_leading table (a +:+ s) = strip_leading table s.
Proof.
  intros Hcode. induction 1 as [|p a Hp Ha IH]; [done|].
  rewrite append_assoc, strip_leading_unfold by done.
  by rewrite (proj2 Hcode p _ Hp).
Qed.

Lemma white_space_code : is_code white_space.
Proof.
  split; intros p; [|intros r]; intros Hin;
    repeat (destruct Hin as [<-|Hin]; [done|]); destruct Hin.
Qed.

Lemma white_space_reversed_code : is_code (map reverse white_space).
Proof.
  split; intros p; [|intros r]; intros Hin;
    repeat (destruct Hin as [<-|Hin]; [done|]); destruct Hin.
Qed.

(** *** Trimming *)

(** Trimming takes white space off both ends, and nothing else. *)
Lemma trim_spec (s : string) :
  exists a b, blank a /\ blank b /\ s = a +:+ trim s +:+ b.
Proof.
  destruct (strip_leading_spec white_space s white_space_code)
    as (a & Ha & Hs & _).
  destruct (strip_leading_spec (map reverse white_space)
              (reverse (skip_white_space s)) white_space_reversed_code)
    as (b & Hb & Hr & _).
  exists a, (reverse b). split; [done|].
  split; [by apply made_of_reverse|].
  unfold trim. rewrite <- reverse_append, <- Hr, reverse_involutive.
  exact Hs.
Qed.

(** What trimming leaves has no white space at either end. *)
Lemma trim_trimmed (s : string) : trimmed (trim s).
Proof.
  destruct (strip_leading_spec white_space s white_space_code)
    as (a & Ha & Hs & Hfront).
  destruct (strip_leading_spec (map reverse white_space)
              (reverse (skip_white_space s)) white_space_reversed_code)
    as (b & Hb & Hr & Hback).
  fold (skip_white_space s) in Hfront.
  intros w rest Hw. unfold trim. split; intros Heq.
  - apply (proj1 (drop_first_None _ _) Hfront w (rest +:+ reverse b) Hw).
    rewrite <- (reverse_involutive (skip_white_space s)), Hr.
    rewrite reverse_append, Heq. apply append_assoc.
  - apply (proj1 (drop_first_None _ _) Hback (reverse w) (reverse rest)).
    + by apply in_map.
    + rewrite <- reverse_append, <- Heq. by rewrite reverse_involutive.
Qed.

(** Trimming changes no text that is trimmed already. *)
Lemma trim_fixed (s : string) : trimmed s -> trim s = s.
Proof.
  intros Hs. unfold trim, skip_white_space.
  rewrite (strip_leading_fixed white_space s white_space_code).
  - rewrite strip_leading_fixed;
      [apply reverse_involutive|apply white_space_reversed_code|].
    apply drop_first_None. intros p r (w & <- & Hw)%in_map_iff Heq.
    apply (proj2 (Hs w (reverse r) Hw)).
    rewrite <- (reverse_involutive s), Heq.
    by rewrite reverse_append, reverse_involutive.
  - apply drop_first_None. intros p r Hp. apply (Hs p r Hp).
Qed.

Lemma trim_idempotent (s : string) : trim (trim s) = trim s.
Proof. apply trim_fixed, trim_trimmed. Qed.

(** The texts that trim to nothing are the blank ones. *)
Lemma trim_blank (s : string) : trim s = "" <-> blank s.
Proof.
  split.
  - intros Hs. destruct (trim_spec s) as (a & b & Ha & Hb & Heq).
    rewrite Hs in Heq. change ("" +:+ b) with b in Heq. rewrite Heq.
    by apply made_of_append.
  - intros Hs. unfold trim, skip_white_space.
    rewrite <- (append_empty_r s).
    by rewrite (strip_leading_absorb _ _ _ white_space_code Hs).
Qed.

Lemma every_trim (P : ascii -> bool) (s : string) :
  every P s = true -> every P (trim s) = true.
Proof.
  destruct (trim_spec s) as (a & b & _ & _ & Heq).
  rewrite Heq at 1. rewrite !every_append.
  by intros [_ [H _]%andb_true_iff]%andb_true_iff.
Qed.

(** *** Counting code units *)

Lemma code_units_empty (s : string) : code_units s = 0%nat <-> s = "".
Proof.
  split; [|by intros ->].
  destruct s as [|c s]; [done|].
  unfold code_units. cbn [code_units_from]. unfold read_byte.
  repeat case_match; simplify_eq; lia.
Qed.

End Trimming.

(** ** More on the search pipeline *)

Section SearchPipeline.
Import JS SearchService Spec.

Lemma slice0_nonempty {A} (n : Z) (l : list A) :
  (1 <= n)%Z -> slice0 n l = [] -> l = [].
Proof.
  intros Hn. unfold slice0. rewrite (proj2 (Z.leb_le 0 n)) by lia.
  destruct l as [|a l]; [done|].
  destruct (Z.to_nat n) eqn:Hz; [lia|discriminate].
Qed.

Lemma sort_nil {A} (le : A -> A -> bool) (l : list A) :
  sort le l = [] -> l = [].
Proof.
  intros H. apply Permutation_nil.
  rewrite <- H. apply sort_Permutation.
Qed.

Lemma removeDuplicates_nil (l : list SearchResult) :
  removeDuplicates l = [] -> l = [].
Proof.
  destruct l as [|r l]; [done|].
  unfold removeDuplicates. cbn [removeDuplicates_from].
  rewrite decide_False by set_solver. discriminate.
Qed.

Lemma searchWithLangSearch_returns (w : World) (q : string) (count : Z)
  (fresh : string) (summ : bool) :
  exists l, searchWithLangSearch w q count fresh summ = Return l.
Proof. by eexists. Qed.

Lemma searchWithBrave_returns (w : World) (q : string) (count : Z) :
  exists l, searchWithBrave w q count = Return l.
Proof. by eexists. Qed.

Lemma searchWithDuckDuckGo_returns (w : World) (q : string) :
  exists l, searchWithDuckDuckGo w q = Return l.
Proof. by eexists. Qed.

Lemma searchWithWikipedia_returns (w : World) (q : string) :
  exists l, searchWithWikipedia w q = Return l.
Proof. by eexists. Qed.

Lemma searchWithArXiv_returns (w : World) (q : string) :
  exists l, searchWithArXiv w q = Return l.
Proof. by eexists. Qed.

Lemma searchWithPubMed_returns (w : World) (q : string) :
  exists l, searchWithPubMed w q = Return l.
Proof. by eexists. Qed.

(** X1: whatever the providers do, [search] returns normally, and for a
    non-negative [numResults] it returns at most that many results. *)
Theorem search_returns_at_most_numResults (w : World)
  (options : SearchOptions) :
  (0 <= numResults options)%Z ->
  exists results,
    search w options = Return results
    /\ (Z.of_nat (length results) <= numResults options)%Z.
Proof.
  intros Hn. destruct (search_never_throws w options) as [results Hr].
  exists results. split; [exact Hr|].
  by apply (search_at_most_numResults w options).
Qed.

(** One result from the keyed tier with room for it. *)
Lemma search_returns_at_most_numResults_witness :
  exists results,
    search Examples.langsearch_only Examples.graphene = Return results
    /\ (Z.of_nat (length results) <= 10)%Z.
Proof.
  apply (search_returns_at_most_numResults
           Examples.langsearch_only Examples.graphene).
  simpl. lia.
Defined.

(** X2: with [numResults >= 1] the result of [search] is empty only if
    every adapter that was consulted came back empty: LangSearch and Brave
    when configured, and the four open sources. *)
Theorem search_empty_only_without_results (w : World)
  (options : SearchOptions) :
  (1 <= numResults options)%Z ->
  search w options = Return [] ->
  (has_key (langSearchApiKey w) = true ->
   searchWithLangSearch w (query options) (numResults options)
     (freshness options) (summary options) = Return [])
  /\ (has_key (braveApiKey w) = true ->
      searchWithBrave w (query options) (numResults options) = Return [])
  /\ searchWithDuckDuckGo w (query options) = Return []
  /\ searchWithWikipedia w (query options) = Return []
  /\ searchWithArXiv w (query options) = Return []
  /\ searchWithPubMed w (query options) = Return [].
Proof.
  intros Hn. unfold search, getRealSearchResults, enhanceSearchResults.
  destruct (searchWithLangSearch_returns w (query options)
              (numResults options) (freshness options) (summary options))
    as [lang Hlang].
  destruct (searchWithDuckDuckGo_returns w (query options)) as [duck Hduck].
  destruct (searchWithWikipedia_returns w (query options)) as [wiki Hwiki].
  destruct (searchWithArXiv_returns w (query options)) as [arxiv Harxiv].
  destruct (searchWithPubMed_returns w (query options)) as [pubmed Hpubmed].
  rewrite Hlang, Hduck, Hwiki, Harxiv, Hpubmed.
  cbn [bind try_catch collect_settled map concat].
  set (results1 := if has_key (langSearchApiKey w) then lang else []).
  destruct (searchWithBrave_returns w (query options)
              (numResults options - Z.of_nat (length results1)))
    as [brave Hbrave].
  rewrite Hbrave. cbn [bind try_catch].
  set (results2 :=
         if has_key (braveApiKey w) && (length results1 <? 5)%nat
         then results1 ++ brave else results1).
  assert (results2 = [] ->
          results1 = []
          /\ (has_key (braveApiKey w) = true -> brave = [])) as Hempty.
  { subst results2. destruct (has_key (braveApiKey w)); cbn [andb].
    - destruct (length results1 <? 5)%nat eqn:Hlt.
      + intros [-> ->]%app_eq_nil. by split.
      + intros ->. simpl in Hlt. discriminate.
    - intros ->. by split. }
  destruct (0 <? length results2)%nat eqn:Hpos; cbn [bind].
  - intros [= Hout]. apply slice0_nonempty in Hout; [|done].
    apply map_eq_nil in Hout. rewrite Hout in Hpos. discriminate.
  - intros [= Hout]. apply slice0_nonempty in Hout; [|done].
    apply map_eq_nil in Hout. apply sort_nil in Hout.
    apply removeDuplicates_nil in Hout. rewrite app_nil_r in Hout.
    apply app_eq_nil in Hout as [-> Hout].
    apply app_eq_nil in Hout as [-> Hout].
    apply app_eq_nil in Hout as [-> ->].
    assert (results2 = []) as H2
      by (destruct results2; [done|discriminate]).
    destruct (Hempty H2) as [H1 Hb].
    repeat split; try done.
    + intros Hkey. subst results1. rewrite Hkey in H1. by rewrite H1.
    + intros Hkey. rewrite H1 in Hbrave. simpl in Hbrave.
      rewrite Z.sub_0_r in Hbrave. rewrite Hbrave. by rewrite (Hb Hkey).
Qed.

(** Nothing is configured and nothing can be reached. *)
Lemma search_empty_only_without_results_witness :
  searchWithWikipedia Examples.unreachable "graphene batteries" = Return [].
Proof.
  refine (proj1 (proj2 (proj2 (proj2
            (search_empty_only_without_results
               Examples.unreachable Examples.graphene _ _))))).
  - simpl. lia.
  - reflexivity.
Defined.

(** X25: results of the keyed tier shadow the open sources.  As soon as
    LangSearch and Brave together deliver one result, [search] returns the
    enriched LangSearch results followed by the enriched Brave results,
    cut to [numResults]: they are neither deduplicated nor sorted by
    score, and no open source contributes.  Brave is consulted only when
    LangSearch delivered fewer than five results, and is then asked for
    [numResults] minus that number. *)
Theorem search_prefers_keyed_results (w : World) (options : SearchOptions)
  (lang brave : list SearchResult) :
  let first := if has_key (langSearchApiKey w) then lang else [] in
  let keyed :=
    if has_key (braveApiKey w) && (length first <? 5)%nat
    then first ++ brave else first in
  searchWithLangSearch w (query options) (numResults options)
    (freshness options) (summary options) = Return lang ->
  searchWithBrave w (query options)
    (numResults options - Z.of_nat (length first)) = Return brave ->
  keyed <> [] ->
  search w options
  = Return (slice0 (numResults options) (map (enhanceOne w) keyed)).
Proof.
  cbn zeta. intros Hlang Hbrave Hkeyed.
  unfold search, enhanceSearchResults. rewrite Hlang.
  cbn [bind try_catch]. rewrite Hbrave. cbn [bind try_catch].
  match goal with
  | |- context [(0 <? length ?l)%nat] => destruct l as [|r keyed] eqn:Hl
  end; [done|reflexivity].
Qed.

(** One LangSearch result, no Brave key. *)
Lemma search_prefers_keyed_results_witness :
  exists r,
    search Examples.langsearch_only Examples.graphene = Return [r]
    /\ url r = "https://example.org/graphene".
Proof.
  pose proof (search_prefers_keyed_results Examples.langsearch_only
                Examples.graphene _ [] eq_refl eq_refl) as H.
  eexists. split; [apply H; discriminate|reflexivity].
Defined.

End SearchPipeline.

(** ** Provider adapters *)

Section Adapters.
Import JS SearchService Spec Props.

Lemma mapMi_from_Exists_throw {A B} (f : nat -> A -> Exc B) (P : A -> Prop)
  (l : list A) :
  (forall j x, P x -> f j x = Throw) ->
  Exists P l -> forall i, mapMi_from f i l = Throw.
Proof.
  intros Hf Hex i. apply List.Exists_exists in Hex as (x & Hin & HP).
  apply In_nth_error in Hin as [j Hj].
  apply (mapMi_from_throw f l i j x Hj). by apply Hf.
Qed.

Lemma mapMi_from_map {A B C} (f : nat -> A -> Exc B) (g : B -> C)
  (h : A -> C) (l : list A) :
  (forall j x y, f j x = Return y -> g y = h x) ->
  forall i out, mapMi_from f i l = Return out -> map g out = map h l.
Proof.
  intros Hf. induction l as [|a l IH]; intros i out; cbn [mapMi_from].
  - by intros [= <-].
  - destruct (f i a) as [b|] eqn:Hb; [|discriminate]. cbn [bind].
    destruct (mapMi_from f (S i) l) as [bs|] eqn:Hbs; [|discriminate].
    cbn [bind]. intros [= <-]. simpl. f_equal; eauto.
Qed.

Lemma mapMi_from_at {A B} (f : nat -> A -> Exc B) (l : list A) (i : nat)
  (out : list B) (j : nat) (y : B) :
  mapMi_from f i l = Return out ->
  nth_error out j = Some y ->
  exists x, nth_error l j = Some x /\ f (i + j)%nat x = Return y.
Proof.
  intros Hout Hy. destruct (mapMi_from_nth f l i out Hout) as [Hlen Hnth].
  destruct (nth_error l j) as [x|] eqn:Hx.
  - destruct (Hnth j x Hx) as (y' & Hf & Hy'). exists x. split; [done|].
    congruence.
  - apply nth_error_None in Hx.
    assert (nth_error out j <> None) as Hsome by congruence.
    apply nth_error_Some in Hsome. lia.
Qed.

Lemma braveItem_throws (w : World) (index : nat) (result : BraveRaw) :
  hostname w (br_url result) = Throw -> braveItem w index result = Throw.
Proof. unfold braveItem. by intros ->. Qed.

Lemma braveItem_returns (w : World) (index : nat) (result : BraveRaw) :
  hostname w (br_url result) <> Throw ->
  exists r, braveItem w index result = Return r.
Proof.
  unfold braveItem. destruct (hostname w (br_url result)); [|done].
  by eexists.
Qed.

Lemma braveItem_fields (w : World) (index : nat) (result : BraveRaw)
  (r : SearchResult) :
  braveItem w index result = Return r ->
  url r = br_url result /\ title r = br_title result
  /\ score r = ranked 0.8 0.05 index.
Proof.
  unfold braveItem. destruct (hostname w (br_url result)); [|discriminate].
  by intros [= <-].
Qed.

Lemma ranked_scores (base step : Q) (results : list SearchResult) :
  (0 <= step)%Q ->
  (forall i r, nth_error results i = Some r ->
               score r = ranked base step i) ->
  best_first results
  /\ Forall (fun r => (score r <= base)%Q) results
  /\ (forall r, nth_error results 0 = Some r -> (score r == base)%Q).
Proof.
  intros Hstep Hscore. split_and!.
  - by apply (ranked_best_first base step results Hstep 0%nat).
  - apply List.Forall_forall. intros r Hr.
    apply In_nth_error in Hr as [i Hi].
    rewrite (Hscore i r Hi). by apply ranked_le.
  - intros r Hr. rewrite (Hscore 0%nat r Hr). unfold ranked.
    change (inject_Z (Z.of_nat 0)) with 0%Q. lra.
Qed.

(** X3: the Brave adapter is all or nothing.  One entry whose url has no
    host component makes it return the empty list; otherwise it returns one
    result per entry of the payload, in payload order whatever [count] was
    requested; the scores start at 0.8 and do not increase along the
    list. *)
Theorem searchWithBrave_all_or_nothing (w : World) (q : string) (count : Z)
  (items : list BraveRaw) :
  fetch_brave w q count = Ok (Some items) ->
  (Exists (fun item => hostname w (br_url item) = Throw) items ->
   searchWithBrave w q count = Return [])
  /\ (Forall (fun item => hostname w (br_url item) <> Throw) items ->
      exists results,
        searchWithBrave w q count = Return results
        /\ map url results = map br_url items
        /\ map title results = map br_title items
        /\ best_first results
        /\ Forall (fun r => (score r <= 0.8)%Q) results
        /\ (forall r, nth_error results 0 = Some r -> (score r == 0.8)%Q)).
Proof.
  intros Hfetch. unfold searchWithBrave. rewrite Hfetch. split.
  - intros Hex. unfold mapMi.
    rewrite (mapMi_from_Exists_throw (braveItem w) _ items
               (fun j x => braveItem_throws w j x) Hex 0%nat).
    reflexivity.
  - intros Hall.
    destruct (mapMi_from_total (braveItem w) items 0%nat) as [out Hout].
    { intros j x Hx. apply braveItem_returns.
      apply (proj1 (List.Forall_forall _ _) Hall). by eapply nth_error_In. }
    exists out. unfold mapMi. rewrite Hout. cbn [try_catch].
    split; [done|]. split; [|split].
    + eapply mapMi_from_map; [|exact Hout].
      intros j x y Hy. by apply braveItem_fields in Hy as (? & ? & ?).
    + eapply mapMi_from_map; [|exact Hout].
      intros j x y Hy. by apply braveItem_fields in Hy as (? & ? & ?).
    + apply (ranked_scores 0.8 0.05); [done|]. intros i r Hr.
      destruct (mapMi_from_at _ _ _ _ _ _ Hout Hr) as (x & _ & Hx).
      by apply braveItem_fields in Hx as (? & ? & ?).
Qed.

(** A page whose second entry has a relative url. *)
Lemma searchWithBrave_all_or_nothing_witness :
  searchWithBrave (Scenarios.brave_world Scenarios.brave_page_bad_url)
    "graphene" 10 = Return [].
Proof.
  refine (proj1 (searchWithBrave_all_or_nothing
                   (Scenarios.brave_world Scenarios.brave_page_bad_url)
                   "graphene" 10 Scenarios.brave_page_bad_url _) _).
  - reflexivity.
  - apply Exists_cons_tl, Exists_cons_hd. reflexivity.
Defined.






End Adapters.

(** ** The open sources and their aggregation *)

Section OpenSources.
Import JS SearchService Spec Props.

Lemma mapMi_from_Forall_index {A B} (f : nat -> A -> Exc B) (P : B -> Prop)
  (l : list A) (i : nat) (out : list B) :
  mapMi_from f i l = Return out ->
  (forall j x y, (j < length l)%nat -> f (i + j)%nat x = Return y -> P y) ->
  Forall P out.
Proof.
  intros Hout Hf. apply List.Forall_forall. intros y Hy.
  apply In_nth_error in Hy as [j Hj].
  destruct (mapMi_from_at f l i out j y Hout Hj) as (x & Hx & Hfx).
  apply (Hf j x y); [|done].
  apply nth_error_Some. congruence.
Qed.

Lemma In_imap {A B} (f : nat -> A -> B) (l : list A) (y : B) :
  In y (imap f l) ->
  exists j x, nth_error l j = Some x /\ y = f j x.
Proof.
  intros Hy. apply In_nth_error in Hy as [j Hj].
  rewrite nth_error_imap in Hj.
  destruct (nth_error l j) as [x|] eqn:Hx; [|discriminate].
  injection Hj as <-. by exists j, x.
Qed.

Lemma length_imap {A B} (f : nat -> A -> B) (l : list A) :
  length (imap f l) = length l.
Proof. revert f. induction l as [|a l IH]; intros f; simpl; [done|]. by rewrite IH. Qed.

Lemma length_omap_le {A B} (f : A -> option B) (l : list A) :
  (length (omap f l) <= length l)%nat.
Proof.
  induction l as [|a l IH]; simpl; [done|].
  unfold omap in IH. destruct (f a); simpl; lia.
Qed.

Lemma In_omap_id {A} (l : list (option A)) (y : A) :
  In y (omap (fun o => o) l) -> In (Some y) l.
Proof.
  induction l as [|a l IH]; simpl; [done|].
  unfold omap in IH. destruct a as [a|]; simpl.
  - intros [->|H]; [by left|right; by apply IH].
  - intros H. right. by apply IH.
Qed.

Lemma mapM_Forall2 {A B} (f : A -> Exc B) (l : list A) :
  forall out, mapM f l = Return out ->
              Forall2 (fun x y => f x = Return y) l out.
Proof.
  induction l as [|a l IH]; intros out; cbn [mapM].
  - intros [= <-]. constructor.
  - destruct (f a) as [b|] eqn:Hb; [|discriminate]. cbn [bind].
    destruct (mapM f l) as [bs|] eqn:Hbs; [|discriminate]. cbn [bind].
    intros [= <-]. constructor; [done|]. by apply IH.
Qed.

Lemma mapM_Exists_throw {A B} (f : A -> Exc B) (l : list A) :
  Exists (fun x => f x = Throw) l -> mapM f l = Throw.
Proof.
  induction 1 as [a l Ha|a l _ IH]; cbn [mapM].
  - by rewrite Ha.
  - destruct (f a); [|done]. cbn [bind]. by rewrite IH.
Qed.

Lemma ranked_tenths (base : Q) (index : nat) :
  (index < 3)%nat ->
  (base - 0.2 <= ranked base 0.1 index)%Q
  /\ (ranked base 0.1 index <= base)%Q.
Proof.
  intros Hi. unfold ranked.
  destruct index as [|[|[|index]]]; [| | |lia]; split;
    change (inject_Z (Z.of_nat 0)) with 0%Q;
    change (inject_Z (Z.of_nat 1)) with 1%Q;
    change (inject_Z (Z.of_nat 2)) with 2%Q; lra.
Qed.

Lemma length_firstn_le {A} (n : nat) (l : list A) :
  (length (firstn n l) <= n)%nat.
Proof. rewrite length_firstn. lia. Qed.

Lemma duckTopic_throws (w : World) (q : string) (index : nat)
  (topic : DuckTopic) :
  truthy (or_str (FirstURL topic) "") && truthy (or_str (Text topic) "")
  = true
  /\ hostname w (or_str (FirstURL topic) "") = Throw ->
  duckTopic w q index topic = Throw.
Proof. unfold duckTopic. by intros [-> ->]. Qed.

Lemma duckTopic_score (w : World) (q : string) (index : nat)
  (topic : DuckTopic) (r : SearchResult) :
  duckTopic w q index topic = Return (Some r) ->
  score r = ranked 0.8 0.1 index.
Proof.
  unfold duckTopic.
  destruct (truthy _ && truthy _); [|discriminate].
  destruct (hostname w _); [|discriminate]. by intros [= <-].
Qed.


Lemma duckAbstract_small (w : World) (q : string) (data : DuckData)
  (abstract : list SearchResult) :
  duckAbstract w q data = Return abstract ->
  (length abstract <= 1)%nat
  /\ Forall (score_within 0.9 0.9) abstract
  /\ Forall (fun r => domain r
                      = or_str (AbstractSource data) "duckduckgo.com")
       abstract.
Proof.
  unfold duckAbstract. destruct (truthy _).
  - destruct (url_or_search _ _ _ _); cbn [bind]; [|discriminate].
    intros [= <-]. split; [simpl; lia|].
    split; repeat constructor; simpl; lra.
  - intros [= <-]. split; [simpl; lia|]. split; constructor.
Qed.

Lemma pubMedItem_small (w : World) (q id : string)
  (pushed : list SearchResult) :
  pubMedItem w q id = Return pushed ->
  (length pushed <= 1)%nat /\ Forall (score_within 0.85 0.85) pushed.
Proof.
  unfold pubMedItem.
  destruct (fetch_pubmed_summary w id) as [| |[article|]]; try discriminate;
    intros [= <-]; simpl; split; try lia; repeat constructor;
    simpl; lra.
Qed.

Lemma concat_small {A B} (R : A -> list B -> Prop) (P : B -> Prop)
  (l : list A) (pushed : list (list B)) :
  (forall x ys, R x ys -> (length ys <= 1)%nat /\ Forall P ys) ->
  Forall2 R l pushed ->
  (length (concat pushed) <= length l)%nat /\ Forall P (concat pushed).
Proof.
  intros HR. induction 1 as [|x ys l pushed Hx _ IH]; simpl.
  - split; [lia|constructor].
  - destruct (HR x ys Hx) as [Hlen HP]. destruct IH as [IHlen IHP].
    rewrite length_app. split; [lia|]. by apply Forall_app.
Qed.

(** *** Each adapter on its own *)

Lemma searchWithDuckDuckGo_bounds (w : World) (q : string) :
  exists l, searchWithDuckDuckGo w q = Return l
            /\ (length l <= 4)%nat /\ Forall (score_within 0.6 0.9) l.
Proof.
  eexists. split; [reflexivity|].
  destruct (fetch_duckduckgo w q) as [| |data]; cbn [try_catch];
    try (split; [simpl; lia|constructor]).
  set (topics := match RelatedTopics data with
                 | Some l => firstn 3 l
                 | None => []
                 end).
  assert (length topics <= 3)%nat as Htopics.
  { subst topics. destruct (RelatedTopics data); [|simpl; lia].
    apply length_firstn_le. }
  destruct (duckAbstract w q data) as [abstract|] eqn:Habstract;
    cbn [bind try_catch]; [|split; [simpl; lia|constructor]].
  apply duckAbstract_small in Habstract as (Hone & Hscore & _).
  destruct (mapMi (duckTopic w q) topics) as [pushed|] eqn:Hpushed;
    cbn [bind try_catch]; [|split; [simpl; lia|constructor]].
  unfold mapMi in Hpushed.
  destruct (mapMi_from_nth _ _ _ _ Hpushed) as [Hlen _].
  split.
  - rewrite length_app.
    pose proof (length_omap_le (fun o : option SearchResult => o) pushed).
    lia.
  - apply Forall_app. split.
    + eapply List.Forall_impl; [|exact Hscore].
      intros r [Hlo Hhi]. split; lra.
    + apply List.Forall_forall. intros r Hr. apply In_omap_id in Hr.
      assert (Forall (fun o => forall r, o = Some r ->
                                         score_within 0.6 0.9 r) pushed)
        as HP.
      { apply (mapMi_from_Forall_index (duckTopic w q) _ topics 0%nat
                 pushed Hpushed).
        intros j x y Hj Hy r' ->. apply duckTopic_score in Hy.
        change (0 + j)%nat with j in Hy.
        unfold score_within. rewrite Hy.
        destruct (ranked_tenths 0.8 j) as [Hlo Hhi]; [lia|].
        split; lra. }
      by apply (proj1 (List.Forall_forall _ _) HP (Some r) Hr).
Qed.

Lemma searchWithWikipedia_bounds (w : World) (q : string) :
  exists l, searchWithWikipedia w q = Return l
            /\ (length l <= 1)%nat /\ Forall (score_within 0.95 0.95) l.
Proof.
  eexists. split; [reflexivity|].
  destruct (fetch_wikipedia w q); cbn [try_catch];
    try (split; [simpl; lia|constructor]).
  destruct (url_or_search _ _ _ _); cbn [bind try_catch];
    split; simpl; try lia; repeat constructor; simpl; lra.
Qed.

Lemma searchWithArXiv_bounds (w : World) (q : string) :
  exists l, searchWithArXiv w q = Return l
            /\ (length l <= 3)%nat /\ Forall (score_within 0.7 0.9) l.
Proof.
  eexists. split; [reflexivity|].
  destruct (fetch_arxiv w q) as [| |entries]; cbn [try_catch];
    try (split; [simpl; lia|constructor]).
  split.
  - rewrite length_imap. apply length_firstn_le.
  - apply List.Forall_forall. intros r Hr.
    apply In_imap in Hr as (j & x & Hx & ->).
    assert (j < 3)%nat as Hj.
    { pose proof (length_firstn_le 3 entries).
      assert (nth_error (firstn 3 entries) j <> None) as Hsome by congruence.
      apply nth_error_Some in Hsome. lia. }
    unfold score_within. cbn [arxivItem score].
    destruct (ranked_tenths 0.9 j Hj). split; lra.
Qed.

Lemma searchWithPubMed_bounds (w : World) (q : string) :
  exists l, searchWithPubMed w q = Return l
            /\ (length l <= 3)%nat /\ Forall (score_within 0.85 0.85) l.
Proof.
  eexists. split; [reflexivity|].
  destruct (fetch_pubmed_ids w q) as [| |[ids|]]; cbn [try_catch];
    try (split; [simpl; lia|constructor]).
  destruct (mapM (pubMedItem w q) (firstn 3 ids)) as [pushed|] eqn:Hpushed;
    cbn [bind try_catch]; [|split; [simpl; lia|constructor]].
  apply mapM_Forall2 in Hpushed.
  destruct (concat_small _ (score_within 0.85 0.85) _ _
              (pubMedItem_small w q) Hpushed) as [Hlen HP].
  split; [|done]. pose proof (length_firstn_le 3 ids). lia.
Qed.

(** X5: an exception in the middle of a fan-out loses what was already
    collected.  DuckDuckGo returns nothing, not even the abstract, when one
    of the first three related topics has a url without host component;
    PubMed returns nothing when the summary request of one of the first
    three ids fails; when none fails it returns one result per id whose
    summary delivers an article, in id order. *)
Theorem fan_out_adapters_discard_partial_results (w : World) (q : string) :
  (forall data topics,
     fetch_duckduckgo w q = Ok data ->
     RelatedTopics data = Some topics ->
     Exists (fun topic =>
               truthy (or_str (FirstURL topic) "")
               && truthy (or_str (Text topic) "") = true
               /\ hostname w (or_str (FirstURL topic) "") = Throw)
            (firstn 3 topics) ->
     searchWithDuckDuckGo w q = Return [])
  /\ (forall ids,
        fetch_pubmed_ids w q = Ok (Some ids) ->
        Exists (fun id => fetch_pubmed_summary w id = Rejected)
               (firstn 3 ids) ->
        searchWithPubMed w q = Return [])
  /\ (forall ids,
        fetch_pubmed_ids w q = Ok (Some ids) ->
        Forall (fun id => fetch_pubmed_summary w id <> Rejected)
               (firstn 3 ids) ->
        exists results,
          searchWithPubMed w q = Return results
          /\ map url results
             = map (fun id => "https://pubmed.ncbi.nlm.nih.gov/" +:+ id +:+ "/")
                   (List.filter (summarised w) (firstn 3 ids))).
Proof.
  repeat split.
  - intros data topics Hfetch Htopics Hex. unfold searchWithDuckDuckGo.
    rewrite Hfetch, Htopics. unfold mapMi.
    rewrite (mapMi_from_Exists_throw (duckTopic w q) _ (firstn 3 topics)
               (fun j x => duckTopic_throws w q j x) Hex 0%nat).
    by destruct (duckAbstract w q data).
  - intros ids Hfetch Hex. unfold searchWithPubMed. rewrite Hfetch.
    rewrite mapM_Exists_throw; [done|].
    eapply List.Exists_impl; [|exact Hex].
    intros id Hid. unfold pubMedItem. by rewrite Hid.
  - intros ids Hfetch Hall. unfold searchWithPubMed. rewrite Hfetch.
    assert (forall l : list string,
              Forall (fun id => fetch_pubmed_summary w id <> Rejected) l ->
              exists pushed,
                mapM (pubMedItem w q) l = Return pushed
                /\ map url (concat pushed)
                   = map (fun id => "https://pubmed.ncbi.nlm.nih.gov/"
                                    +:+ id +:+ "/")
                         (List.filter (summarised w) l)) as Hskip.
    { induction 1 as [|id l Hid _ (pushed & Hp & Hc)]; [by exists []|].
      cbn [mapM List.filter]. rewrite Hp. unfold pubMedItem, summarised.
      destruct (fetch_pubmed_summary w id) as [| |[article|]]; [done|..];
        eexists; (split; [reflexivity|]); cbn [concat app map url];
        by rewrite Hc. }
    destruct (Hskip (firstn 3 ids) Hall) as (pushed & Hp & Hc).
    rewrite Hp. cbn [bind try_catch]. by eexists.
Qed.

(** The abstract and the first PubMed article are lost with the rest. *)
Lemma fan_out_adapters_discard_partial_results_witness :
  searchWithDuckDuckGo (Scenarios.open_world "/Graphite" Rejected) "graphene"
  = Return []
  /\ searchWithPubMed (Scenarios.open_world "/Graphite" Rejected) "graphene"
     = Return [].
Proof.
  pose proof (fan_out_adapters_discard_partial_results
                (Scenarios.open_world "/Graphite" Rejected) "graphene")
    as (Hduck & Hpubmed & _).
  split.
  - eapply Hduck; [reflexivity|reflexivity|].
    apply Exists_cons_hd. by split.
  - eapply Hpubmed; [reflexivity|].
    apply Exists_cons_tl, Exists_cons_hd. reflexivity.
Defined.

(** X6: every open adapter returns normally, with a bounded number of
    results and scores in a fixed range: DuckDuckGo at most 4 within
    [0.6, 0.9], Wikipedia at most 1 at 0.95, arXiv at most 3 within
    [0.7, 0.9], PubMed at most 3 at 0.85. *)
Theorem open_adapters_bounds (w : World) (q : string) :
  (exists l, searchWithDuckDuckGo w q = Return l
             /\ (length l <= 4)%nat /\ Forall (score_within 0.6 0.9) l)
  /\ (exists l, searchWithWikipedia w q = Return l
                /\ (length l <= 1)%nat /\ Forall (score_within 0.95 0.95) l)
  /\ (exists l, searchWithArXiv w q = Return l
                /\ (length l <= 3)%nat /\ Forall (score_within 0.7 0.9) l)
  /\ (exists l, searchWithPubMed w q = Return l
                /\ (length l <= 3)%nat /\ Forall (score_within 0.85 0.85) l).
Proof.
  repeat split.
  - apply searchWithDuckDuckGo_bounds.
  - apply searchWithWikipedia_bounds.
  - apply searchWithArXiv_bounds.
  - apply searchWithPubMed_bounds.
Qed.

Lemma by_score_desc_le (a b : SearchResult) :
  by_score_desc a b = true <-> (score b <= score a)%Q.
Proof.
  unfold by_score_desc. rewrite Qle_bool_iff. split; intros H; lra.
Qed.

Lemma by_score_desc_total (a b : SearchResult) :
  by_score_desc a b = true \/ by_score_desc b a = true.
Proof.
  rewrite !by_score_desc_le.
  destruct (Qlt_le_dec (score a) (score b)); [right|left]; lra.
Qed.

Lemma by_score_desc_trans (a b c : SearchResult) :
  by_score_desc a b = true -> by_score_desc b c = true ->
  by_score_desc a c = true.
Proof. rewrite !by_score_desc_le. lra. Qed.

Lemma score_within_weaken (lo hi lo' hi' : Q) (r : SearchResult) :
  (lo' <= lo)%Q -> (hi <= hi')%Q ->
  score_within lo hi r -> score_within lo' hi' r.
Proof. unfold score_within. intros ? ? [? ?]. split; lra. Qed.

(** X7: the open-source tier returns at most 11 results, sorted by score
    with the best first, with pairwise distinct deduplication keys and
    scores within [0.6, 0.95], each of them taken from one of the four
    adapters. *)
Theorem getRealSearchResults_invariants (w : World) (q : string) :
  exists results,
    getRealSearchResults w q = Return results
    /\ (length results <= 11)%nat
    /\ best_first results
    /\ NoDup (map dedupKey results)
    /\ Forall (score_within 0.6 0.95) results
    /\ forall r, In r results ->
         exists l, In r l
           /\ (searchWithDuckDuckGo w q = Return l
               \/ searchWithWikipedia w q = Return l
               \/ searchWithArXiv w q = Return l
               \/ searchWithPubMed w q = Return l).
Proof.
  unfold getRealSearchResults.
  destruct (searchWithDuckDuckGo_bounds w q) as (duck & Hduck & Ld & Sd).
  destruct (searchWithWikipedia_bounds w q) as (wiki & Hwiki & Lw & Sw).
  destruct (searchWithArXiv_bounds w q) as (arxiv & Harxiv & La & Sa).
  destruct (searchWithPubMed_bounds w q) as (pubmed & Hpubmed & Lp & Sp).
  rewrite Hduck, Hwiki, Harxiv, Hpubmed.
  cbn [collect_settled map concat try_catch]. rewrite app_nil_r.
  set (all := duck ++ wiki ++ arxiv ++ pubmed).
  eexists. split; [reflexivity|].
  pose proof (sort_Permutation by_score_desc (removeDuplicates all)) as Hperm.
  repeat split.
  - rewrite (Permutation_length Hperm).
    pose proof (sublist_length _ _ (removeDuplicates_from_sublist all ∅))
      as Hsub.
    unfold removeDuplicates. subst all. rewrite !length_app in Hsub. lia.
  - unfold best_first.
    eapply StronglySorted_weaken;
      [|apply (sort_StronglySorted by_score_desc by_score_desc_total
                 by_score_desc_trans)].
    intros a b. apply by_score_desc_le.
  - apply NoDup_ListNoDup. eapply Permutation_NoDup.
    + apply Permutation_map. symmetry. exact Hperm.
    + apply NoDup_ListNoDup, removeDuplicates_from_NoDup.
  - apply sort_Forall, removeDuplicates_Forall. subst all.
    repeat (apply Forall_app; split);
      (eapply Forall_impl; [eassumption|]); intros r;
      apply score_within_weaken; lra.
  - intros r Hr. apply (proj1 (sort_In by_score_desc _ _)) in Hr.
    apply removeDuplicates_In in Hr. subst all.
    repeat (apply in_app_or in Hr as [Hr|Hr]); eauto 10.
Qed.

(** All four open sources answer. *)
Lemma getRealSearchResults_invariants_witness :
  exists results,
    getRealSearchResults
      (Scenarios.open_world "https://example.org/Graphite" NotOk) "graphene"
    = Return results
    /\ (length results <= 11)%nat /\ best_first results.
Proof.
  destruct (getRealSearchResults_invariants
              (Scenarios.open_world "https://example.org/Graphite" NotOk)
              "graphene") as (results & Hr & Hlen & Hsorted & _).
  by exists results.
Defined.

End OpenSources.

(** ** The data-model invariant of a search result *)

Section DataModel.
Import JS SearchService Spec Props.










End DataModel.

(** ** Enrichment, the web-search stage and the wrapped stages *)

Section Stages.
Import JS SearchService ResearchRoute Spec Props.

Lemma performWebSearch_unfold (w : World) (q : string)
  (initial : list SearchResult) :
  search w {| query := q; numResults := 15;
              freshness := "month"; summary := true |}
  = Return initial ->
  performWebSearch w q
  = Return (if has_key (langSearchApiKey w) && (0 <? length initial)%nat
            then try_catch (rerankResults w q initial 10) (slice0 10 initial)
            else slice0 10 initial).
Proof.
  intros Hinitial. unfold performWebSearch. rewrite Hinitial. cbn [bind].
  by destruct (has_key (langSearchApiKey w) && (0 <? length initial)%nat).
Qed.

Lemma performWebSearch_returns (w : World) (q : string) :
  exists found, performWebSearch w q = Return found.
Proof.
  destruct (search_never_throws w {| query := q; numResults := 15;
                                     freshness := "month"; summary := true |})
    as [initial Hinitial].
  eexists. by apply performWebSearch_unfold.
Qed.

(** X8: enrichment keeps the number and the order of the results and
    never changes url, domain, date or author.  A result whose page
    cannot be scraped is returned unchanged; a scraped one takes the
    scraped title and snippet where they are not empty, and its score is
    not lowered. *)
Theorem enhanceSearchResults_pointwise (w : World)
  (results : list SearchResult) :
  exists enhanced,
    enhanceSearchResults w results = Return enhanced
    /\ length enhanced = length results
    /\ forall i r, nth_error results i = Some r ->
         exists r',
           nth_error enhanced i = Some r'
           /\ url r' = url r /\ domain r' = domain r
           /\ published_date r' = published_date r
           /\ author r' = author r
           /\ (score r <= score r')%Q
           /\ (scrapeWebContent w (url r) = None -> r' = r)
           /\ (forall page, scrapeWebContent w (url r) = Some page ->
                 title r' = (if truthy (sc_title page) then sc_title page
                             else title r)
                 /\ snippet r' = (if truthy (sc_snippet page)
                                  then sc_snippet page else snippet r)).
Proof.
  exists (map (enhanceOne w) results). split; [reflexivity|].
  split; [apply length_map|].
  intros i r Hr. exists (enhanceOne w r).
  split; [by rewrite nth_error_map, Hr|].
  unfold enhanceOne.
  destruct (scrapeWebContent w (url r)) as [page|]; cbn.
  - split_and!; try done; [lra|]. intros page' [= <-]. by split_and!.
  - split_and!; try done. lra.
Qed.

(** Nothing can be scraped: the first candidate comes back unchanged. *)
Lemma enhanceSearchResults_pointwise_witness :
  exists enhanced,
    enhanceSearchResults Examples.unreachable Examples.candidates
    = Return enhanced
    /\ nth_error enhanced 0 = Some (Examples.bare "Graphene" "https://a.org/1").
Proof.
  destruct (enhanceSearchResults_pointwise Examples.unreachable
              Examples.candidates) as (enhanced & He & _ & Hat).
  destruct (Hat 0%nat _ eq_refl)
    as (r' & Hr' & _ & _ & _ & _ & _ & Hsame & _).
  exists enhanced. split; [exact He|].
  rewrite Hr'. f_equal. by apply Hsame.
Defined.

(** X9: the web-search stage never throws; what it returns are results of
    the aggregator's [search] with 15 requested, possibly rescored by the
    reranker, and without a LangSearch key exactly the first ten of
    them. *)
Theorem performWebSearch_returns_search_results (w : World) (q : string) :
  exists initialResults results,
    search w {| query := q; numResults := 15;
                freshness := "month"; summary := true |}
    = Return initialResults
    /\ performWebSearch w q = Return results
    /\ (length initialResults <= 15)%nat
    /\ Forall (is_candidate initialResults) results
    /\ (has_key (langSearchApiKey w) = false ->
        results = firstn 10 initialResults)
    /\ (initialResults = [] -> results = []).
Proof.
  set (options := {| query := q; numResults := 15;
                     freshness := "month"; summary := true |}).
  destruct (search_never_throws w options) as [initial Hinitial].
  assert (0 <= numResults options)%Z as Hpos by (simpl; lia).
  pose proof (search_at_most_numResults w options initial Hpos Hinitial)
    as Hlen.
  exists initial. eexists. split; [exact Hinitial|].
  split; [by apply performWebSearch_unfold|].
  split; [simpl in Hlen; lia|].
  repeat split.
  - destruct (has_key (langSearchApiKey w) && (0 <? length initial)%nat);
      cbn [try_catch]; [|apply slice0_candidates].
    destruct (rerankResults w q initial 10) as [out|] eqn:Hout;
      cbn [try_catch]; [|apply slice0_candidates].
    by apply rerankResults_candidates in Hout.
  - by intros ->.
  - intros ->. by destruct (has_key (langSearchApiKey w)).
Qed.

(** Brave alone answers, so nothing is reranked. *)
Lemma performWebSearch_returns_search_results_witness :
  exists initialResults,
    search (Scenarios.brave_world Scenarios.brave_page)
      {| query := "graphene"; numResults := 15;
         freshness := "month"; summary := true |}
    = Return initialResults
    /\ performWebSearch (Scenarios.brave_world Scenarios.brave_page) "graphene"
       = Return (firstn 10 initialResults).
Proof.
  destruct (performWebSearch_returns_search_results
              (Scenarios.brave_world Scenarios.brave_page) "graphene")
    as (initialResults & results & Hi & Hr & _ & _ & Hfirst & _).
  exists initialResults. split; [exact Hi|].
  rewrite Hr. f_equal. by apply Hfirst.
Defined.

(** X10: the route's own stage functions absorb every failure, so the
    retry wrappers around them make exactly one call and never wait: the
    outcome of the first attempt, be it the provider's reply or the
    stage's internal fallback, is final even when a later attempt would
    have succeeded. *)
Theorem wrapped_stages_run_once (env : Env) (q style : string)
  (results : list SearchResult) (summary : string)
  (reply : nat -> Exc string) :
  (exists found,
     performWebSearch (world env) q = Return found
     /\ performWebSearchWithRetry (fun _ => performWebSearch (world env) q)
          (world env) q = (Return found, [Call 1]))
  /\ (exists text,
        generateSummary (reply 1%nat) q results = Return text
        /\ generateSummaryWithRetry
             (fun attempt => generateSummary (reply attempt) q results)
             q results = (Return text, [Call 1]))
  /\ (exists citations,
        generateCitations env (reply 1%nat) results style = Return citations
        /\ generateCitationsWithRetry
             (fun attempt => generateCitations env (reply attempt) results style)
             env results style = (Return citations, [Call 1]))
  /\ (exists insights,
        extractInsights env (reply 1%nat) summary = Return insights
        /\ extractInsightsWithRetry
             (fun attempt => extractInsights env (reply attempt) summary)
             summary = (Return insights, [Call 1]))
  /\ (exists topics,
        generateRelatedTopics env (reply 1%nat) q = Return topics
        /\ generateRelatedTopicsWithRetry
             (fun attempt => generateRelatedTopics env (reply attempt) q) q
           = (Return topics, [Call 1])).
Proof.
  split_and!; try (eexists; split; reflexivity).
  destruct (performWebSearch_returns (world env) q) as [found Hfound].
  exists found. split; [exact Hfound|].
  unfold performWebSearchWithRetry, withRetry. cbn [retryFrom].
  by rewrite Hfound.
Qed.

End Stages.

(** ** Generation stages and their fallbacks *)

Section Generation.
Import JS SearchService ResearchRoute Spec Props.

Lemma citationOf_absent (env : Env) (results : list SearchResult)
  (index : nat) (citation : JSValue) :
  citation = JNull \/ citation = JUndefined ->
  citationOf env results index citation = Throw.
Proof. by intros [-> | ->]. Qed.

(** X11: the citations stage returns exactly the locally generated
    citations whenever the provider's reply cannot be used: the call
    failed, the reply has no bracketed span, the span does not parse, it
    parses to something that is not an array, or the array holds a [null]
    or missing element. *)
Theorem generateCitations_falls_back (env : Env)
  (results : list SearchResult) (style : string) :
  generateCitations env Throw results style
  = Return (generateFallbackCitations env results style)
  /\ (forall text,
        jsonMatch text = None ->
        generateCitations env (Return text) results style
        = Return (generateFallbackCitations env results style))
  /\ (forall text matched,
        jsonMatch text = Some matched ->
        JSON_parse env matched = Throw ->
        generateCitations env (Return text) results style
        = Return (generateFallbackCitations env results style))
  /\ (forall text matched value,
        jsonMatch text = Some matched ->
        JSON_parse env matched = Return value ->
        (forall items, value <> JArr items) ->
        generateCitations env (Return text) results style
        = Return (generateFallbackCitations env results style))
  /\ (forall text matched items,
        jsonMatch text = Some matched ->
        JSON_parse env matched = Return (JArr items) ->
        Exists (fun item => item = JNull \/ item = JUndefined) items ->
        generateCitations env (Return text) results style
        = Return (generateFallbackCitations env results style)).
Proof.
  unfold generateCitations. split_and!; [done|..].
  - intros text Hm. cbn [bind]. by rewrite Hm.
  - intros text matched Hm Hp. cbn [bind]. by rewrite Hm, Hp.
  - intros text matched value Hm Hp Hv. cbn [bind]. rewrite Hm, Hp.
    cbn [bind]. destruct value; try done. by destruct (Hv items).
  - intros text matched items Hm Hp Hex. cbn [bind]. rewrite Hm, Hp.
    cbn [bind]. unfold mapMi.
    rewrite (mapMi_from_Exists_throw (citationOf env results) _ items
               (fun j x => citationOf_absent env results j x) Hex 0%nat).
    reflexivity.
Qed.

(** A reply in prose, without any bracket. *)
Lemma generateCitations_falls_back_witness :
  generateCitations Examples.plain_env (Return "No citations available.")
    Examples.candidates "apa"
  = Return (generateFallbackCitations Examples.plain_env
              Examples.candidates "apa").
Proof.
  apply (proj1 (proj2 (generateCitations_falls_back Examples.plain_env
                         Examples.candidates "apa"))).
  reflexivity.
Defined.

Lemma long_strings_In (bound : nat) (items : list JSValue) (s : string) :
  In s (long_strings bound items)
  <-> In (JStr s) items /\ (bound < code_units (trim s))%nat.
Proof.
  unfold long_strings. induction items as [|v items IH]; simpl.
  - tauto.
  - unfold omap in IH.
    destruct v as [| | | |t| |]; try (rewrite IH; split; [tauto|];
      intros [[Hv|Hin] Hlen]; [discriminate|tauto]).
    destruct (bound <? code_units (trim t))%nat eqn:Hb; simpl.
    + apply Nat.ltb_lt in Hb. rewrite IH. split.
      * intros [->|[Hin Hlen]]; [by split; [left|]|tauto].
      * intros [[[= ->]|Hin] Hlen]; [by left|tauto].
    + apply Nat.ltb_ge in Hb. rewrite IH. split; [tauto|].
      intros [[[= ->]|Hin] Hlen]; [lia|tauto].
Qed.

Lemma long_strings_sublist (bound : nat) (items : list JSValue) :
  sublist (map JStr (long_strings bound items)) items.
Proof.
  unfold long_strings. induction items as [|v items IH]; simpl.
  - constructor.
  - unfold omap in IH.
    destruct v as [| | | |t| |]; try (by apply sublist_cons).
    destruct (bound <? code_units (trim t))%nat; simpl.
    + by apply sublist_skip.
    + by apply sublist_cons.
Qed.

(** X12: when the reply's bracketed span parses to an array, the insights
    are exactly its string elements whose trimmed text is longer than 10
    UTF-16 code units, and the related topics those whose trimmed text is
    longer than 5, unchanged and in the order of the array; other elements
    are dropped, and an array without such strings gives an empty list
    rather than the fallback.  The trimmed text is the element without the
    white space, of any script, at its two ends. *)
Theorem extraction_keeps_long_strings (env : Env) (text matched : string)
  (items : list JSValue) (summary q : string) :
  jsonMatch text = Some matched ->
  JSON_parse env matched = Return (JArr items) ->
  exists insights topics,
    extractInsights env (Return text) summary = Return insights
    /\ generateRelatedTopics env (Return text) q = Return topics
    /\ (forall s, In s insights
                  <-> In (JStr s) items /\ (10 < code_units (trim s))%nat)
    /\ (forall s, In s topics
                  <-> In (JStr s) items /\ (5 < code_units (trim s))%nat)
    /\ sublist (map JStr insights) items
    /\ sublist (map JStr topics) items
    /\ (forall s,
          trimmed (trim s)
          /\ exists a b, blank a /\ blank b /\ s = a +:+ trim s +:+ b).
Proof.
  intros Hm Hp. exists (long_strings 10 items), (long_strings 5 items).
  unfold extractInsights, generateRelatedTopics. cbn [bind].
  rewrite Hm, Hp. cbn [bind try_catch]. split_and!; try done.
  - apply long_strings_In.
  - apply long_strings_In.
  - apply long_strings_sublist.
  - apply long_strings_sublist.
  - intros s. split; [apply trim_trimmed|apply trim_spec].
Qed.

(** An array of four strings and a number.  The word between two NO-BREAK
    SPACEs and the word of six Cyrillic letters count six code units each:
    they are topics, not insights. *)
Lemma extraction_keeps_long_strings_witness :
  exists insights topics,
    extractInsights Scenarios.listing_env (Return Scenarios.listing) "summary"
    = Return insights
    /\ generateRelatedTopics Scenarios.listing_env (Return Scenarios.listing)
         "graphene"
       = Return topics
    /\ In "Anodes and cathodes" insights
    /\ ~ In Scenarios.padded insights
    /\ ~ In Scenarios.cyrillic insights
    /\ In Scenarios.padded topics
    /\ In Scenarios.cyrillic topics.
Proof.
  destruct (extraction_keeps_long_strings Scenarios.listing_env
              Scenarios.listing Scenarios.listing
              [ JStr "Graphene conducts heat and electricity";
                JStr Scenarios.padded; JNum 3; JStr Scenarios.cyrillic;
                JStr "Anodes and cathodes" ]
              "summary" "graphene" eq_refl eq_refl)
    as (insights & topics & Hi & Ht & Hin & Hin' & _).
  exists insights, topics. split_and!; [exact Hi|exact Ht|..].
  - apply Hin. vm_compute. intuition lia.
  - rewrite Hin. vm_compute. intuition lia.
  - rewrite Hin. vm_compute. intuition lia.
  - apply Hin'. vm_compute. intuition lia.
  - apply Hin'. vm_compute. intuition lia.
Defined.

Lemma toString_inj (n m : nat) : toString n = toString m -> n = m.
Proof.
  intros H. apply (f_equal parseInt10) in H.
  rewrite !parseInt10_toString in H. injection H. lia.
Qed.

Lemma NoDup_imap_inj {A B} (f : nat -> A -> B) (l : list A) :
  (forall i j x y, f i x = f j y -> i = j) -> List.NoDup (imap f l).
Proof.
  revert f. induction l as [|a l IH]; intros f Hf; cbn [imap].
  - constructor.
  - constructor.
    + intros Hin. apply In_imap in Hin as (j & x & _ & Heq).
      apply Hf in Heq. discriminate.
    + apply IH. intros i j x y Heq. apply Hf in Heq. by injection Heq.
Qed.

Lemma map_imap {A B C} (g : B -> C) (l : list A) :
  forall f : nat -> A -> B,
    map g (imap f l) = imap (fun i x => g (f i x)) l.
Proof.
  induction l as [|a l IH]; intros f; cbn [imap map]; [done|].
  f_equal. apply IH.
Qed.

Lemma fallbackCitation_fields (env : Env) (style : string) (i : nat)
  (source : SearchResult) :
  let c := fallbackCitation env style i source in
  id c = JStr ("cite-" +:+ toString (i + 1))
  /\ type c = JStr (determineSourceType (domain source))
  /\ year c = JStr (extractYear env (published_date source))
  /\ authors c
     = JArr [JStr (or_str (SearchService.author source) "Unknown")].
Proof.
  cbn zeta. unfold fallbackCitation.
  by repeat (destruct (String.eqb style _)).
Qed.

(** X13: the local producer gives one citation per source, in source
    order; the i-th has id [cite-(i+1)], so the ids are pairwise distinct,
    and its type, year and author list do not depend on the style. *)
Theorem generateFallbackCitations_ids (env : Env)
  (sources : list SearchResult) (style : string) :
  let citations := generateFallbackCitations env sources style in
  length citations = length sources
  /\ List.NoDup (map id citations)
  /\ forall i source,
       nth_error sources i = Some source ->
       exists c,
         nth_error citations i = Some c
         /\ id c = JStr ("cite-" +:+ toString (i + 1))
         /\ type c = JStr (determineSourceType (domain source))
         /\ year c = JStr (extractYear env (published_date source))
         /\ authors c
            = JArr [JStr (or_str (SearchService.author source) "Unknown")].
Proof.
  cbn zeta. unfold generateFallbackCitations. split_and!.
  - apply length_imap.
  - rewrite map_imap. apply NoDup_imap_inj. intros i j x y.
    destruct (fallbackCitation_fields env style i x) as (-> & _).
    destruct (fallbackCitation_fields env style j y) as (-> & _).
    intros [= Heq]. apply toString_inj in Heq. lia.
  - intros i source Hsource. exists (fallbackCitation env style i source).
    split; [by rewrite nth_error_imap, Hsource|].
    apply fallbackCitation_fields.
Qed.

Lemma generateFallbackCitations_ids_witness :
  length (generateFallbackCitations Examples.plain_env Examples.candidates
            "ieee") = 2%nat.
Proof.
  apply (proj1 (generateFallbackCitations_ids Examples.plain_env
                  Examples.candidates "ieee")).
Defined.

Lemma split_sentences_from_clean (s : string) :
  forall current in_run,
    forallb is_sentence_text current = true ->
    Forall (fun piece => every is_sentence_text piece = true)
           (split_sentences_from s current in_run).
Proof.
  induction s as [|c s IH]; intros current in_run Hcur;
    cbn [split_sentences_from].
  - constructor; [|constructor]. by rewrite every_of_list.
  - destruct (is_sentence_end c) eqn:Hc.
    + destruct in_run; [by apply IH|].
      constructor; [by rewrite every_of_list|]. by apply IH.
    + apply IH. cbn [forallb]. unfold is_sentence_text at 1.
      by rewrite Hc.
Qed.

(** X14: the insights taken from a summary are at most six; each is
    longer than 20 UTF-16 code units, has no white space of any script at
    either end and contains none of the sentence terminators [.], [!] and
    [?].  Of a summary of three sentences, the first of thirteen Cyrillic
    characters, the second of 38 characters between two NO-BREAK SPACEs,
    the third of five characters, the second alone is kept, without the
    spaces around it. *)
Theorem extractInsightsFromSummary_shape (summary : string) :
  (length (extractInsightsFromSummary summary) <= 6)%nat
  /\ Forall (fun insight =>
               (20 < code_units insight)%nat
               /\ trimmed insight
               /\ every is_sentence_text insight = true)
            (extractInsightsFromSummary summary)
  /\ extractInsightsFromSummary Scenarios.mixed_summary
     = ["Graphene conducts heat and electricity"].
Proof.
  unfold extractInsightsFromSummary. split_and!.
  - rewrite length_map. apply length_firstn_le.
  - apply List.Forall_forall. intros insight Hin.
    apply in_map_iff in Hin as (piece & <- & Hpiece).
    assert (In piece (List.filter
                        (fun s => (20 <? code_units (trim s))%nat)
                        (split_sentences summary))) as Hf.
    { rewrite <- (firstn_skipn 6 (List.filter _ _)).
      apply in_or_app. by left. }
    apply filter_In in Hf as [Hsplit Hlen]. apply Nat.ltb_lt in Hlen.
    split_and!; [done|apply trim_trimmed|].
    apply every_trim.
    pose proof (split_sentences_from_clean summary [] false eq_refl) as Hall.
    by apply (proj1 (List.Forall_forall _ _) Hall).
  - by vm_compute.
Qed.

(** X15: the extraction applied to its own result returns it unchanged,
    and the extracted text occurs in the reply; a reply without opening
    bracket, or without closing bracket, has no bracketed span. *)
Theorem jsonMatch_idempotent (text : string) :
  (forall matched,
     jsonMatch text = Some matched ->
     jsonMatch matched = Some matched /\ includes matched text = true)
  /\ (occurs "[" text = false -> jsonMatch text = None)
  /\ (occurs "]" text = false -> jsonMatch text = None).
Proof.
  split_and!.
  - intros matched Hm.
    apply jsonMatch_spans in Hm as (before & inner & after & -> & -> & _).
    split.
    + apply jsonMatch_spans. exists "", inner, "".
      by split_and!.
    + replace ("[" +:+ inner +:+ "]" +:+ after)
        with (("[" +:+ inner +:+ "]") +:+ after)
        by (by rewrite !append_assoc).
      apply includes_append.
  - intros Hno. destruct (jsonMatch text) as [matched|] eqn:Hm; [|done].
    apply jsonMatch_spans in Hm as (before & inner & after & -> & _).
    rewrite occurs_append in Hno. apply orb_false_elim in Hno as [_ Hno].
    rewrite append_String in Hno. cbn in Hno. discriminate.
  - intros Hno. destruct (jsonMatch text) as [matched|] eqn:Hm; [|done].
    apply jsonMatch_spans in Hm as (before & inner & after & -> & _).
    rewrite !occurs_append in Hno.
    apply orb_false_elim in Hno as [_ Hno].
    apply orb_false_elim in Hno as [_ Hno].
    apply orb_false_elim in Hno as [_ Hno].
    cbn in Hno. discriminate.
Qed.

Lemma jsonMatch_idempotent_witness :
  jsonMatch "[{}, {}]" = Some "[{}, {}]".
Proof.
  apply (proj1 (jsonMatch_idempotent Examples.wrapped_reply) "[{}, {}]").
  reflexivity.
Defined.

End Generation.

(** ** Paging: cursors, page sizes and the provider clients *)

Section PagingProperties.
Import JS Normalizers Paging WorksRoutes Spec Props.

Lemma toStringZ_truthy (z : Z) : truthy (toStringZ z) = true.
Proof.
  unfold toStringZ. destruct (z <? 0)%Z; [done|apply toString_truthy].
Qed.

Lemma or_undefined_Some (a : option string) (s : string) :
  or_undefined a = Some s -> a = Some s /\ truthy s = true.
Proof.
  unfold or_undefined, or_opt. destruct a as [t|]; [|discriminate].
  destruct (truthy t) eqn:Ht; [|discriminate]. by intros [= <-].
Qed.

Lemma or_undefined_None (a : option string) :
  or_undefined a = None <-> a = None \/ a = Some "".
Proof.
  unfold or_undefined, or_opt. destruct a as [[|c t]|]; simpl.
  - split; [by right|done].
  - split; [done|by intros [|]].
  - split; [by left|done].
Qed.

Lemma or_undefined_truthy (s : string) :
  truthy s = true -> or_undefined (Some s) = Some s.
Proof. unfold or_undefined, or_opt. by intros ->. Qed.

(** X16: for an integer offset [start] and an integer page size [perPage]
    of at most 2^52 in absolute value and a page of at most 2^52 entries
    (the sums are exact there), an arXiv page has no next cursor exactly
    when the feed states no total, the total is [NaN], or the page reaches
    the total; otherwise the cursor is the decimal text of
    [start + perPage].  The route that receives that text as [cursor] of a
    follow-up request without [start] calls the service with the offset
    [start + perPage] when that is not negative, and with 0 when it is. *)
Theorem arxiv_cursor_round_trip (entries : list ArxivEntry)
  (total : option Number) (start perPage : Z) :
  (- 2 ^ 52 <= start <= 2 ^ 52)%Z ->
  (- 2 ^ 52 <= perPage <= 2 ^ 52)%Z ->
  (Z.of_nat (length entries) <= 2 ^ 52)%Z ->
  let page :=
    normalizeArxivResponse entries total (Int start) (Int perPage) in
  (nextCursor page = None
   <-> total = None \/ total = Some NaN
       \/ exists t, total = Some (Int t)
                    /\ (t <= start + Z.of_nat (length entries))%Z)
  /\ (forall c, nextCursor page = Some c -> c = toStringZ (start + perPage))
  /\ forall c searchParams,
       nextCursor page = Some c ->
       missing_query (query_of searchParams) = false ->
       searchParams "start" = None ->
       searchParams "cursor" = Some c ->
       exists request,
         (forall A service (result : A),
             service request = Return result ->
             arxiv_GET service searchParams = Json result)
         /\ (forall A (service : WorksRequest -> Exc A),
                service request = Throw ->
                arxiv_GET service searchParams = ServerError)
         /\ ((0 <= start + perPage)%Z ->
             WorksRoutes.start request = (start + perPage)%Z)
         /\ ((start + perPage < 0)%Z -> WorksRoutes.start request = 0%Z).
Proof.
  intros _ _ _ page. subst page. unfold normalizeArxivResponse.
  cbn [nextCursor plus less].
  assert (forall c,
             match total with
             | Some t =>
                 if less (Int (start + Z.of_nat (length entries))) t
                 then Some (toStringZ (start + perPage)) else None
             | None => None
             end = Some c -> c = toStringZ (start + perPage)) as Hcursor.
  { intros c. destruct total as [t|]; [|discriminate].
    destruct (less _ t); [|discriminate]. by intros [= <-]. }
  split_and!.
  - destruct total as [[t|]|]; cbn [less].
    + destruct (start + Z.of_nat (length entries) <? t)%Z eqn:Hlt.
      * apply Z.ltb_lt in Hlt. split; [done|].
        intros [|[|(t' & [= <-] & Hle)]]; [done|done|lia].
      * apply Z.ltb_ge in Hlt. split; [|done]. intros _.
        right. right. by exists t.
    + split; [intros _; by right; left|done].
    + split; [by left|done].
  - exact Hcursor.
  - intros c searchParams Hc Hq Hstart Hparam.
    apply Hcursor in Hc as ->.
    unfold arxiv_GET. rewrite Hq. eexists. split_and!.
    + intros A service result Hresult. unfold respond. by rewrite Hresult.
    + intros A service Hthrow. unfold respond. by rewrite Hthrow.
    + intros Hpos. cbn [WorksRoutes.start].
      rewrite Hstart, Hparam. cbn [or_opt]. unfold startOffset.
      rewrite (or_undefined_truthy _ (toStringZ_truthy _)).
      rewrite parseInt10_toStringZ. lia.
    + intros Hneg. cbn [WorksRoutes.start].
      rewrite Hstart, Hparam. cbn [or_opt]. unfold startOffset.
      rewrite (or_undefined_truthy _ (toStringZ_truthy _)).
      rewrite parseInt10_toStringZ. lia.
Qed.

(** Five of twelve entries are on the first page: the follow-up request
    asks for the offset 5. *)
Lemma arxiv_cursor_round_trip_witness :
  nextCursor (normalizeArxivResponse
                (map Scenarios.arxiv_entry ["a"; "b"; "c"; "d"; "e"])
                (Some (Int 12)) (Int 0) (Int 5)) = Some "5"
  /\ exists request,
       (forall A service (result : A),
           service request = Return result ->
           arxiv_GET service (Scenarios.arxiv_follow_up "5") = Json result)
       /\ WorksRoutes.start request = 5%Z.
Proof.
  split; [reflexivity|].
  destruct (proj2 (proj2 (arxiv_cursor_round_trip
                   (map Scenarios.arxiv_entry ["a"; "b"; "c"; "d"; "e"])
                   (Some (Int 12)) 0 5 ltac:(lia) ltac:(lia)
                   ltac:(simpl; lia))) "5"
                (Scenarios.arxiv_follow_up "5") eq_refl eq_refl eq_refl
                eq_refl)
    as (request & Hjson & _ & Hstart & _).
  exists request. split; [exact Hjson|]. apply Hstart. lia.
Defined.

Lemma param_app (name : string) (a b : Query) :
  param name (a ++ b)
  = match param name a with
    | Some v => Some v
    | None => param name b
    end.
Proof.
  induction a as [|[k v] a IH]; simpl; [done|].
  by destruct (String.eqb k name).
Qed.

Lemma param_set_if (name key : string) (value : option string) :
  param name (set_if key value)
  = if String.eqb key name then or_undefined value else None.
Proof.
  unfold set_if. destruct (or_undefined value); simpl;
    by destruct (String.eqb key name).
Qed.

Lemma size_param_client (name : string) (maximum : Z)
  (size : option Number) (request : Query) :
  (1 <= maximum)%Z ->
  integer_or_missing size ->
  param name request
  = Some (numberToString (client_size maximum (default_size size))) ->
  size_param name maximum request.
Proof.
  intros Hmax Hsize Hparam.
  assert (exists z, default_size size = Int z) as [z Hz].
  { destruct size as [[z|]|]; [by exists z|by destruct Hsize|by exists 25%Z]. }
  rewrite Hz in Hparam. cbn in Hparam.
  exists (toStringZ (Z.max 1 (Z.min z maximum))), (Z.max 1 (Z.min z maximum)).
  split; [done|]. split; [apply parseInt10_toStringZ|lia].
Qed.

Lemma size_param_NaN (maximum : Z) :
  numberToString (client_size maximum (default_size (Some NaN))) = "NaN".
Proof. reflexivity. Qed.

(** X17: when the caller passes an integer size, or none, each provider
    client asks its upstream for between 1 and 200 items (100 for Europe
    PMC), and arXiv, for an integer offset or none, for a non-negative
    offset; a size or an offset that is [NaN] is sent upstream as the text
    [NaN].  Crossref and Europe PMC always send a cursor, the sentinel [*]
    standing for a missing or empty one; OpenAlex sends the cursor only
    when it is non-empty. *)
Theorem clients_bound_their_requests (mailto : option string)
  (op : OpenAlexParams) (cp : CrossrefParams) (ep : EuropePmcParams)
  (ap : ArxivParams) :
  (integer_or_missing (oq_perPage op) ->
   size_param "per-page" 200 (openalexQuery mailto op))
  /\ (integer_or_missing (cq_rows cp) ->
      size_param "rows" 200 (crossrefQuery mailto cp))
  /\ (integer_or_missing (eq_pageSize ep) ->
      size_param "pageSize" 100 (europePmcQuery ep))
  /\ (integer_or_missing (aq_maxResults ap) ->
      size_param "max_results" 200 (arxivQuery ap))
  /\ (integer_or_missing (aq_start ap) ->
      exists value n, param "start" (arxivQuery ap) = Some value
                      /\ parseInt10 value = Some n /\ (0 <= n)%Z)
  /\ (oq_perPage op = Some NaN ->
      param "per-page" (openalexQuery mailto op) = Some "NaN")
  /\ (cq_rows cp = Some NaN ->
      param "rows" (crossrefQuery mailto cp) = Some "NaN")
  /\ (eq_pageSize ep = Some NaN ->
      param "pageSize" (europePmcQuery ep) = Some "NaN")
  /\ (aq_maxResults ap = Some NaN ->
      param "max_results" (arxivQuery ap) = Some "NaN")
  /\ (aq_start ap = Some NaN ->
      param "start" (arxivQuery ap) = Some "NaN")
  /\ param "cursor" (openalexQuery mailto op) = or_undefined (oq_cursor op)
  /\ param "cursor" (crossrefQuery mailto cp)
     = Some (or_str (cq_cursor cp) "*")
  /\ param "cursorMark" (europePmcQuery ep)
     = Some (or_str (eq_cursor ep) "*").
Proof.
  split_and!.
  - intros H. by eapply size_param_client.
  - intros H. by eapply size_param_client.
  - intros H. by eapply size_param_client.
  - intros H. by eapply size_param_client.
  - intros H. unfold arxivQuery. cbn [param app String.eqb Ascii.eqb].
    destruct (aq_start ap) as [[z|]|]; [|by destruct H|].
    + exists (toStringZ (Z.max 0 z)), (Z.max 0 z).
      split; [reflexivity|]. split; [apply parseInt10_toStringZ|lia].
    + exists "0", 0%Z. by split_and!.
  - intros H. unfold openalexQuery. by rewrite H.
  - intros H. unfold crossrefQuery. by rewrite H.
  - intros H. unfold europePmcQuery. by rewrite H.
  - intros H. unfold arxivQuery. by rewrite H.
  - intros H. unfold arxivQuery. by rewrite H.
  - unfold openalexQuery. rewrite !param_app, !param_set_if. simpl.
    by destruct (or_undefined (oq_cursor op)).
  - unfold crossrefQuery. rewrite !param_app, !param_set_if. by simpl.
  - reflexivity.
Qed.

(** A caller asking Crossref for 500 rows, and one asking for [NaN]. *)
Lemma clients_bound_their_requests_witness :
  size_param "rows" 200 (crossrefQuery None Scenarios.crossref_first_page)
  /\ param "rows"
       (crossrefQuery None
          {| cq_query := "open access"; cq_cursor := None;
             cq_rows := Some NaN; cq_filter := None |})
     = Some "NaN".
Proof.
  split.
  - apply (clients_bound_their_requests None
             {| oq_query := "q"; oq_cursor := None; oq_perPage := None;
                oq_filter := None |}
             Scenarios.crossref_first_page
             {| eq_query := "q"; eq_cursor := None; eq_pageSize := None;
                eq_resultType := None |}
             {| aq_query := "q"; aq_start := None; aq_maxResults := None;
                aq_sortBy := None; aq_sortOrder := None |}).
    discriminate.
  - apply (clients_bound_their_requests None
             {| oq_query := "q"; oq_cursor := None; oq_perPage := None;
                oq_filter := None |}
             {| cq_query := "open access"; cq_cursor := None;
                cq_rows := Some NaN; cq_filter := None |}
             {| eq_query := "q"; eq_cursor := None; eq_pageSize := None;
                eq_resultType := None |}
             {| aq_query := "q"; aq_start := None; aq_maxResults := None;
                aq_sortBy := None; aq_sortOrder := None |}).
    reflexivity.
Defined.

(** X18: a provider client never turns a failed request into a page: it
    throws when the request is rejected or the response is not OK.  A page
    of Crossref or Europe PMC has no next cursor exactly when the upstream
    cursor is missing or empty, and a next cursor that is passed to the
    client again is sent upstream unchanged, never as the sentinel. *)
Theorem clients_fail_loudly_and_follow_cursors
  (mailto : option string) (cp : CrossrefParams) (ep : EuropePmcParams)
  (crossref_fetch : Query -> SearchService.Fetch CrossrefData)
  (europepmc_fetch : Query -> SearchService.Fetch EuropePmcData) :
  ((forall data, crossref_fetch (crossrefQuery mailto cp)
                 <> SearchService.Ok data) ->
   crossrefWorksSearch crossref_fetch mailto cp = Throw)
  /\ ((forall data, europepmc_fetch (europePmcQuery ep)
                    <> SearchService.Ok data) ->
      europePmcSearch europepmc_fetch ep = Throw)
  /\ (forall data,
        crossref_fetch (crossrefQuery mailto cp) = SearchService.Ok data ->
        exists page,
          crossrefWorksSearch crossref_fetch mailto cp = Return page
          /\ (nextCursor page = None
              <-> cr_next_cursor data = None \/ cr_next_cursor data = Some "")
          /\ forall c cp',
               nextCursor page = Some c -> cq_cursor cp' = Some c ->
               param "cursor" (crossrefQuery mailto cp') = Some c)
  /\ (forall data,
        europepmc_fetch (europePmcQuery ep) = SearchService.Ok data ->
        exists page,
          europePmcSearch europepmc_fetch ep = Return page
          /\ (nextCursor page = None
              <-> ep_nextCursorMark data = None
                  \/ ep_nextCursorMark data = Some "")
          /\ forall c ep',
               nextCursor page = Some c -> eq_cursor ep' = Some c ->
               param "cursorMark" (europePmcQuery ep') = Some c).
Proof.
  split_and!.
  - intros Hfail. unfold crossrefWorksSearch.
    destruct (crossref_fetch _) as [| |data]; try done. by destruct (Hfail data).
  - intros Hfail. unfold europePmcSearch.
    destruct (europepmc_fetch _) as [| |data]; try done.
    by destruct (Hfail data).
  - intros data Hdata. unfold crossrefWorksSearch. rewrite Hdata.
    eexists. split; [reflexivity|]. cbn [normalizeCrossrefResponse nextCursor].
    split; [apply or_undefined_None|].
    intros c cp' Hc Hcp'. apply or_undefined_Some in Hc as [Hc Ht].
    unfold crossrefQuery. rewrite !param_app, !param_set_if. simpl.
    rewrite Hcp'. unfold or_str. by rewrite Ht.
  - intros data Hdata. unfold europePmcSearch. rewrite Hdata.
    eexists. split; [reflexivity|].
    cbn [normalizeEuropePmcResponse nextCursor].
    split; [apply or_undefined_None|].
    intros c ep' Hc Hep'. apply or_undefined_Some in Hc as [Hc Ht].
    unfold europePmcQuery. simpl. rewrite Hep'. unfold or_str.
    by rewrite Ht.
Qed.

(** The cursor of the first Crossref page opens the second. *)
Lemma clients_fail_loudly_and_follow_cursors_witness :
  exists page,
    crossrefWorksSearch Scenarios.crossref_fetch None
      Scenarios.crossref_first_page = Return page
    /\ param "cursor"
         (crossrefQuery None (Scenarios.crossref_next_page "AoJ/next"))
       = Some "AoJ/next".
Proof.
  pose proof (clients_fail_loudly_and_follow_cursors None
                Scenarios.crossref_first_page
                {| eq_query := "open access"; eq_cursor := None;
                   eq_pageSize := None; eq_resultType := None |}
                Scenarios.crossref_fetch (fun _ => SearchService.Rejected))
    as (_ & _ & Hcrossref & _).
  destruct (Hcrossref _ eq_refl) as (page & Hpage & _ & Hnext).
  exists page. split; [exact Hpage|].
  apply Hnext; [|reflexivity].
  injection Hpage as <-. reflexivity.
Defined.

End PagingProperties.

(** ** Normalizers: abstracts, DOIs and author lists *)

Section NormalizerProperties.
Import JS Normalizers Authors Spec Props.

Lemma sorted_unique (l1 : list Position) :
  forall l2,
    StronglySorted (fun a b => (pos a <= pos b)%Z) l1 ->
    StronglySorted (fun a b => (pos a < pos b)%Z) l2 ->
    Permutation l1 l2 -> l1 = l2.
Proof.
  induction l1 as [|a l1 IH]; intros l2 H1 H2 Hp.
  - by apply Permutation_nil in Hp.
  - destruct l2 as [|b l2];
      [apply Permutation_sym, Permutation_nil in Hp; discriminate|].
    apply StronglySorted_inv in H1 as [H1 Ha].
    apply StronglySorted_inv in H2 as [H2 Hb].
    assert (a = b) as ->.
    { assert (In a (b :: l2)) as Hin1
        by (eapply Permutation_in; [exact Hp|by left]).
      assert (In b (a :: l1)) as Hin2
        by (eapply Permutation_in; [symmetry; exact Hp|by left]).
      destruct Hin1 as [->|Hin1]; [done|].
      destruct Hin2 as [->|Hin2]; [done|].
      pose proof (proj1 (List.Forall_forall _ _) Hb a Hin1).
      pose proof (proj1 (List.Forall_forall _ _) Ha b Hin2).
      cbv beta in *. lia. }
    f_equal. apply IH; [done|done|]. by apply Permutation_cons_inv in Hp.
Qed.

Lemma numbered_above (words : list string) :
  forall k, Forall (fun p => (k <= pos p)%Z) (numbered k words).
Proof.
  induction words as [|w words IH]; intros k; cbn [numbered]; constructor.
  - simpl. lia.
  - eapply Forall_impl; [apply (IH (k + 1)%Z)|]. intros p Hp. simpl in Hp. lia.
Qed.

Lemma numbered_sorted (words : list string) :
  forall k, StronglySorted (fun a b => (pos a < pos b)%Z) (numbered k words).
Proof.
  induction words as [|w words IH]; intros k; cbn [numbered]; constructor.
  - apply IH.
  - eapply Forall_impl; [apply (numbered_above words (k + 1)%Z)|].
    intros p Hp. simpl in *. lia.
Qed.

Lemma numbered_words (words : list string) :
  forall k, map word (numbered k words) = words.
Proof.
  induction words as [|w words IH]; intros k; cbn [numbered map]; [done|].
  by rewrite IH.
Qed.

Lemma by_pos_total (a b : Position) :
  by_pos a b = true \/ by_pos b a = true.
Proof. rewrite !by_pos_le. lia. Qed.

Lemma by_pos_trans (a b c : Position) :
  by_pos a b = true -> by_pos b c = true -> by_pos a c = true.
Proof. rewrite !by_pos_le. lia. Qed.

(** X19: reconstruction inverts indexing.  When the inverted index holds
    the words of a text at their positions 0, 1, 2, ..., in whatever order
    of keys and positions, the reconstructed abstract is the text: its
    words joined by single spaces.  A work whose [abstract] is
    missing or empty gets this text as its abstract. *)
Theorem reconstructAbstract_round_trip (entries : list (string * list Z))
  (words : list string) :
  indexes entries words ->
  reconstructAbstractFromInvertedIndex (Some entries)
  = Some (join " " words)
  /\ forall work,
       or_undefined (oa_abstract work) = None ->
       oa_abstract_inverted_index work = Some entries ->
       abstract (normalizeOpenAlexWork work) = Some (join " " words).
Proof.
  intros Hindex.
  assert (sort by_pos (collect_positions entries) = numbered 0 words)
    as Hsorted.
  { apply sorted_unique.
    - eapply StronglySorted_weaken;
        [|apply (sort_StronglySorted by_pos by_pos_total by_pos_trans)].
      intros a b. apply by_pos_le.
    - apply numbered_sorted.
    - rewrite sort_Permutation. exact Hindex. }
  assert (reconstructAbstractFromInvertedIndex (Some entries)
          = Some (join " " words)) as Hr.
  { unfold reconstructAbstractFromInvertedIndex.
    by rewrite Hsorted, numbered_words. }
  split; [exact Hr|].
  intros work Habs Hidx. unfold normalizeOpenAlexWork. cbn [abstract].
  rewrite Hidx, Hr.
  apply or_undefined_None in Habs as [-> | ->]; reflexivity.
Qed.

(** The index lists the words in alphabetical order. *)
Lemma reconstructAbstract_round_trip_witness :
  reconstructAbstractFromInvertedIndex (Some Scenarios.quick_brown_fox)
  = Some "quick brown fox".
Proof.
  refine (proj1 (reconstructAbstract_round_trip Scenarios.quick_brown_fox
                   ["quick"; "brown"; "fox"] _)).
  unfold indexes. simpl.
  apply (perm_trans (l' := [ {| pos := 1; word := "brown" |};
                             {| pos := 0; word := "quick" |};
                             {| pos := 2; word := "fox" |} ])).
  - apply perm_skip, perm_swap.
  - apply perm_swap.
Defined.

Lemma substring_all (s : string) : substring 0 (String.length s) s = s.
Proof. induction s as [|c s IH]; simpl; [done|]. by rewrite IH. Qed.

Lemma substring_skip (a b : string) :
  substring (String.length a) (String.length b) (a +:+ b) = b.
Proof.
  induction a as [|c a IH]; [apply substring_all|].
  rewrite append_String. simpl. exact IH.
Qed.

Lemma strip_doi_resolver_https (d : string) :
  strip_doi_resolver ("https://doi.org/" +:+ d) = d.
Proof.
  unfold strip_doi_resolver. rewrite prefix_append, length_append.
  replace (String.length "https://doi.org/" + String.length d - 16)%nat
    with (String.length d) by (simpl; lia).
  apply (substring_skip "https://doi.org/" d).
Qed.

Lemma strip_doi_resolver_http (d : string) :
  strip_doi_resolver ("http://doi.org/" +:+ d) = d.
Proof.
  unfold strip_doi_resolver.
  assert (String.prefix "https://doi.org/" ("http://doi.org/" +:+ d) = false)
    as -> by (by repeat rewrite append_String).
  rewrite prefix_append, length_append.
  replace (String.length "http://doi.org/" + String.length d - 15)%nat
    with (String.length d) by (simpl; lia).
  apply (substring_skip "http://doi.org/" d).
Qed.

(** X20: OpenAlex reports a DOI as a resolver url; the normalizer strips
    the [https://doi.org/] or [http://doi.org/] prefix, so its [doi] is the
    bare DOI that Crossref and Europe PMC report, and a work without
    landing page gets the [https] resolver url of its DOI, which is the id
    that the other two providers give the record. *)
Theorem doi_agrees_across_providers (work : OpenAlexWork) (d : string) :
  d <> "" ->
  oa_doi work = Some ("https://doi.org/" +:+ d)
  \/ oa_doi work = Some ("http://doi.org/" +:+ d) ->
  doi (normalizeOpenAlexWork work) = Some d
  /\ (or_undefined (oa_landing_page_url work) = None ->
      or_undefined (oa_oa_url work) = None ->
      url (normalizeOpenAlexWork work) = Some ("https://doi.org/" +:+ d))
  /\ (forall item,
        cr_DOI item = Some d ->
        doi (normalizeCrossrefItem item) = doi (normalizeOpenAlexWork work)
        /\ id (normalizeCrossrefItem item) = Some ("https://doi.org/" +:+ d))
  /\ (forall item,
        ep_doi item = Some d ->
        doi (normalizeEuropePmcItem item) = doi (normalizeOpenAlexWork work)
        /\ id (normalizeEuropePmcItem item)
           = Some ("https://doi.org/" +:+ d)).
Proof.
  intros Hd Hdoi.
  assert (truthy d = true) as Ht by (by destruct d).
  assert (or_undefined (option_map strip_doi_resolver (oa_doi work)) = Some d)
    as Hstrip.
  { destruct Hdoi as [-> | ->]; cbn [option_map];
      rewrite ?strip_doi_resolver_https, ?strip_doi_resolver_http;
      by apply or_undefined_truthy. }
  unfold normalizeOpenAlexWork, normalizeCrossrefItem, normalizeEuropePmcItem.
  cbn [doi url id]. rewrite Hstrip. split_and!.
  - done.
  - intros Hl Ho. unfold or_undefined in Hl, Ho.
    destruct (oa_landing_page_url work) as [l|]; cbn [or_opt] in *.
    + destruct (truthy l); [discriminate|].
      destruct (oa_oa_url work) as [o|]; cbn [or_opt] in *; [|done].
      by destruct (truthy o).
    + destruct (oa_oa_url work) as [o|]; cbn [or_opt] in *; [|done].
      by destruct (truthy o).
  - intros item ->. by rewrite (or_undefined_truthy d Ht).
  - intros item ->. by rewrite (or_undefined_truthy d Ht).
Qed.

(** An [http] resolver url and no landing page. *)
Lemma doi_agrees_across_providers_witness :
  doi (normalizeOpenAlexWork Scenarios.work_with_index) = Some "10.1000/182"
  /\ url (normalizeOpenAlexWork Scenarios.work_with_index)
     = Some "https://doi.org/10.1000/182".
Proof.
  destruct (doi_agrees_across_providers Scenarios.work_with_index
              "10.1000/182") as (Hdoi & Hurl & _).
  - discriminate.
  - by right.
  - split; [exact Hdoi|]. by apply Hurl.
Defined.

Lemma split_on_from_clean (c : ascii) (s : string) :
  forall current,
    forallb (other_than c) current = true ->
    Forall (fun piece => every (other_than c) piece = true)
           (split_on_from c s current).
Proof.
  induction s as [|c' s IH]; intros current Hcur; cbn [split_on_from].
  - constructor; [|constructor]. by rewrite every_of_list.
  - destruct (Ascii.eqb c' c) eqn:Hc.
    + constructor; [by rewrite every_of_list|]. by apply IH.
    + apply IH. cbn [forallb]. unfold other_than at 1. by rewrite Hc.
Qed.

Lemma truthy_nonempty (s : string) : truthy s = true -> s <> "".
Proof. by destruct s. Qed.

(** X21: the author lists hold no empty name.  A Crossref name has no
    white space, of any script, at either end; a Europe PMC name is a
    piece of the author string between commas, so it is trimmed and
    contains no comma.  The OpenAlex and Crossref lists are no longer than
    their input.  A Crossref author whose only name is one NO-BREAK SPACE
    is left out. *)
Theorem author_lists_are_clean
  (authorships : list (option string))
  (author : list (option string * option string))
  (authorString : string) :
  (Forall (fun name => name <> "") (openAlexAuthors (Some authorships))
   /\ (length (openAlexAuthors (Some authorships)) <= length authorships)%nat)
  /\ (Forall (fun name => name <> "" /\ trimmed name)
             (crossrefAuthors (Some author))
      /\ (length (crossrefAuthors (Some author)) <= length author)%nat)
  /\ Forall (fun name => name <> "" /\ trimmed name
                         /\ every (other_than ",") name = true)
            (europePmcAuthors (Some authorString))
  /\ crossrefAuthors
       (Some [ (Some (bytes [194; 160]), None);
               (Some "Ada", Some "Lovelace ") ])
     = ["Ada Lovelace"].
Proof.
  split_and!.
  - unfold openAlexAuthors. apply List.Forall_forall. intros name Hin.
    apply list_elem_of_In, list_elem_of_omap in Hin as (a & _ & Ha).
    apply or_undefined_Some in Ha as [_ Ht]. by apply truthy_nonempty.
  - apply length_omap_le.
  - unfold crossrefAuthors, filter_truthy. apply List.Forall_forall.
    intros name Hin. apply filter_In in Hin as [Hin Ht].
    apply in_map_iff in Hin as (a & <- & _).
    split; [by apply truthy_nonempty|apply trim_trimmed].
  - unfold crossrefAuthors, filter_truthy.
    etrans; [apply List.filter_length_le|]. by rewrite length_map.
  - unfold europePmcAuthors, filter_truthy.
    destruct (or_undefined (Some authorString)) as [s|] eqn:Hs;
      [|constructor].
    apply or_undefined_Some in Hs as [[= <-] _].
    apply List.Forall_forall. intros name Hin.
    apply filter_In in Hin as [Hin Ht].
    apply in_map_iff in Hin as (piece & <- & Hpiece).
    split_and!; [by apply truthy_nonempty|apply trim_trimmed|].
    apply every_trim.
    pose proof (split_on_from_clean "," authorString [] eq_refl) as Hall.
    by apply (proj1 (List.Forall_forall _ _) Hall).
  - by vm_compute.
Qed.

End NormalizerProperties.

(** ** The research endpoint and the query check of the works routes *)

Section Endpoints.
Import JS SearchService ResearchRoute ResearchApi WorksRoutes Spec Props.

Lemma api_name_not_fallback (api : Api) : api_name api <> "fallback".
Proof. by destruct api. Qed.

Lemma getAvailableAI_sound (apis : AvailableAPIs) (api : Api) :
  getAvailableAI apis = Some api ->
  isAvailable apis api = true /\ (api = groq \/ api = gemini).
Proof.
  unfold getAvailableAI. destruct (has_groq apis) eqn:Hg.
  - intros [= <-]. split; [done|by left].
  - destruct (has_gemini apis) eqn:Hm; [|discriminate].
    intros [= <-]. split; [done|by right].
Qed.

(** X22: the research endpoint answers 500 in exactly two cases: the
    request body cannot be read, or neither text-generation key is
    configured.  In every other case it answers 200, whatever the search
    and generation providers do: the sources are the results of the
    web-search stage in order, [sourceCount] is their number, every
    citation has its fields present, [usedAI] names a configured provider
    (Groq before Gemini) and [usedSearch] is [fallback] exactly when no
    search credential is configured. *)
Theorem POST_status (env : Env) (penv : ProcessEnv) (gen : Generation)
  (errorMessage : string) :
  POST env penv gen Throw errorMessage
  = {| status := 500;
       body := ErrorBody ("Research failed: " +:+ errorMessage) |}
  /\ forall request,
       let apis := checkAPIs penv (world env) in
       let response := POST env penv gen (Return request) errorMessage in
       (getAvailableAI apis = None ->
        status response = 500%nat /\ exists e, body response = ErrorBody e)
       /\ (forall ai,
             getAvailableAI apis = Some ai ->
             status response = 200%nat
             /\ exists result searchResults,
                  body response = ResultBody result
                  /\ performWebSearch (world env) (query request)
                     = Return searchResults
                  /\ sources result = map (sourceOf env) searchResults
                  /\ sourceCount (metadata result) = length (sources result)
                  /\ Forall populated (citations result)
                  /\ usedAI (metadata result) = api_name ai
                  /\ isAvailable apis ai = true
                  /\ (has_groq apis = true -> ai = groq)
                  /\ (usedSearch (metadata result) = "fallback"
                      <-> getAvailableSearch apis = None)).
Proof.
  split; [reflexivity|].
  intros request apis response. subst response. unfold POST.
  cbn [bind]. fold apis. split.
  - intros ->. cbn [try_catch status body]. split; [done|by eexists].
  - intros ai Hai. rewrite Hai.
    destruct (performWebSearch_returns (world env) (query request))
      as [found Hfound].
    unfold performWebSearchWithRetry, withRetry. cbn [retryFrom].
    rewrite Hfound. cbn [fst bind try_catch status body].
    split; [done|].
    eexists _, found. split; [reflexivity|].
    cbn [sources metadata sourceCount citations usedAI usedSearch].
    split_and!.
    + reflexivity.
    + reflexivity.
    + by rewrite length_map.
    + eapply generateCitations_populated. reflexivity.
    + reflexivity.
    + by apply getAvailableAI_sound in Hai as [? _].
    + intros Hg. unfold getAvailableAI in Hai. rewrite Hg in Hai.
      by injection Hai.
    + destruct (getAvailableSearch apis) as [api|]; [|done].
      split; [|done]. intros H. by apply api_name_not_fallback in H.
Qed.

(** The generation provider is down and no search credential is set. *)
Lemma POST_status_witness :
  status (POST Examples.plain_env Scenarios.gemini_only
            Scenarios.provider_down (Return Scenarios.graphene_request) "")
  = 200%nat.
Proof.
  apply (proj2 (proj2 (POST_status Examples.plain_env Scenarios.gemini_only
                         Scenarios.provider_down "")
                  Scenarios.graphene_request) gemini).
  reflexivity.
Defined.

Lemma missing_query_blank (q : string) :
  missing_query q = true <-> blank q.
Proof.
  unfold missing_query. rewrite orb_true_iff, Nat.eqb_eq. split.
  - intros [Hq|Hlen].
    + destruct q; [constructor|done].
    + by apply trim_blank, code_units_empty.
  - intros H. right. apply trim_blank in H. by rewrite H.
Qed.

(** X23: each of the four works routes answers 400 exactly when the query
    is blank, that is empty or made only of white space, of any script;
    otherwise it calls the service with the query as it was given, without
    trimming, and answers with the service's result, or with 500 when the
    service throws.  [q] is read first and [query] only when [q] is
    missing or empty, so a blank [q] hides a usable [query]. *)
Theorem works_routes_reject_blank_queries (searchParams : SearchParams) :
  rejects_blank_only (@openalex_GET) searchParams
  /\ rejects_blank_only (@crossref_GET) searchParams
  /\ rejects_blank_only (@arxiv_GET) searchParams
  /\ rejects_blank_only (@europepmc_GET) searchParams
  /\ (forall text, searchParams "q" = Some text -> text <> "" ->
                   query_of searchParams = text)
  /\ (or_undefined (searchParams "q") = None ->
      query_of searchParams = or_str (searchParams "query") "").
Proof.
  assert (blank (query_of searchParams) ->
          missing_query (query_of searchParams) = true) as Hblank
    by apply missing_query_blank.
  assert (~ blank (query_of searchParams) ->
          missing_query (query_of searchParams) = false) as Hfull.
  { intros H. destruct (missing_query _) eqn:Hm; [|done].
    by apply missing_query_blank in Hm. }
  split_and!.
  1-4: split;
    unfold openalex_GET, crossref_GET, arxiv_GET, europepmc_GET;
    [ intros H A service; by rewrite (Hblank H)
    | intros H; rewrite (Hfull H); eexists;
      split_and!;
        [ | intros A service result; unfold respond; by intros ->
          | intros A service; unfold respond; by intros -> ];
        reflexivity ].
  - intros text Hq Ht. unfold query_of. rewrite Hq.
    destruct text; [done|reflexivity].
  - intros Hq. unfold query_of.
    apply or_undefined_None in Hq as [-> | ->]; cbn [or_opt truthy];
      by destruct (searchParams "query").
Qed.

(** A [q] of one NO-BREAK SPACE and one space in front of a usable
    [query]. *)
Lemma works_routes_reject_blank_queries_witness :
  crossref_GET (fun _ => Return tt) Scenarios.blank_q
  = BadRequest "Missing query parameter q".
Proof.
  pose proof (works_routes_reject_blank_queries Scenarios.blank_q)
    as (_ & [Hcrossref _] & _).
  apply Hcrossref. by apply trim_blank.
Defined.

End Endpoints.

(** ** Time spent waiting between attempts *)

Section Backoff.
Import JS ResearchRoute Spec Props.

Lemma retryFrom_unfold {A} (stage : nat -> Exc A) (fallback : Exc A)
  (maxRetries attempt remaining : nat) :
  retryFrom stage fallback maxRetries attempt (S remaining)
  = match stage attempt with
    | Return value => (Return value, [Call attempt])
    | Throw =>
        if (attempt =? maxRetries)%nat then (fallback, [Call attempt])
        else
          let '(value, events) :=
            retryFrom stage fallback maxRetries (S attempt) remaining in
          (value, Call attempt :: Sleep (2 ^ Z.of_nat attempt * 1000) :: events)
    end.
Proof. reflexivity. Qed.

Lemma retryFrom_waited {A} (stage : nat -> Exc A) (fallback : Exc A)
  (maxRetries : nat) :
  forall remaining attempt,
    (attempt + remaining)%nat = maxRetries ->
    (0 <= waited (snd (retryFrom stage fallback maxRetries attempt
                         (S remaining)))
     <= (2 ^ Z.of_nat maxRetries - 2 ^ Z.of_nat attempt) * 1000)%Z.
Proof.
  induction remaining as [|remaining IH]; intros attempt Hsum;
    rewrite retryFrom_unfold.
  - assert (attempt = maxRetries) as -> by lia.
    destruct (stage maxRetries); [simpl; lia|].
    rewrite Nat.eqb_refl. simpl. lia.
  - assert (2 ^ Z.of_nat attempt <= 2 ^ Z.of_nat maxRetries)%Z as Hmono
      by (apply Z.pow_le_mono_r; lia).
    destruct (stage attempt); [simpl; lia|].
    rewrite (proj2 (Nat.eqb_neq attempt maxRetries)) by lia.
    specialize (IH (S attempt) ltac:(lia)).
    destruct (retryFrom stage fallback maxRetries (S attempt) (S remaining))
      as [value events].
    cbn [snd waited] in *.
    replace (Z.of_nat (S attempt)) with (Z.succ (Z.of_nat attempt)) in IH
      by lia.
    rewrite Z.pow_succ_r in IH by lia. lia.
Qed.

(** X24: a retry loop with [maxRetries >= 1] spends at most
    [(2 ^ maxRetries - 2)] seconds in waits, whatever the stage does: at
    most six seconds for each of the five wrappers, which run with three
    attempts. *)
Theorem retry_waits_are_bounded {A} (stage : nat -> Exc A) (fallback : Exc A)
  (maxRetries : nat) :
  (1 <= maxRetries)%nat ->
  (0 <= waited (snd (withRetry stage fallback maxRetries))
   <= (2 ^ Z.of_nat maxRetries - 2) * 1000)%Z
  /\ (maxRetries = maxRetries_default ->
      (waited (snd (withRetry stage fallback maxRetries)) <= 6000)%Z).
Proof.
  intros Hn. unfold withRetry.
  destruct maxRetries as [|remaining]; [lia|].
  pose proof (retryFrom_waited stage fallback (S remaining) remaining 1%nat
                ltac:(lia)) as Hw.
  change (2 ^ Z.of_nat 1)%Z with 2%Z in Hw. split; [exact Hw|].
  intros Hdefault. rewrite Hdefault in *.
  change (2 ^ Z.of_nat maxRetries_default)%Z with 8%Z in Hw. lia.
Qed.

(** A stage that succeeds at the third attempt: both waits are spent. *)
Lemma retry_waits_are_bounded_witness :
  (waited (snd (withRetry Examples.third_time_lucky (Return "fallback") 3))
   <= 6000)%Z.
Proof.
  apply (proj2 (retry_waits_are_bounded Examples.third_time_lucky
                  (Return "fallback") 3 ltac:(lia))).
  reflexivity.
Defined.

End Backoff.
